(** * gtest: fixture registry, fixture resolver and sub-test orchestrator

    A shallow embedding of [gtest.go] (package [gtest]) and proofs about it.

    The Go code works through [reflect]: types are inspected at run time,
    methods are looked up by name and called through [reflect.Value.Call].
    The embedding therefore carries a small model of [reflect.Type], and the
    code under test is written over it function by function, with the names
    of the source.

    What lives outside the package is a parameter of the development:
    - the user's fixtures and test groups (what [Construct], [Destruct], the
      hooks and the test methods do to the world and how they end);
    - [structtag.Parse] of github.com/fatih/structtag;
    - [reflect]'s assignability relation between types. *)

From stdpp Require Import gmap strings list fin_maps.

Local Open Scope string_scope.
Local Open Scope Z_scope.
Local Open Scope list_scope.

(** ** A model of [reflect.Type] *)

Module reflect.

(** [reflect.Kind], in the order of the Go declaration. *)
Inductive Kind : Type :=
| Invalid | Bool | Int | Int8 | Int16 | Int32 | Int64
| Uint | Uint8 | Uint16 | Uint32 | Uint64 | Uintptr
| Float32 | Float64 | Complex64 | Complex128
| Array | Chan | Func | Interface | Map | Pointer | Slice
| String | Struct | UnsafePointer.

#[global] Instance Kind_eq_dec : EqDecision Kind.
Proof. solve_decision. Defined.

(** The numeric value of a kind, as [%d] prints it. *)
Definition Kind_to_Z (k : Kind) : Z :=
  match k with
  | Invalid => 0 | Bool => 1 | Int => 2 | Int8 => 3 | Int16 => 4
  | Int32 => 5 | Int64 => 6 | Uint => 7 | Uint8 => 8 | Uint16 => 9
  | Uint32 => 10 | Uint64 => 11 | Uintptr => 12 | Float32 => 13
  | Float64 => 14 | Complex64 => 15 | Complex128 => 16 | Array => 17
  | Chan => 18 | Func => 19 | Interface => 20 | Map => 21
  | Pointer => 22 | Slice => 23 | String => 24 | Struct => 25
  | UnsafePointer => 26
  end.

(** A type as the package looks at it: what [String()] prints, its kind,
    its fields when it is a struct, and its method set.  A method's
    parameter list [ins] starts with the receiver, as [Method.Type] of a
    method obtained from a [reflect.Type] does. *)
Inductive Type_ : Type :=
  MkType (str : string) (kind : Kind)
         (fields : list StructField) (methods : list Method)
with StructField : Type :=
  MkField (name : string) (pkgPath : string) (type : Type_) (tag : string)
with Method : Type :=
  MkMethod (name : string) (ins : list Type_) (outs : list Type_).

Definition TypeString (t : Type_) : string :=
  match t with MkType s _ _ _ => s end.
Definition TypeKind (t : Type_) : Kind :=
  match t with MkType _ k _ _ => k end.
Definition Fields (t : Type_) : list StructField :=
  match t with MkType _ _ fs _ => fs end.
Definition Methods (t : Type_) : list Method :=
  match t with MkType _ _ _ ms => ms end.

Definition FieldName (f : StructField) : string :=
  match f with MkField n _ _ _ => n end.
Definition FieldPkgPath (f : StructField) : string :=
  match f with MkField _ p _ _ => p end.
Definition FieldType (f : StructField) : Type_ :=
  match f with MkField _ _ t _ => t end.
Definition FieldTag (f : StructField) : string :=
  match f with MkField _ _ _ t => t end.

Definition MethodName (m : Method) : string :=
  match m with MkMethod n _ _ => n end.
Definition MethodIns (m : Method) : list Type_ :=
  match m with MkMethod _ i _ => i end.
Definition MethodOuts (m : Method) : list Type_ :=
  match m with MkMethod _ _ o => o end.

(** [Type.MethodByName]: the method of that name, if the set has one. *)
Definition MethodByName (t : Type_) (name : string) : option Method :=
  List.find (fun m => bool_decide (MethodName m = name)) (Methods t).

(** [Type.NumIn()] and [Type.NumOut()] of a method's function type. *)
Definition NumIn (m : Method) : Z := Z.of_nat (length (MethodIns m)).
Definition NumOut (m : Method) : Z := Z.of_nat (length (MethodOuts m)).

(** [Type.In(i)]; Go panics when [i] is out of range, here [None]. *)
Definition In_ (m : Method) (i : nat) : option Type_ := MethodIns m !! i.

(** [Type.FieldByName] on the direct fields of a struct: the first field
    of that name. *)
Definition FieldByName (t : Type_) (name : string) : option StructField :=
  List.find (fun f => bool_decide (FieldName f = name)) (Fields t).

(** [Value.CanSet] for a field of an addressable struct: the field is
    exported, which [reflect] records as an empty [PkgPath]. *)
Definition CanSet (f : StructField) : bool :=
  bool_decide (FieldPkgPath f = "").

End reflect.

Import reflect (Type_, StructField, Method, MkType, MkField, MkMethod).

(** ** The registry and the contract validators *)

(** [type FixtureScope string]: any string is a scope; two are named. *)
Definition FixtureScope : Type := string.

Definition ScopeSubTest : FixtureScope := "subtest".
Definition ScopeCall : FixtureScope := "call".
Definition testMethodPrefix : string := "SubTest".

(** What [fmt.Errorf] reports in [RegisterFixture] and its two validators,
    one constructor per call site with the values it formats. *)
Inductive RegisterError : Type :=
| AlreadyRegistered (name : string) (scope : FixtureScope)
| MissingConstruct (fType : string)
| ConstructNumIn (fType : string) (got : Z)
| ConstructNumOut (fType : string) (got : Z)
| ConstructArg1 (fType : string) (got : string)
| ConstructArg2 (fType : string)
| MissingDestruct (fType : string)
| DestructNumIn (fType : string) (got : Z)
| DestructArg1 (fType : string) (got : string)
| DestructArg2 (fType : string) (got : string).

(** The two kinds of registration error the specification names. *)
Inductive RegisterErrorClass : Type := DuplicateName | InvalidContract.

Definition classify (e : RegisterError) : RegisterErrorClass :=
  match e with
  | AlreadyRegistered _ _ => DuplicateName
  | _ => InvalidContract
  end.

(** Go's [error] result: [None] is [nil]. *)
Definition error : Type := option RegisterError.

Definition validateFixtureConstructMethod (fType : Type_) : error :=
  match reflect.MethodByName fType "Construct" with
  | None => Some (MissingConstruct (reflect.TypeString fType))
  | Some constructMethod =>
      if negb (reflect.NumIn constructMethod =? 3) then
        Some (ConstructNumIn (reflect.TypeString fType)
                             (reflect.NumIn constructMethod - 1))
      else if negb (reflect.NumOut constructMethod =? 2) then
        Some (ConstructNumOut (reflect.TypeString fType)
                              (reflect.NumOut constructMethod))
      else
        match reflect.In_ constructMethod 1, reflect.In_ constructMethod 2 with
        | Some arg1, Some arg2 =>
            if negb (bool_decide (reflect.TypeString arg1 = "*testing.T")) then
              Some (ConstructArg1 (reflect.TypeString fType)
                                  (reflect.TypeString arg1))
            else if negb (bool_decide (reflect.TypeKind arg2 = reflect.Struct)) then
              Some (ConstructArg2 (reflect.TypeString fType))
            else None
        | _, _ =>
            (* not reached: NumIn is 3 here *)
            Some (ConstructNumIn (reflect.TypeString fType)
                                 (reflect.NumIn constructMethod - 1))
        end
  end.

Definition validateFixtureDestructMethod (fType : Type_) : error :=
  match reflect.MethodByName fType "Destruct" with
  | None => Some (MissingDestruct (reflect.TypeString fType))
  | Some destructMethod =>
      if negb (reflect.NumIn destructMethod =? 3) then
        Some (DestructNumIn (reflect.TypeString fType)
                            (reflect.NumIn destructMethod - 1))
      else
        match reflect.In_ destructMethod 1, reflect.In_ destructMethod 2 with
        | Some arg1, Some arg2 =>
            if negb (bool_decide (reflect.TypeString arg1 = "*testing.T")) then
              Some (DestructArg1 (reflect.TypeString fType)
                                 (reflect.TypeString arg1))
            else if negb (bool_decide (reflect.TypeString arg2 = "interface {}")) then
              Some (DestructArg2 (reflect.TypeString fType)
                                 (reflect.TypeString arg2))
            else None
        | _, _ =>
            (* not reached: NumIn is 3 here *)
            Some (DestructNumIn (reflect.TypeString fType)
                                (reflect.NumIn destructMethod - 1))
        end
  end.

Section Registry.

(** A registered instance is an [interface{}] value.  The model keeps its
    identity (what [==] and a map key compare) apart from its dynamic
    type, which [reflect.TypeOf] returns. *)
Context {Instance : Type} `{Countable Instance}.
Variable TypeOf : Instance -> Type_.

Record FixtureEntry : Type := mkFixtureEntry {
  Scope : FixtureScope;
  Instance_ : Instance;
}.

(** [RegisterFixture], with the package variable [registeredFixtures]
    passed in and returned. *)
Definition RegisterFixture (name : string) (f : Instance) (scope : FixtureScope)
    (registeredFixtures : gmap string FixtureEntry)
  : error * gmap string FixtureEntry :=
  match registeredFixtures !! name with
  | Some entry => (Some (AlreadyRegistered name (Scope entry)), registeredFixtures)
  | None =>
      let fType := TypeOf f in
      match validateFixtureConstructMethod fType with
      | Some err => (Some err, registeredFixtures)
      | None =>
          match validateFixtureDestructMethod fType with
          | Some err => (Some err, registeredFixtures)
          | None =>
              (None, <[name := mkFixtureEntry scope f]> registeredFixtures)
          end
      end
  end.

Definition GetFixture (name : string)
    (registeredFixtures : gmap string FixtureEntry) : option FixtureEntry :=
  registeredFixtures !! name.

End Registry.

Arguments FixtureEntry Instance : clear implicits.
Arguments mkFixtureEntry {Instance} _ _.
Arguments Scope {Instance} _.
Arguments Instance_ {Instance} _.

(** A type that passes both validators. *)
Definition valid_fixture (fType : Type_) : bool :=
  match validateFixtureConstructMethod fType, validateFixtureDestructMethod fType with
  | None, None => true
  | _, _ => false
  end.

(** How [MustRegisterFixture] ends, and an [init] function made of such
    calls: it returns, or it panics with the message made of the error. *)
Inductive MustResult : Type :=
| Registered
| PanicFailedToRegister (err : RegisterError).

Section MustRegister.

Context {Instance : Type} `{Countable Instance}.
Variable TypeOf : Instance -> Type_.

Definition MustRegisterFixture (name : string) (f : Instance) (scope : FixtureScope)
    (registeredFixtures : gmap string (FixtureEntry Instance))
  : MustResult * gmap string (FixtureEntry Instance) :=
  match RegisterFixture TypeOf name f scope registeredFixtures with
  | (Some err, registeredFixtures') => (PanicFailedToRegister err, registeredFixtures')
  | (None, registeredFixtures') => (Registered, registeredFixtures')
  end.

(** The [init] functions of the test files: [MustRegisterFixture] is called
    for one fixture after the other, and a panic ends the function. *)
Fixpoint init (calls : list (string * Instance * FixtureScope))
    (registeredFixtures : gmap string (FixtureEntry Instance))
  : MustResult * gmap string (FixtureEntry Instance) :=
  match calls with
  | [] => (Registered, registeredFixtures)
  | (name, f, scope) :: calls' =>
      match MustRegisterFixture name f scope registeredFixtures with
      | (Registered, registeredFixtures') => init calls' registeredFixtures'
      | (PanicFailedToRegister err, registeredFixtures') =>
          (PanicFailedToRegister err, registeredFixtures')
      end
  end.

End MustRegister.

(** ** Execution model *)

Module testing.

(** A [*testing.T]: the handle [RunSubTests] is given, or the handle of a
    sub-unit that [t.Run] started under another one. *)
Inductive T : Type :=
| Main
| Sub (parent : T) (name : string).

#[global] Instance T_eq_dec : EqDecision T.
Proof. solve_decision. Defined.

(** [h] is the handle of a unit above the unit of [t]: its parent, or
    further up. *)
Fixpoint above (h t : T) : bool :=
  match t with
  | Main => false
  | Sub parent _ => bool_decide (h = parent) || above h parent
  end.

End testing.

(** The type [reflect.ValueOf(t)] has for a [t *testing.T]. *)
Definition testing_T : Type_ := MkType "*testing.T" reflect.Pointer [] [].

(** How a call ends for the goroutine that made it.  [Goexit] is
    [runtime.Goexit], which [t.FailNow], [t.Fatalf] and [t.SkipNow] end
    with: the goroutine stops and nothing after the call runs in it.
    [Panic] unwinds the goroutine and takes the test binary down.
    [OutOfFuel] belongs to the model: the resolver's recursion is bounded
    by a counter. *)
Inductive Result (A : Type) : Type :=
| Ret (a : A)
| Goexit
| Panic
| OutOfFuel.

Arguments Ret {A} a.
Arguments Goexit {A}.
Arguments Panic {A}.
Arguments OutOfFuel {A}.

(** A result that is not [Ret], at another type. *)
Definition abort {A B : Type} (r : Result A) : Result B :=
  match r with
  | Ret _ => Panic
  | Goexit => Goexit
  | Panic => Panic
  | OutOfFuel => OutOfFuel
  end.

Definition returned {A : Type} (r : Result A) : bool :=
  match r with Ret _ => true | _ => false end.

(** One parsed key of a struct tag, as [structtag.Tag]. *)
Record Tag : Type := mkTag {
  Key : string;
  Name : string;
  Options : list string;
}.

(** [Tags.Get]: the first tag with that key. *)
Definition Get (tags : list Tag) (key : string) : option Tag :=
  List.find (fun tg => bool_decide (Key tg = key)) tags.

(** What [t.Fatalf] reports in [resolve] and [RunSubTests], one constructor
    per call site with the values it formats. *)
Inductive Fatal : Type :=
| NotStruct (kind : Z)
| InvalidTag (fieldTagStr : string)
| MissingFixtureTag (fieldName fieldType caller : string)
| UnregisteredFixture (caller : string) (fixgureTag : Tag)
| NotExported (caller fieldName : string)
| NoParameter (methodName : string)
| FirstParameter (methodName argType : string)
| TooManyParameters (methodName : string) (methodParamCount : Z).

(** What an observer of a run sees, in order: every call into user code
    with its arguments and how it ended, every [t.Fatalf], and the start
    and end of every sub-unit of [t.Run]. *)
Inductive Event (Instance V : Type) : Type :=
| EvSetup (t : testing.T) (r : Result unit)
| EvTeardown (t : testing.T) (r : Result unit)
| EvBeforeEach (t : testing.T) (r : Result unit)
| EvAfterEach (t : testing.T) (r : Result unit)
| EvConstruct (f : Instance) (t : testing.T) (fixtures : gmap string V)
              (returns : Result (list V))
| EvDestruct (f : Instance) (t : testing.T) (ctx : V) (r : Result unit)
| EvTest (methodName : string) (t : testing.T)
         (fixtures : option (gmap string V)) (r : Result unit)
| EvRun (t : testing.T) (name : string)
| EvRunEnd (t : testing.T) (name : string)
| EvFatalf (t : testing.T) (msg : Fatal).

Arguments EvSetup {Instance V} t r.
Arguments EvTeardown {Instance V} t r.
Arguments EvBeforeEach {Instance V} t r.
Arguments EvAfterEach {Instance V} t r.
Arguments EvConstruct {Instance V} f t fixtures returns.
Arguments EvDestruct {Instance V} f t ctx r.
Arguments EvTest {Instance V} methodName t fixtures r.
Arguments EvRun {Instance V} t name.
Arguments EvRunEnd {Instance V} t name.
Arguments EvFatalf {Instance V} t msg.

(** A [reflect.Value] holding user data: the type it was declared with and
    the data. *)
Record Value (V : Type) : Type := mkValue {
  typ : Type_;
  data : V;
}.

Arguments mkValue {V} typ data.
Arguments typ {V} _.
Arguments data {V} _.

(** The closure [resolve] appends to [cleanUpCbs], as the three variables
    it captures. *)
Record Cleanup (Instance V : Type) : Type := mkCleanup {
  cb_fVal : Instance;
  cb_t : testing.T;
  cb_ctxVal : Value V;
}.

Arguments mkCleanup {Instance V} cb_fVal cb_t cb_ctxVal.
Arguments cb_fVal {Instance V} _.
Arguments cb_t {Instance V} _.
Arguments cb_ctxVal {Instance V} _.

(** A test group: the dynamic type of the [GTest] value, whose method set
    [RunSubTests] walks, and what its hooks and methods do. *)
Record GTest (W V : Type) : Type := mkGTest {
  gtType : Type_;
  Setup : testing.T -> W -> Result unit * W;
  Teardown : testing.T -> W -> Result unit * W;
  BeforeEach : testing.T -> W -> Result unit * W;
  AfterEach : testing.T -> W -> Result unit * W;
  TestMethod : string -> testing.T -> option (gmap string V) -> W -> Result unit * W;
}.

Arguments mkGTest {W V} _ _ _ _ _ _.
Arguments gtType {W V} _.
Arguments Setup {W V} _ _ _.
Arguments Teardown {W V} _ _ _.
Arguments BeforeEach {W V} _ _ _.
Arguments AfterEach {W V} _ _ _.
Arguments TestMethod {W V} _ _ _ _ _.

(** What the package finds around it when tests run. *)
Class Runtime (Instance : Type) `{Countable Instance} (W V : Type) : Type := {
  (** [reflect.TypeOf] of a registered instance. *)
  TypeOf : Instance -> Type_;
  (** [reflect]'s assignability: a value of the first type can be stored
      in a place of the second. *)
  AssignableTo : Type_ -> Type_ -> bool;
  (** [structtag.Parse]; [None] is a parse error. *)
  structtag_Parse : string -> option (list Tag);
  (** What the user's [Construct] and [Destruct] methods do. *)
  Construct : Instance -> testing.T -> gmap string V -> W -> Result (list V) * W;
  Destruct : Instance -> testing.T -> V -> W -> Result unit * W;
  (** The package variable [registeredFixtures]; registration is over
      when tests run. *)
  registeredFixtures : gmap string (FixtureEntry Instance);
}.

Section Engine.

Context {Instance : Type} `{Countable Instance} {W V : Type}.
Context {rt : Runtime Instance W V}.

(** The mutable objects of a run: the world user code acts on, and, for
    the test case at hand, the resolver's map [Resolved] and the slice
    [cleanUpCbs]. *)
Record State : Type := mkState {
  world : W;
  Resolved : gmap Instance (Value V);
  cleanUpCbs : list (Cleanup Instance V);
}.

Definition M (A : Type) : Type :=
  State -> Result A * State * list (Event Instance V).

Definition ret {A : Type} (a : A) : M A := fun st => (Ret a, st, []).

Definition bind {A B : Type} (m : M A) (k : A -> M B) : M B :=
  fun st =>
    match m st with
    | (Ret a, st1, evs1) =>
        match k a st1 with
        | (r, st2, evs2) => (r, st2, evs1 ++ evs2)
        end
    | (r, st1, evs1) => (abort r, st1, evs1)
    end.

Definition stop {A : Type} (r : Result A) : M A := fun st => (r, st, []).

(** [t.Fatalf]: report, then [runtime.Goexit]. *)
Definition Fatalf {A : Type} (t : testing.T) (msg : Fatal) : M A :=
  fun st => (Goexit, st, [EvFatalf t msg]).

(** A call into user code: it acts on the world, and the call is observed
    together with how it ended. *)
Definition call {A : Type} (f : W -> Result A * W)
    (ev : Result A -> Event Instance V) : M A :=
  fun st =>
    match f (world st) with
    | (r, w) => (r, mkState w (Resolved st) (cleanUpCbs st), [ev r])
    end.

Definition get_Resolved (f : Instance) : M (option (Value V)) :=
  fun st => (Ret (Resolved st !! f), st, []).

Definition set_Resolved (f : Instance) (valVal : Value V) : M unit :=
  fun st =>
    (Ret tt, mkState (world st) (<[f := valVal]> (Resolved st)) (cleanUpCbs st), []).

Definition append_cleanUpCbs (cb : Cleanup Instance V) : M unit :=
  fun st =>
    (Ret tt, mkState (world st) (Resolved st) (cleanUpCbs st ++ [cb]), []).

Definition get_cleanUpCbs : M (list (Cleanup Instance V)) :=
  fun st => (Ret (cleanUpCbs st), st, []).

Notation "'let*' x ':=' m 'in' k" := (bind m (fun x => k))
  (at level 10, x name, m at level 100, k at level 200, only parsing).

(** [reflect.Value.Call] on a method value panics unless it is given as
    many arguments as the method has parameters after the receiver, each
    assignable to its parameter.  (Variadic methods are not modelled.) *)
Definition Call_accepts (m : Method) (args : list Type_) : bool :=
  bool_decide (length (tail (reflect.MethodIns m)) = length args)
  && forallb (fun ap => AssignableTo ap.1 ap.2)
             (zip args (tail (reflect.MethodIns m))).

(** ** The fixture resolver *)

(** Lines 191-220 of [resolve]: the fixture is built.  [rec] is the
    recursive call [self.resolve]. *)
Definition construct (rec : testing.T -> Type_ -> string -> M (gmap string V))
    (t : testing.T) (fentry : FixtureEntry Instance) : M (Value V) :=
  let f := Instance_ fentry in
  let fType := TypeOf f in
  match reflect.MethodByName fType "Construct" with
  | None => stop Panic
  | Some constructMethod =>
      match reflect.In_ constructMethod 2 with
      | None => stop Panic
      | Some in2 =>
          let* fixtures :=
            rec t in2 (reflect.TypeString fType ++ ".Construct")%string in
          if negb (Call_accepts constructMethod [testing_T; in2]) then stop Panic
          else
            let* rets := call (Construct f t fixtures) (EvConstruct f t fixtures) in
            match zip_with mkValue (reflect.MethodOuts constructMethod) rets with
            | valVal :: ctxVal :: _ =>
                let* _ := append_cleanUpCbs (mkCleanup f t ctxVal) in
                let* _ :=
                  (if decide (Scope fentry = ScopeSubTest)
                   then set_Resolved f valVal else ret tt) in
                ret valVal
            | _ => stop Panic
            end
      end
  end.

(** One turn of the loop of [resolve] over the fields of the fixtures
    struct: [fixturesVal] is the struct filled so far. *)
Definition resolve_field (rec : testing.T -> Type_ -> string -> M (gmap string V))
    (t : testing.T) (fixturesType : Type_) (caller : string)
    (field : StructField) (fixturesVal : gmap string V) : M (gmap string V) :=
  let fieldTagStr := reflect.FieldTag field in
  match structtag_Parse fieldTagStr with
  | None => Fatalf t (InvalidTag fieldTagStr)
  | Some tags =>
      match Get tags "fixture" with
      | None =>
          Fatalf t (MissingFixtureTag (reflect.FieldName field)
                      (reflect.TypeString (reflect.FieldType field)) caller)
      | Some fixgureTag =>
          match registeredFixtures !! Name fixgureTag with
          | None => Fatalf t (UnregisteredFixture caller fixgureTag)
          | Some fentry =>
              let f := Instance_ fentry in
              let* cached :=
                (if decide (Scope fentry = ScopeSubTest)
                 then get_Resolved f else ret None) in
              let* valVal :=
                match cached with
                | Some valVal => ret valVal
                | None => construct rec t fentry
                end in
              match reflect.FieldByName fixturesType (reflect.FieldName field) with
              | Some fixturesValField =>
                  if reflect.CanSet fixturesValField then
                    if AssignableTo (typ valVal) (reflect.FieldType fixturesValField)
                    then ret (<[reflect.FieldName field := data valVal]> fixturesVal)
                    else stop Panic
                  else Fatalf t (NotExported caller (reflect.FieldName field))
              | None => Fatalf t (NotExported caller (reflect.FieldName field))
              end
          end
      end
  end.

(** A [for] loop over a slice that threads a value through its turns. *)
Fixpoint for_each {A S : Type} (body : A -> S -> M S) (l : list A) (s : S) : M S :=
  match l with
  | [] => ret s
  | a :: l' => let* s' := body a s in for_each body l' s'
  end.

(** [fixtureResolver.resolve].  [self.Resolved] and [*cleanUpCbs] are in
    the state.  The recursion goes through the registry and need not end;
    [fuel] bounds its depth. *)
Fixpoint resolve (fuel : nat) (t : testing.T) (fixturesType : Type_)
    (caller : string) : M (gmap string V) :=
  match fuel with
  | O => stop OutOfFuel
  | S fuel' =>
      let kind := reflect.TypeKind fixturesType in
      if negb (bool_decide (kind = reflect.Struct)) then
        Fatalf t (NotStruct (reflect.Kind_to_Z kind))
      else
        for_each (resolve_field (resolve fuel') t fixturesType caller)
                 (reflect.Fields fixturesType) ∅
  end.

(** ** The orchestrator *)

(** [strings.HasPrefix] and [strings.TrimPrefix]. *)
Definition HasPrefix (s prefix : string) : bool := String.prefix prefix s.

Definition TrimPrefix (s prefix : string) : string :=
  if HasPrefix s prefix
  then String.substring (String.length prefix)
                        (String.length s - String.length prefix) s
  else s.

(** The handle a call has given up on.  User code is called with one
    handle, and when it ends in [runtime.Goexit] it has called [FailNow],
    [Fatal] or [SkipNow] on that handle, which marks the handle as
    finished before the goroutine goes; [t.Fatalf] does so for [t]. *)
Definition gave_up_on (ev : Event Instance V) : option testing.T :=
  match ev with
  | EvSetup h Goexit | EvTeardown h Goexit
  | EvBeforeEach h Goexit | EvAfterEach h Goexit => Some h
  | EvConstruct _ h _ Goexit => Some h
  | EvDestruct _ h _ Goexit => Some h
  | EvTest _ h _ Goexit => Some h
  | EvFatalf h _ => Some h
  | _ => None
  end.

(** [t.Run(name, f)]: [f] runs in a goroutine of its own on a new handle,
    and [Run] waits for it.  When [f] returns, or leaves through
    [runtime.Goexit] having given up on its own handle, the sub-unit is
    over and [Run] returns to its caller, which [EvRunEnd] records.  When
    [f] leaves having given up on a handle above its own, [Run] does not
    return: it ends the goroutine of its caller in turn ([testing] has it
    that the "subtest may have called FailNow on a parent test").  That is
    the case of a [Destruct] that gives up, since the clean-up entries
    call [Destruct] with the handle [resolve] was given, the handle of the
    group.  A goroutine that leaves with none of these handles given up on
    makes the test binary panic.  The sub-unit is taken to be started:
    no [-run] pattern leaves it out and no [-failfast] has set in. *)
Definition Run (t : testing.T) (name : string) (f : testing.T -> M unit) : M unit :=
  fun st =>
    match f (testing.Sub t name) st with
    | (Ret _, st1, evs) =>
        (Ret tt, st1, EvRun t name :: evs ++ [EvRunEnd t name])
    | (Goexit, st1, evs) =>
        match last evs ≫= gave_up_on with
        | Some h =>
            if bool_decide (h = testing.Sub t name)
            then (Ret tt, st1, EvRun t name :: evs ++ [EvRunEnd t name])
            else if testing.above h (testing.Sub t name)
                 then (Goexit, st1, EvRun t name :: evs)
                 else (Panic, st1, EvRun t name :: evs)
        | None => (Panic, st1, EvRun t name :: evs)
        end
    | (r, st1, evs) => (r, st1, EvRun t name :: evs)
    end.

(** The closure a clean-up entry stands for: [Destruct] is looked up on the
    instance and called with the captured handle and context. *)
Definition run_cleanup (cb : Cleanup Instance V) : M unit :=
  match reflect.MethodByName (TypeOf (cb_fVal cb)) "Destruct" with
  | None => stop Panic
  | Some destructMethod =>
      if negb (Call_accepts destructMethod [testing_T; typ (cb_ctxVal cb)])
      then stop Panic
      else call (Destruct (cb_fVal cb) (cb_t cb) (data (cb_ctxVal cb)))
                (EvDestruct (cb_fVal cb) (cb_t cb) (data (cb_ctxVal cb)))
  end.

(** [for _, cb := range cleanUpCbs { cb() }]. *)
Fixpoint run_cleanUpCbs (cbs : list (Cleanup Instance V)) : M unit :=
  match cbs with
  | [] => ret tt
  | cb :: cbs' => let* _ := run_cleanup cb in run_cleanUpCbs cbs'
  end.

Variable gt : GTest W V.

(** The function literal given to [t.Run] (lines 281-292). *)
Definition subtest (method : Method) (fixtures : option (gmap string V))
    (t : testing.T) : M unit :=
  let methodName := reflect.MethodName method in
  let* _ := call (BeforeEach gt t) (EvBeforeEach t) in
  let* _ :=
    (if negb (Call_accepts method
                (testing_T :: match fixtures, reflect.In_ method 2 with
                              | Some _, Some fixturesType => [fixturesType]
                              | _, _ => []
                              end))
     then stop Panic
     else call (TestMethod gt methodName t fixtures)
               (EvTest methodName t fixtures)) in
  let* cbs := get_cleanUpCbs in
  let* _ := run_cleanUpCbs cbs in
  call (AfterEach gt t) (EvAfterEach t).

Definition newFixtureResolver : M unit :=
  fun st => (Ret tt, mkState (world st) ∅ (cleanUpCbs st), []).

Definition new_cleanUpCbs : M unit :=
  fun st => (Ret tt, mkState (world st) (Resolved st) [], []).

(** One turn of the loop of [RunSubTests] over the methods of the group
    (lines 242-292). *)
Definition RunSubTests_method (fuel : nat) (t : testing.T) (method : Method) : M unit :=
  let* _ := newFixtureResolver in
  let methodName := reflect.MethodName method in
  if negb (HasPrefix methodName testMethodPrefix) then ret tt
  else
    let methodParamCount := reflect.NumIn method - 1 in
    let* _ := new_cleanUpCbs in
    let* _ :=
      (if methodParamCount <? 1 then Fatalf t (NoParameter methodName)
       else ret tt) in
    match reflect.In_ method 1 with
    | None => stop Panic
    | Some arg1 =>
        let argType := reflect.TypeString arg1 in
        let* _ :=
          (if negb (bool_decide (argType = "*testing.T"))
           then Fatalf t (FirstParameter methodName argType) else ret tt) in
        let* fixtures :=
          (if methodParamCount =? 2 then
             match reflect.In_ method 2 with
             | None => stop Panic
             | Some fixturesType =>
                 let* fixturesVal := resolve fuel t fixturesType methodName in
                 ret (Some fixturesVal)
             end
           else if methodParamCount >? 2 then
             Fatalf t (TooManyParameters methodName methodParamCount)
           else ret None) in
        Run t (TrimPrefix methodName testMethodPrefix) (subtest method fixtures)
    end.

Fixpoint RunSubTests_loop (fuel : nat) (t : testing.T) (methods : list Method) : M unit :=
  match methods with
  | [] => ret tt
  | method :: methods' =>
      let* _ := RunSubTests_method fuel t method in
      RunSubTests_loop fuel t methods'
  end.

(** [RunSubTests]: the methods of [reflect.TypeOf(gt)] are walked in the
    order [Method(i)] gives them. *)
Definition RunSubTests (fuel : nat) (t : testing.T) : M unit :=
  let* _ := call (Setup gt t) (EvSetup t) in
  let* _ := RunSubTests_loop fuel t (reflect.Methods (gtType gt)) in
  call (Teardown gt t) (EvTeardown t).

End Engine.

(** ** What a run shows *)

Section Observations.

Context {Instance : Type} `{Countable Instance} {W V : Type}.
Context {rt : Runtime Instance W V}.

(** The registry entry a struct field is bound to by its tag. *)
Definition entry_of (field : StructField) : option (FixtureEntry Instance) :=
  match structtag_Parse (reflect.FieldTag field) with
  | None => None
  | Some tags =>
      match Get tags "fixture" with
      | None => None
      | Some fixgureTag => registeredFixtures !! Name fixgureTag
      end
  end.

(** The field is a reference to the instance [f], under whatever name. *)
Definition refers (f : Instance) (field : StructField) : bool :=
  match entry_of field with
  | Some fentry => bool_decide (Instance_ fentry = f)
  | None => false
  end.

(** The fixtures struct the [Construct] of an instance asks for. *)
Definition Construct_fixtures (g : Instance) : option Type_ :=
  match reflect.MethodByName (TypeOf g) "Construct" with
  | None => None
  | Some constructMethod => reflect.In_ constructMethod 2
  end.

(** How many fields of a struct type refer to [f]. *)
Definition refs (f : Instance) (fixturesType : Type_) : nat :=
  length (List.filter (refers f) (reflect.Fields fixturesType)).

Definition is_Construct_of (f : Instance) (ev : Event Instance V) : bool :=
  match ev with
  | EvConstruct g _ _ _ => bool_decide (g = f)
  | _ => false
  end.

(** How many times [Construct] was called on [f]. *)
Definition constructs (f : Instance) (evs : list (Event Instance V)) : nat :=
  length (List.filter (is_Construct_of f) evs).

(** The references to [f] in the fixtures structs of the fixtures built
    during [evs]: each [Construct] call stands for one resolution of the
    struct it asks for. *)
Fixpoint nested_refs (f : Instance) (evs : list (Event Instance V)) : nat :=
  match evs with
  | [] => 0
  | EvConstruct g _ _ _ :: evs' =>
      (match Construct_fixtures g with
       | Some fixturesType => refs f fixturesType
       | None => 0
       end + nested_refs f evs')%nat
  | _ :: evs' => nested_refs f evs'
  end.

(** The clean-up entry [cb] was appended for the [Construct] call [ev]:
    same instance, same handle, and the context the call returned. *)
Definition cleanup_for (ev : Event Instance V) (cb : Cleanup Instance V) : Prop :=
  exists fixtures valData rest,
    ev = EvConstruct (cb_fVal cb) (cb_t cb) fixtures
                     (Ret (valData :: data (cb_ctxVal cb) :: rest)).

(** [Construct] on [g] returned the value [d] during [evs]. *)
Definition built (evs : list (Event Instance V)) (g : Instance) (d : V) : Prop :=
  exists t fixtures rest, In (EvConstruct g t fixtures (Ret (d :: rest))) evs.

(** The event [Destruct] leaves when the clean-up entry [cb] runs. *)
Definition Destruct_event (cb : Cleanup Instance V) (r : Result unit)
  : Event Instance V :=
  EvDestruct (cb_fVal cb) (cb_t cb) (data (cb_ctxVal cb)) r.

(** Field names are pairwise distinct, as Go asks of a struct type. *)
Definition distinct_fields (fixturesType : Type_) : Prop :=
  NoDup (map reflect.FieldName (reflect.Fields fixturesType)).


(** A successful resolution of a list of fields, step by step: from the
    struct filled so far and a state to the finished struct, the final
    state and the events in between.  A field is served from
    [self.Resolved], or its fixture is built after the fixtures its
    [Construct] asks for have been resolved; [Construct] is never entered
    again for the instance while those are resolved (such a dependency on
    itself never comes to an end). *)
Inductive Resolving (t : testing.T)
  : list StructField -> gmap string V -> State (Instance := Instance) (W := W) (V := V) ->
    gmap string V -> State -> list (Event Instance V) -> Prop :=
| Resolving_nil fixturesVal st :
    Resolving t [] fixturesVal st fixturesVal st []
| Resolving_cached field fields fixturesVal st fentry valVal fixturesVal' st' evs :
    entry_of field = Some fentry ->
    Scope fentry = ScopeSubTest ->
    Resolved st !! Instance_ fentry = Some valVal ->
    Resolving t fields (<[reflect.FieldName field := data valVal]> fixturesVal) st
              fixturesVal' st' evs ->
    Resolving t (field :: fields) fixturesVal st fixturesVal' st' evs
| Resolving_construct field fields fixturesVal st fentry constructMethod
    fixturesType fixtures st1 evs1 rets w valVal ctxVal rest fixturesVal' st' evs2 :
    entry_of field = Some fentry ->
    (Scope fentry = ScopeSubTest -> Resolved st !! Instance_ fentry = None) ->
    reflect.MethodByName (TypeOf (Instance_ fentry)) "Construct" = Some constructMethod ->
    reflect.In_ constructMethod 2 = Some fixturesType ->
    Resolving t (reflect.Fields fixturesType) ∅ st fixtures st1 evs1 ->
    constructs (Instance_ fentry) evs1 = 0%nat ->
    Construct (Instance_ fentry) t fixtures (world st1) = (Ret rets, w) ->
    zip_with mkValue (reflect.MethodOuts constructMethod) rets
      = valVal :: ctxVal :: rest ->
    Resolving t fields (<[reflect.FieldName field := data valVal]> fixturesVal)
              (mkState w
                 (if decide (Scope fentry = ScopeSubTest)
                  then <[Instance_ fentry := valVal]> (Resolved st1)
                  else Resolved st1)
                 (cleanUpCbs st1 ++ [mkCleanup (Instance_ fentry) t ctxVal]))
              fixturesVal' st' evs2 ->
    Resolving t (field :: fields) fixturesVal st fixturesVal' st'
              (evs1 ++ EvConstruct (Instance_ fentry) t fixtures (Ret rets) :: evs2).

(** The names of the sub-units started, in order. *)
Definition subunits (evs : list (Event Instance V)) : list string :=
  omap (fun ev => match ev with EvRun _ name => Some name | _ => None end) evs.

Definition is_Setup (ev : Event Instance V) : bool :=
  match ev with EvSetup _ _ => true | _ => false end.
Definition is_Teardown (ev : Event Instance V) : bool :=
  match ev with EvTeardown _ _ => true | _ => false end.



(** The events [resolve] leaves on the handle [t]: calls of [Construct]
    with that handle, and fatal reports against it. *)
Definition resolve_event (t : testing.T) (ev : Event Instance V) : Prop :=
  match ev with
  | EvConstruct _ t' _ _ => t' = t
  | EvFatalf t' _ => t' = t
  | _ => False
  end.

(** The events after which the goroutine of [RunSubTests] can be gone: a
    fatal report against its handle, or a [Construct], [Destruct], [Setup]
    or [Teardown] called with its handle that ended in
    [runtime.Goexit]. *)
Definition stop_event (t : testing.T) (ev : Event Instance V) : Prop :=
  match ev with
  | EvFatalf t' _ => t' = t
  | EvConstruct _ t' _ Goexit => t' = t
  | EvDestruct _ t' _ Goexit => t' = t
  | EvSetup t' Goexit => t' = t
  | EvTeardown t' Goexit => t' = t
  | _ => False
  end.

(** Whenever [m] ends in [runtime.Goexit], the last thing seen is such an
    event. *)
Definition stops_at (t : testing.T) {A : Type}
    (m : M (Instance := Instance) (W := W) (V := V) A) : Prop :=
  forall st st' evs,
    m st = (Goexit, st', evs) -> exists evs' ev, evs = evs' ++ [ev] /\ stop_event t ev.

(** Whenever [m] ends in [runtime.Goexit], the last thing seen is such an
    event, or the sub-unit [name] of [t] has been started. *)
Definition stops_or_runs (t : testing.T) (name : string) {A : Type}
    (m : M (Instance := Instance) (W := W) (V := V) A) : Prop :=
  forall st st' evs,
    m st = (Goexit, st', evs) ->
    (exists evs' ev, evs = evs' ++ [ev] /\ stop_event t ev)
    \/ In (EvRun t name) evs.

(** Such an event is seen only when [m] ends in [runtime.Goexit], and then
    once, as the last event. *)
Definition ends_on_stop (t : testing.T) {A : Type}
    (m : M (Instance := Instance) (W := W) (V := V) A) : Prop :=
  forall st r st' evs,
    m st = (r, st', evs) ->
    Forall (fun ev => ~ stop_event t ev) evs
    \/ (r = Goexit
        /\ exists evs' ev,
             evs = evs' ++ [ev]
             /\ Forall (fun ev' => ~ stop_event t ev') evs' /\ stop_event t ev).

(** The events inside the sub-unit [name] of [t] after [BeforeEach]: the
    test method and [AfterEach] on the sub-unit's handle, [Destruct] on
    the handle of the group. *)
Definition subunit_event (t : testing.T) (name methodName : string)
    (ev : Event Instance V) : Prop :=
  match ev with
  | EvTest m t' _ _ => m = methodName /\ t' = testing.Sub t name
  | EvDestruct _ t' _ _ => t' = t
  | EvAfterEach t' _ => t' = testing.Sub t name
  | _ => False
  end.

(** The names of the sub-units [RunSubTests] is to start for a list of
    methods: those with the prefix, stripped of it, in the order of the
    list. *)
Definition subtest_names (methods : list Method) : list string :=
  map (fun method => TrimPrefix (reflect.MethodName method) testMethodPrefix)
      (List.filter (fun method => HasPrefix (reflect.MethodName method) testMethodPrefix)
                   methods).

(** What the loop lets an observer see: no [Setup], no [Teardown], and a
    test method only if it is one of the list, has the prefix and is given
    the handle of the sub-unit named after it. *)
Definition case_event (t : testing.T) (methods : list Method)
    (ev : Event Instance V) : Prop :=
  match ev with
  | EvSetup _ _ | EvTeardown _ _ => False
  | EvTest m t' _ _ =>
      HasPrefix m testMethodPrefix = true
      /\ In m (map reflect.MethodName methods)
      /\ t' = testing.Sub t (TrimPrefix m testMethodPrefix)
  | _ => True
  end.

(** The events that are the case body, a clean-up action or [AfterEach]. *)
Definition body_cleanup_or_AfterEach (ev : Event Instance V) : bool :=
  match ev with
  | EvTest _ _ _ _ | EvDestruct _ _ _ _ | EvAfterEach _ _ => true
  | _ => false
  end.

(** The kind of an event, for reading a run at a glance. *)
Definition label (ev : Event Instance V) : string :=
  match ev with
  | EvSetup _ _ => "Setup"
  | EvTeardown _ _ => "Teardown"
  | EvBeforeEach _ _ => "BeforeEach"
  | EvAfterEach _ _ => "AfterEach"
  | EvConstruct _ _ _ _ => "Construct"
  | EvDestruct _ _ _ _ => "Destruct"
  | EvTest _ _ _ _ => "Test"
  | EvRun _ _ => "Run"
  | EvRunEnd _ _ => "RunEnd"
  | EvFatalf _ _ => "Fatalf"
  end.

(** [m2] does what [m1] does, wherever [m1] does not run out of fuel. *)
Definition extends {A : Type}
    (m1 m2 : M (Instance := Instance) (W := W) (V := V) A) : Prop :=
  forall st r st' evs, m1 st = (r, st', evs) -> r <> OutOfFuel -> m2 st = (r, st', evs).

(** The test methods called, in order. *)
Definition tests (evs : list (Event Instance V)) : list string :=
  omap (fun ev => match ev with EvTest m _ _ _ => Some m | _ => None end) evs.

(** The contexts [Construct] returned and the contexts [Destruct] was
    given, each with its instance, in order. *)
Definition construct_log (evs : list (Event Instance V)) : list (Instance * V) :=
  omap (fun ev => match ev with
                  | EvConstruct f _ _ (Ret (_ :: ctx :: _)) => Some (f, ctx)
                  | _ => None
                  end) evs.

Definition destruct_log (evs : list (Event Instance V)) : list (Instance * V) :=
  omap (fun ev => match ev with
                  | EvDestruct f _ ctx _ => Some (f, ctx)
                  | _ => None
                  end) evs.

(** A call made inside a sub-unit before [AfterEach] -- [BeforeEach], the
    test method, a [Destruct] -- returned. *)
Definition inside_returned (ev : Event Instance V) : bool :=
  match ev with
  | EvBeforeEach _ r | EvTest _ _ _ r | EvDestruct _ _ _ r => returned r
  | _ => true
  end.

(** The fixtures below a fixtures struct depend on each other at most [n]
    levels deep: the struct is level one, the structs the [Construct]s of
    its fixtures ask for are level two, and so on. *)
Fixpoint bounded (n : nat) (fixturesType : Type_) : bool :=
  match n with
  | O => false
  | S n' =>
      forallb (fun field =>
                 match entry_of field with
                 | None => true
                 | Some fentry =>
                     match Construct_fixtures (Instance_ fentry) with
                     | None => true
                     | Some shape => bounded n' shape
                     end
                 end)
              (reflect.Fields fixturesType)
  end.

(** [m] does not fail for lack of depth. *)
Definition finishes {A : Type}
    (m : M (Instance := Instance) (W := W) (V := V) A) : Prop :=
  forall st r st' evs, m st = (r, st', evs) -> r <> OutOfFuel.

End Observations.

(** The signatures [RunSubTests] takes a test method with: after the
    receiver a [*testing.T], and then nothing or a struct. *)
Definition valid_signature (method : Method) : bool :=
  match reflect.MethodIns method with
  | [_; arg1] => bool_decide (reflect.TypeString arg1 = "*testing.T")
  | [_; arg1; fixturesType] =>
      bool_decide (reflect.TypeString arg1 = "*testing.T")
      && bool_decide (reflect.TypeKind fixturesType = reflect.Struct)
  | _ => false
  end.

(** The shape the specification asks of [Destruct], in its words: the
    operation exists, accepts exactly an execution handle and an opaque
    context, and returns nothing. *)
Definition destruct_contract_of_spec (fType : Type_) : bool :=
  match reflect.MethodByName fType "Destruct" with
  | None => false
  | Some destructMethod =>
      match reflect.MethodIns destructMethod with
      | [_; arg1; arg2] =>
          bool_decide (reflect.TypeString arg1 = "*testing.T")
          && bool_decide (reflect.TypeString arg2 = "interface {}")
          && bool_decide (reflect.MethodOuts destructMethod = [])
      | _ => false
      end
  end.

(** ** A concrete program: the fixtures and groups of the package's tests *)

Module Demo.

(** The double quote, and the tag [fixture:"name"] of a struct field. *)
Definition dq : string := String (Ascii.ascii_of_nat 34) "".

Definition fixture_tag (name : string) : string :=
  ("fixture:" ++ dq ++ name ++ dq)%string.

(** A stand-in for [structtag.Parse] that reads the one-key tags used
    here, [key:"value"]; the empty tag has no keys. *)
Definition Parse (tag : string) : option (list Tag) :=
  if bool_decide (tag = "") then Some []
  else
    match String.index 0 ":" tag with
    | None => None
    | Some i =>
        let key := String.substring 0 i tag in
        let rest := String.substring (S i) (String.length tag - S i) tag in
        let n := String.length rest in
        if (2 <=? n)%nat
           && bool_decide (String.substring 0 1 rest = dq)
           && bool_decide (String.substring (n - 1) 1 rest = dq)
        then Some [mkTag key (String.substring 1 (n - 2) rest) []]
        else None
    end.

(** Types of the test files. *)
Definition emptyStruct : Type_ := MkType "struct {}" reflect.Struct [] [].
Definition stringT : Type_ := MkType "string" reflect.String [] [].
Definition intT : Type_ := MkType "int" reflect.Int [] [].
Definition errorT : Type_ := MkType "error" reflect.Interface [] [].
Definition iface : Type_ := MkType "interface {}" reflect.Interface [] [].
Definition MockUserT : Type_ := MkType "gtest_test.MockUser" reflect.Struct [] [].
Definition MockCommentT : Type_ := MkType "gtest_test.MockComment" reflect.Struct [] [].

(** A struct type with the given exported fields, each a name, a type and
    the fixture it is tagged with. *)
Definition fixturesStruct (fs : list (string * Type_ * string)) : Type_ :=
  MkType "struct {...}" reflect.Struct
         (map (fun f => MkField f.1.1 "" f.1.2 (fixture_tag f.2)) fs) [].

(** A fixture type with a [Construct] taking [fixtures] and returning a
    [value] and a [ctx], and a [Destruct] with the given parameters after
    the receiver and the given results. *)
Definition fixtureType (name : string) (fixtures value ctx : Type_)
    (destructIns destructOuts : list Type_) : Type_ :=
  let recv := MkType name reflect.Pointer [] [] in
  MkType name reflect.Pointer []
    [MkMethod "Construct" [recv; testing_T; fixtures] [value; ctx];
     MkMethod "Destruct" (recv :: destructIns) destructOuts].

Definition UserIdFixture : Type_ :=
  fixtureType "*gtest_test.UserIdFixture" emptyStruct stringT iface
              [testing_T; iface] [].
Definition MockUserFixture : Type_ :=
  fixtureType "*gtest_test.MockUserFixture"
              (fixturesStruct [("UserId", stringT, "UserId")]) MockUserT iface
              [testing_T; iface] [].
Definition MockCommentFixture : Type_ :=
  fixtureType "*gtest_test.MockCommentFixture"
              (fixturesStruct [("User", MockUserT, "MockUser")]) MockCommentT iface
              [testing_T; iface] [].
Definition TmpDirFixture : Type_ :=
  fixtureType "*gtest_test.TmpDirFixture" emptyStruct stringT stringT
              [testing_T; iface] [].

(** [InvalidFixtureMissingDestruct] and [InvalidFixtureDestructInput] of
    the test file, and a fixture whose [Destruct] has the two parameters
    asked for and returns an [error]. *)
Definition InvalidFixtureMissingDestruct : Type_ :=
  MkType "gtest_test.InvalidFixtureMissingDestruct" reflect.Struct []
    [MkMethod "Construct"
       [MkType "gtest_test.InvalidFixtureMissingDestruct" reflect.Struct [] [];
        testing_T; emptyStruct] [stringT; iface]].
Definition InvalidFixtureDestructInput : Type_ :=
  fixtureType "gtest_test.InvalidFixtureDestructInput" emptyStruct stringT iface
              [stringT] [].
Definition FixtureDestructReturnsError : Type_ :=
  fixtureType "*gtest_test.FixtureDestructReturnsError" emptyStruct stringT iface
              [testing_T; iface] [errorT].

(** A fixture whose [Construct] gives up with [t.Fatal]. *)
Definition BrokenFixture : Type_ :=
  fixtureType "*gtest_test.BrokenFixture" emptyStruct stringT iface
              [testing_T; iface] [].

(** Instances are numbered. *)
Definition Instance : Type := nat.

Definition TypeOf (f : Instance) : Type_ :=
  match f with
  | 1%nat => UserIdFixture
  | 2%nat => MockUserFixture
  | 3%nat => MockCommentFixture
  | 4%nat => TmpDirFixture
  | 5%nat => InvalidFixtureMissingDestruct
  | 6%nat => InvalidFixtureDestructInput
  | 7%nat => FixtureDestructReturnsError
  | 8%nat => BrokenFixture
  | _ => emptyStruct
  end.

(** Identical types, and everything into [interface {}]. *)
Definition AssignableTo (x target : Type_) : bool :=
  bool_decide (reflect.TypeString x = reflect.TypeString target)
  || bool_decide (reflect.TypeString target = "interface {}").

(** Values handed to tests. *)
Inductive Val : Type :=
| Nil
| Str (prefix : string) (n : nat)
| MockUser (Id : Val)
| MockComment (Creator : Val).

(** The world: the counter of [UserIdFixture], the number of temporary
    directories made so far, and how many fixture values are allocated. *)
Record World : Type := mkWorld {
  Count : nat;
  Dirs : nat;
  AllocatedCount : Z;
}.

Definition Construct (f : Instance) (t : testing.T) (fixtures : gmap string Val)
    (w : World) : Result (list Val) * World :=
  match f with
  | 1%nat =>
      (Ret [Str "user_" (S (Count w)); Nil],
       mkWorld (S (Count w)) (Dirs w) (AllocatedCount w + 1))
  | 2%nat =>
      (Ret [MockUser (default Nil (fixtures !! "UserId")); Nil],
       mkWorld (Count w) (Dirs w) (AllocatedCount w + 1))
  | 3%nat =>
      (Ret [MockComment (default Nil (fixtures !! "User")); Nil],
       mkWorld (Count w) (Dirs w) (AllocatedCount w + 1))
  | 4%nat =>
      (Ret [Str "/tmp/gtest" (S (Dirs w)); Str "/tmp/gtest" (S (Dirs w))],
       mkWorld (Count w) (S (Dirs w)) (AllocatedCount w + 1))
  | 8%nat => (Goexit, w)
  | _ => (Ret [Nil; Nil], w)
  end.

Definition Destruct (f : Instance) (t : testing.T) (ctx : Val) (w : World)
  : Result unit * World :=
  (Ret tt, mkWorld (Count w) (Dirs w) (AllocatedCount w - 1)).

(** The registry after the [init] of the test file; [TmpDir2] is a second
    name for the instance registered as [TmpDir], and [Broken] is the
    fixture that gives up. *)
Definition registry : gmap string (FixtureEntry Instance) :=
  foldl (fun reg r => (RegisterFixture TypeOf r.1.1 r.1.2 r.2 reg).2) ∅
        [("UserId", 1%nat, ScopeCall);
         ("MockUser", 2%nat, ScopeCall);
         ("MockComment", 3%nat, ScopeCall);
         ("TmpDir", 4%nat, ScopeSubTest);
         ("TmpDir2", 4%nat, ScopeSubTest);
         ("Broken", 8%nat, ScopeCall)].

Definition rt : Runtime Instance World Val :=
  Build_Runtime Instance _ _ World Val
                TypeOf AssignableTo Parse Construct Destruct registry.

(** The same program before any fixture is registered. *)
Definition rt_empty : Runtime Instance World Val :=
  Build_Runtime Instance _ _ World Val
                TypeOf AssignableTo Parse Construct Destruct ∅.

(** A method of a test group on [*GTestTests] with the given parameters
    after the receiver. *)
Definition groupRecv : Type_ := MkType "*gtest_test.GTestTests" reflect.Pointer [] [].

Definition groupMethod (name : string) (params : list Type_) : Method :=
  MkMethod name (groupRecv :: params) [].

Definition hooks : list Method :=
  [groupMethod "AfterEach" [testing_T]; groupMethod "BeforeEach" [testing_T];
   groupMethod "Setup" [testing_T]].

Definition groupType (tests : list Method) : Type_ :=
  MkType "*gtest_test.GTestTests" reflect.Pointer []
         (hooks ++ tests ++ [groupMethod "Teardown" [testing_T]]).

Definition nop (t : testing.T) (w : World) : Result unit * World := (Ret tt, w).

(** A group whose hooks do nothing and whose test methods end as [body]
    says. *)
Definition group (tests : list Method) (body : string -> Result unit) : GTest World Val :=
  mkGTest (groupType tests) nop nop nop nop
          (fun methodName t fixtures w => (body methodName, w)).

Definition passes (methodName : string) : Result unit := Ret tt.

(** [SubTestFailNow] calls [t.FailNow]; the other methods return. *)
Definition fails_now (methodName : string) : Result unit :=
  if bool_decide (methodName = "SubTestFailNow") then Goexit else Ret tt.

Definition threeUserIds : Type_ :=
  fixturesStruct [("UserId1", stringT, "UserId"); ("UserId2", stringT, "UserId");
                  ("UserId3", stringT, "UserId")].
Definition oneComment : Type_ :=
  fixturesStruct [("Comment", MockCommentT, "MockComment")].
Definition threeDirs : Type_ :=
  fixturesStruct [("Dir1", stringT, "TmpDir"); ("Dir2", stringT, "TmpDir2");
                  ("Dir3", stringT, "TmpDir")].
Definition dirAndUser : Type_ :=
  fixturesStruct [("Dir", stringT, "TmpDir"); ("UserId", stringT, "UserId")].
Definition missing : Type_ :=
  fixturesStruct [("Dir", stringT, "TmpDir"); ("Srv", stringT, "MockApiServer")].

(** The group of [gtest_test.go], cut down to the methods that matter. *)
Definition GTestTests : GTest World Val :=
  group [groupMethod "SubTestCallScopedStringFixture" [testing_T; threeUserIds];
         groupMethod "SubTestNestedFixture" [testing_T; oneComment];
         groupMethod "SubTestRunTest" [testing_T];
         groupMethod "SubTestSubTestScopedFixture" [testing_T; threeDirs]]
        passes.

(** A group whose first case stops with [t.FailNow]. *)
Definition FailingTests : GTest World Val :=
  group [groupMethod "SubTestFailNow" [testing_T; dirAndUser];
         groupMethod "SubTestRunTest" [testing_T]]
        fails_now.

(** A group whose first case asks for a fixture nobody registered. *)
Definition MissingFixtureTests : GTest World Val :=
  group [groupMethod "SubTestApi" [testing_T; missing];
         groupMethod "SubTestRunTest" [testing_T]]
        passes.

(** A group whose first case needs the fixture that gives up. *)
Definition BrokenFixtureTests : GTest World Val :=
  group [groupMethod "SubTestBroken"
           [testing_T; fixturesStruct [("X", stringT, "Broken")]];
         groupMethod "SubTestRunTest" [testing_T]]
        passes.

Definition st0 : State (Instance := Instance) (W := World) (V := Val) :=
  mkState (mkWorld 0 0 0) ∅ [].

End Demo.

(** ** More programs: fixtures and groups at the edges *)

Module Cases.

(** A fixture whose [Construct] asks for the fixture itself. *)
Definition SelfFixture : Type_ :=
  Demo.fixtureType "*gtest_test.SelfFixture"
    (Demo.fixturesStruct [("Me", Demo.stringT, "Self")]) Demo.stringT Demo.iface
    [testing_T; Demo.iface] [].

Definition TypeOf (f : Demo.Instance) : Type_ :=
  match f with
  | 9%nat => SelfFixture
  | _ => Demo.TypeOf f
  end.

(** [UserId] under a scope that is neither of the two constants, the
    fixture that asks for itself, and [TmpDir]. *)
Definition calls : list (string * Demo.Instance * FixtureScope) :=
  [("UserId", 1%nat, "session"); ("Self", 9%nat, ScopeCall);
   ("TmpDir", 4%nat, ScopeSubTest)].

Definition registry : gmap string (FixtureEntry Demo.Instance) :=
  (init TypeOf calls ∅).2.

Definition rt : Runtime Demo.Instance Demo.World Demo.Val :=
  Build_Runtime Demo.Instance _ _ Demo.World Demo.Val
                TypeOf Demo.AssignableTo Demo.Parse Demo.Construct Demo.Destruct
                registry.

Definition twoUserIds : Type_ :=
  Demo.fixturesStruct [("A", Demo.stringT, "UserId"); ("B", Demo.stringT, "UserId")].

Definition needsSelf : Type_ :=
  Demo.fixturesStruct [("Me", Demo.stringT, "Self")].

(** A fixtures struct whose second field is not exported. *)
Definition unexported : Type_ :=
  MkType "struct {...}" reflect.Struct
         [MkField "Dir" "" Demo.stringT (Demo.fixture_tag "TmpDir");
          MkField "id" "gtest_test" Demo.stringT (Demo.fixture_tag "UserId")] [].

(** A group with the four hooks and no test method. *)
Definition NoTests : GTest Demo.World Demo.Val := Demo.group [] Demo.passes.

(** Test methods with signatures [RunSubTests] refuses. *)
Definition noParameter : Method := Demo.groupMethod "SubTestNothing" [].
Definition firstParameter : Method :=
  Demo.groupMethod "SubTestWrongFirst" [Demo.stringT].
Definition tooManyParameters : Method :=
  Demo.groupMethod "SubTestThree" [testing_T; Demo.emptyStruct; Demo.intT].
Definition notStruct : Method :=
  Demo.groupMethod "SubTestInt" [testing_T; Demo.intT].

(** The fixtures of the test files, with a [Destruct] of [TmpDirFixture]
    that gives up with [t.Fatal] on the handle it is given. *)
Definition Destruct_gives_up (f : Demo.Instance) (t : testing.T) (ctx : Demo.Val)
    (w : Demo.World) : Result unit * Demo.World :=
  match f with
  | 4%nat => (Goexit, w)
  | _ => Demo.Destruct f t ctx w
  end.

Definition rt_Destruct_gives_up : Runtime Demo.Instance Demo.World Demo.Val :=
  Build_Runtime Demo.Instance _ _ Demo.World Demo.Val
                Demo.TypeOf Demo.AssignableTo Demo.Parse Demo.Construct
                Destruct_gives_up Demo.registry.

(** A group whose first case takes a temporary directory. *)
Definition DirTests : GTest Demo.World Demo.Val :=
  Demo.group [Demo.groupMethod "SubTestDir" [testing_T; Demo.threeDirs];
              Demo.groupMethod "SubTestRunTest" [testing_T]]
             Demo.passes.

(** A state in which the resolver's map holds a value for [TmpDir]. *)
Definition st_cached : State (Instance := Demo.Instance) (W := Demo.World) (V := Demo.Val) :=
  mkState (Demo.mkWorld 0 7 1)
          {[ 4%nat := mkValue Demo.stringT (Demo.Str "/tmp/gtest" 7) ]}
          [mkCleanup 4%nat testing.Main (mkValue Demo.stringT (Demo.Str "/tmp/gtest" 7))].

End Cases.

(** ** Proofs *)

Section Proofs.

Context {Instance : Type} `{Countable Instance} {W V : Type}.
Context {rt : Runtime Instance W V}.

Implicit Types (st : State (Instance := Instance) (W := W) (V := V)).
Implicit Types (evs : list (Event Instance V)) (ev : Event Instance V).

Local Abbreviation stops_at := (@stops_at Instance _ _ W V).
Local Abbreviation stops_or_runs := (@stops_or_runs Instance _ _ W V).
Local Abbreviation ends_on_stop := (@ends_on_stop Instance _ _ W V).
Local Abbreviation extends := (@extends Instance _ _ W V _).

Lemma bind_inv {A B : Type} (m : M A) (k : A -> M B) st r st' evs :
  bind m k st = (r, st', evs) ->
  (exists a st1 evs1 evs2,
      m st = (Ret a, st1, evs1) /\ k a st1 = (r, st', evs2) /\ evs = evs1 ++ evs2)
  \/ (exists r0, m st = (r0, st', evs) /\ returned r0 = false /\ r = abort r0).
Proof.
  unfold bind. destruct (m st) as [[r0 st1] evs1] eqn:Hm.
  destruct r0 as [a| | |].
  - destruct (k a st1) as [[r1 st2] evs2] eqn:Hk. intros [= <- <- <-].
    left. eauto 10.
  - intros [= <- <- <-]. right. eauto.
  - intros [= <- <- <-]. right. eauto.
  - intros [= <- <- <-]. right. eauto.
Qed.

Lemma bind_Ret_inv {A B : Type} (m : M A) (k : A -> M B) st b st' evs :
  bind m k st = (Ret b, st', evs) ->
  exists a st1 evs1 evs2,
    m st = (Ret a, st1, evs1) /\ k a st1 = (Ret b, st', evs2) /\ evs = evs1 ++ evs2.
Proof.
  intros Hb. apply bind_inv in Hb as [Hb | (r0 & _ & Hr & Ha)]; [done |].
  destruct r0; done.
Qed.


Ltac bind_Ret H :=
  let a := fresh "a" in let st1 := fresh "st1" in
  let evs1 := fresh "evs1" in let evs2 := fresh "evs2" in
  let H1 := fresh "Hm" in let H2 := fresh "Hk" in let He := fresh "Hevs" in
  apply bind_Ret_inv in H as (a & st1 & evs1 & evs2 & H1 & H2 & He).

Lemma construct_Ret_inv rec t fentry st valVal st' evs :
  construct rec t fentry st = (Ret valVal, st', evs) ->
  let f := Instance_ fentry in
  exists constructMethod in2 fixtures st1 evs1 rets w ctxVal rest,
    reflect.MethodByName (TypeOf f) "Construct" = Some constructMethod
    /\ reflect.In_ constructMethod 2 = Some in2
    /\ rec t in2 (reflect.TypeString (TypeOf f) ++ ".Construct")%string st
       = (Ret fixtures, st1, evs1)
    /\ Construct f t fixtures (world st1) = (Ret rets, w)
    /\ zip_with mkValue (reflect.MethodOuts constructMethod) rets
       = valVal :: ctxVal :: rest
    /\ evs = evs1 ++ [EvConstruct f t fixtures (Ret rets)]
    /\ st' = mkState w
               (if decide (Scope fentry = ScopeSubTest)
                then <[f := valVal]> (Resolved st1) else Resolved st1)
               (cleanUpCbs st1 ++ [mkCleanup f t ctxVal]).
Proof.
  intros Hc f. unfold construct in Hc. fold f in Hc.
  destruct (reflect.MethodByName (TypeOf f) "Construct") as [m|] eqn:Hmeth; [|done].
  destruct (reflect.In_ m 2) as [in2|] eqn:Hin2; [|done].
  bind_Ret Hc.
  destruct (negb _); [done|].
  bind_Ret Hk.
  unfold call in Hm0. destruct (Construct f t a (world st1)) as [r w] eqn:HC.
  destruct (zip_with mkValue _ _) as [|valVal' [|ctxVal rest]] eqn:Hz; [done|done|].
  bind_Ret Hk0. bind_Ret Hk.
  unfold append_cleanUpCbs, ret in *.
  exists m, in2, a, st1, evs1, a0, w, ctxVal, rest.
  destruct (decide _); unfold set_Resolved, ret in *; simplify_eq/=;
    by rewrite ?app_nil_r.
Qed.


Lemma resolve_field_Ret_inv rec t fixturesType caller field fixturesVal st sv st' evs :
  resolve_field rec t fixturesType caller field fixturesVal st = (Ret sv, st', evs) ->
  exists fentry valVal,
    entry_of field = Some fentry
    /\ sv = <[reflect.FieldName field := data valVal]> fixturesVal
    /\ ((Scope fentry = ScopeSubTest
         /\ Resolved st !! Instance_ fentry = Some valVal
         /\ st' = st /\ evs = [])
        \/ ((Scope fentry = ScopeSubTest -> Resolved st !! Instance_ fentry = None)
            /\ construct rec t fentry st = (Ret valVal, st', evs))).
Proof.
  unfold resolve_field, entry_of.
  destruct (structtag_Parse _) as [tags|]; [|done].
  destruct (Get tags "fixture") as [tg|]; [|done].
  destruct (registeredFixtures !! Name tg) as [fentry|]; [|done].
  intros Hb. bind_Ret Hb. bind_Ret Hk.
  exists fentry, a0.
  destruct (reflect.FieldByName _ _) as [fld|]; [|done].
  destruct (reflect.CanSet fld); [|done].
  destruct (AssignableTo _ _); [|done].
  unfold ret in Hk0. simplify_eq. rewrite app_nil_r.
  split; [done|]. split; [done|].
  destruct (decide (Scope fentry = ScopeSubTest)) as [Hs|Hs].
  - unfold get_Resolved in Hm. simplify_eq.
    destruct (Resolved st1 !! Instance_ fentry) as [v|] eqn:Hres.
    + left. unfold ret in Hm0. by simplify_eq.
    + right. done.
  - unfold ret in Hm. simplify_eq. right. done.
Qed.

Lemma constructs_app f evs1 evs2 :
  constructs f (evs1 ++ evs2) = (constructs f evs1 + constructs f evs2)%nat.
Proof. unfold constructs. by rewrite List.filter_app, length_app. Qed.

Lemma constructs_cons f ev evs :
  constructs f (ev :: evs)
  = ((if is_Construct_of f ev then 1 else 0) + constructs f evs)%nat.
Proof. unfold constructs. simpl. by destruct (is_Construct_of f ev). Qed.

Lemma constructs_pos_In f evs :
  (0 < constructs f evs)%nat <->
  exists t fixtures r, In (EvConstruct f t fixtures r) evs.
Proof.
  induction evs as [|ev evs IH]; simpl.
  - split; [unfold constructs; simpl; lia | by intros (?&?&?&[])].
  - rewrite constructs_cons. split.
    + destruct (is_Construct_of f ev) eqn:Hev.
      * intros _. destruct ev; try done. simpl in Hev.
        apply bool_decide_eq_true in Hev as ->. eauto.
      * intros Hp. apply IH in Hp as (t & fx & r & Hin). eauto 6.
    + intros (t & fx & r & [-> | Hin]).
      * simpl. rewrite bool_decide_eq_true_2 by done. lia.
      * assert (0 < constructs f evs)%nat by (apply IH; eauto). lia.
Qed.

(** *** Structure of a successful resolution *)

(** The resolver's map only grows, and only by building. *)
Lemma Resolving_grows t fields fixturesVal st sv st' evs g :
  Resolving t fields fixturesVal st sv st' evs ->
  is_Some (Resolved st' !! g) ->
  is_Some (Resolved st !! g) \/ (0 < constructs g evs)%nat.
Proof.
  induction 1 as [| |field fields fixturesVal st fentry m ty fx st1 evs1 rets w
                    valVal ctxVal rest sv st' evs2 Hentry Hmiss Hm Hin2 D1 IH1 Hno
                    HC Hz D2 IH2]; intros Hsome; [by left|auto|].
  rewrite constructs_app, constructs_cons; simpl.
  destruct (IH2 Hsome) as [Hs2|Hc2]; [|right; lia].
  simpl in Hs2. destruct (decide (Instance_ fentry = g)) as [->|Hne].
  { right. rewrite bool_decide_eq_true_2 by done. lia. }
  assert (is_Some (Resolved st1 !! g)) as Hs1.
  { destruct (decide _); [by rewrite lookup_insert_ne in Hs2|done]. }
  destruct (IH1 Hs1); [by left|right; lia].
Qed.

(** Every field is served: from the map, or by building. *)
Lemma Resolving_served t fields fixturesVal st sv st' evs field fentry :
  Resolving t fields fixturesVal st sv st' evs ->
  In field fields ->
  entry_of field = Some fentry ->
  (0 < constructs (Instance_ fentry) evs)%nat
  \/ (Scope fentry = ScopeSubTest /\ is_Some (Resolved st !! Instance_ fentry)).
Proof.
  induction 1 as [|fld fields fixturesVal st fentry' valVal sv st' evs Hentry Hs Hhit D IH
                  |fld fields fixturesVal st fentry' m ty fx st1 evs1 rets w
                    valVal ctxVal rest sv st' evs2 Hentry Hmiss Hm Hin2 D1 IH1 Hno
                    HC Hz D2 IH2]; intros Hin He; [done| |].
  - destruct Hin as [->|Hin]; [|by apply IH].
    right. rewrite Hentry in He. simplify_eq. eauto.
  - rewrite constructs_app, constructs_cons; simpl.
    destruct Hin as [->|Hin].
    { left. rewrite Hentry in He. simplify_eq.
      rewrite bool_decide_eq_true_2 by done. lia. }
    destruct (IH2 Hin He) as [Hc|[Hsc Hs2]]; [left; lia|].
    simpl in Hs2.
    destruct (decide (Instance_ fentry' = Instance_ fentry)) as [Heq|Hne].
    { left. rewrite bool_decide_eq_true_2 by done. lia. }
    assert (is_Some (Resolved st1 !! Instance_ fentry)) as Hs1.
    { destruct (decide _); [by rewrite lookup_insert_ne in Hs2|done]. }
    destruct (Resolving_grows _ _ _ _ _ _ _ _ D1 Hs1); [right; eauto|left; lia].
Qed.

(** Every [Construct] call follows the resolution of the fixtures it is
    given. *)
Lemma Resolving_nested t fields fixturesVal st sv st' evs g t' fixtures r :
  Resolving t fields fixturesVal st sv st' evs ->
  In (EvConstruct g t' fixtures r) evs ->
  exists fixturesType pre evs_in post st_in st_in',
    Construct_fixtures g = Some fixturesType
    /\ evs = pre ++ evs_in ++ EvConstruct g t' fixtures r :: post
    /\ Resolving t (reflect.Fields fixturesType) ∅ st_in fixtures st_in' evs_in
    /\ constructs g evs_in = 0%nat
    /\ (forall x, is_Some (Resolved st_in !! x) ->
                  is_Some (Resolved st !! x) \/ (0 < constructs x pre)%nat).
Proof.
  induction 1 as [|fld fields fixturesVal st fentry' valVal sv st' evs Hentry Hs Hhit D IH
                  |fld fields fixturesVal st fentry' m ty fx st1 evs1 rets w
                    valVal ctxVal rest sv st' evs2 Hentry Hmiss Hm Hin2 D1 IH1 Hno
                    HC Hz D2 IH2]; intros Hin; [done|auto|].
  apply in_app_iff in Hin as [Hin|[Hin|Hin]].
  - destruct (IH1 Hin) as (ty' & pre & evs_in & post & st_in & st_in' & ? & -> & ? & ? & ?).
    exists ty', pre, evs_in, (post ++ EvConstruct (Instance_ fentry') t fx (Ret rets) :: evs2),
      st_in, st_in'.
    split_and!; try done. by rewrite <- !app_assoc.
  - simplify_eq. exists ty, [], evs1, evs2, st, st1.
    split_and!; try done; [|by left].
    unfold Construct_fixtures. by rewrite Hm.
  - destruct (IH2 Hin) as (ty' & pre & evs_in & post & st_in & st_in' & ? & -> & ? & ? & Hg).
    exists ty', (evs1 ++ EvConstruct (Instance_ fentry') t fx (Ret rets) :: pre),
      evs_in, post, st_in, st_in'.
    split_and!; try done. { by rewrite <- !app_assoc. }
    intros x Hx. rewrite constructs_app, constructs_cons; simpl.
    destruct (Hg x Hx) as [Hs2|Hc]; [|right; lia]. simpl in Hs2.
    destruct (decide (Instance_ fentry' = x)) as [->|Hne].
    { right. rewrite bool_decide_eq_true_2 by done. lia. }
    assert (is_Some (Resolved st1 !! x)) as Hs1.
    { destruct (decide _); [by rewrite lookup_insert_ne in Hs2|done]. }
    destruct (Resolving_grows _ _ _ _ _ _ _ _ D1 Hs1); [by left|right; lia].
Qed.


(** While the fixtures of an instance are resolved, [Construct] is not
    entered for that instance. *)
Lemma Resolving_not_reentered t g fixturesType fields fixturesVal st sv st' evs :
  Construct_fixtures g = Some fixturesType ->
  Resolving t fields fixturesVal st sv st' evs ->
  (forall field, In field fields -> In field (reflect.Fields fixturesType)) ->
  constructs g evs = 0%nat.
Proof.
  intros Hg.
  induction 1 as [|fld fields fixturesVal st fentry' valVal sv st' evs Hentry Hs Hhit D IH
                  |fld fields fixturesVal st fentry' m ty fx st1 evs1 rets w
                    valVal ctxVal rest sv st' evs2 Hentry Hmiss Hm Hin2 D1 IH1 Hno
                    HC Hz D2 IH2]; intros Hsub; [done| |].
  { apply IH. intros ? ?. apply Hsub. by right. }
  assert (In fld (reflect.Fields fixturesType)) as Hfld by (apply Hsub; by left).
  rewrite constructs_app, constructs_cons, IH2
    by (intros ? ?; apply Hsub; by right).
  assert (Instance_ fentry' <> g) as Hne.
  { intros <-.
    assert (ty = fixturesType) as ->.
    { unfold Construct_fixtures in Hg. rewrite Hm in Hg. congruence. }
    destruct (Resolving_served _ _ _ _ _ _ _ _ _ D1 Hfld Hentry) as [Hc|[Hsc Hsome]].
    - lia.
    - rewrite (Hmiss Hsc) in Hsome. by destruct Hsome. }
  simpl. rewrite bool_decide_eq_false_2 by done.
  destruct (constructs g evs1) as [|n] eqn:Hc1; [done|]. exfalso.
  assert (0 < constructs g evs1)%nat as Hpos by lia.
  apply constructs_pos_In in Hpos as (t' & fx' & r' & Hin).
  destruct (Resolving_nested _ _ _ _ _ _ _ _ _ _ _ D1 Hin)
    as (ty' & pre & evs_in & post & st_in & st_in' & Hg' & Hevs & Din & _ & Hgrow).
  assert (ty' = fixturesType) as -> by congruence.
  assert (constructs (Instance_ fentry') evs_in = 0
          /\ constructs (Instance_ fentry') pre = 0)%nat as [Hin0 Hpre0].
  { rewrite Hevs, !constructs_app in Hno. lia. }
  destruct (Resolving_served _ _ _ _ _ _ _ _ _ Din Hfld Hentry) as [Hc|[Hsc Hsome]].
  - lia.
  - destruct (Hgrow _ Hsome) as [Hsome'|Hc]; [|lia].
    rewrite (Hmiss Hsc) in Hsome'. by destruct Hsome'.
Qed.

(** A resolution that returns is one of [Resolving]. *)
Lemma resolve_Resolving fuel t fixturesType caller st sv st' evs :
  resolve fuel t fixturesType caller st = (Ret sv, st', evs) ->
  reflect.TypeKind fixturesType = reflect.Struct
  /\ Resolving t (reflect.Fields fixturesType) ∅ st sv st' evs.
Proof.
  revert t fixturesType caller st sv st' evs.
  induction fuel as [|fuel IH]; intros t ty caller st sv st' evs; [done|].
  simpl. destruct (bool_decide (reflect.TypeKind ty = reflect.Struct)) eqn:Hk; [|done].
  apply bool_decide_eq_true in Hk. simpl. intros Hfor. split; [done|].
  revert Hfor. generalize (∅ : gmap string V) as sv0.
  revert st evs. generalize (reflect.Fields ty) as fields.
  induction fields as [|field fields IHf]; intros st evs sv0 Hfor.
  - simpl in Hfor. unfold ret in Hfor. injection Hfor as <- <- <-. constructor.
  - simpl in Hfor. bind_Ret Hfor. subst evs.
    apply resolve_field_Ret_inv in Hm
      as (fentry & valVal & Hentry & -> & [(Hs & Hhit & -> & ->)|[Hmiss Hc]]).
    + simpl. eapply Resolving_cached; eauto.
    + apply construct_Ret_inv in Hc
        as (m & in2 & fx & st2 & evs0 & rets & w & ctxVal & rest
            & Hm & Hin2 & Hrec & HC & Hz & -> & ->).
      apply IH in Hrec as [_ D1].
      rewrite <- app_assoc. simpl.
      eapply Resolving_construct; eauto.
      eapply Resolving_not_reentered; [|exact D1|done].
      unfold Construct_fixtures. by rewrite Hm.
Qed.


Lemma zip_with_mkValue_inv (outs : list Type_) (rets : list V) valVal ctxVal rest :
  zip_with mkValue outs rets = valVal :: ctxVal :: rest ->
  exists rest', rets = data valVal :: data ctxVal :: rest'.
Proof.
  destruct outs as [|o1 [|o2 outs]], rets as [|r1 [|r2 rets]]; simpl; try done.
  intros [= <- <- _]. eauto.
Qed.

(** One clean-up entry is appended for each [Construct] call, in the order
    of the calls, and every call is made with the handle [resolve] was
    given. *)
Lemma Resolving_cleanUpCbs t fields fixturesVal st sv st' evs :
  Resolving t fields fixturesVal st sv st' evs ->
  exists cbs,
    cleanUpCbs st' = cleanUpCbs st ++ cbs
    /\ Forall2 (fun ev cb => cleanup_for ev cb /\ cb_t cb = t) evs cbs.
Proof.
  induction 1 as [|fld fields fixturesVal st fentry' valVal sv st' evs Hentry Hs Hhit D IH
                  |fld fields fixturesVal st fentry' m ty fx st1 evs1 rets w
                    valVal ctxVal rest sv st' evs2 Hentry Hmiss Hm Hin2 D1 IH1 Hno
                    HC Hz D2 IH2].
  - exists []. by rewrite app_nil_r.
  - done.
  - destruct IH1 as (cbs1 & Hc1 & HF1), IH2 as (cbs2 & Hc2 & HF2).
    simpl in Hc2.
    exists (cbs1 ++ mkCleanup (Instance_ fentry') t ctxVal :: cbs2). split.
    + rewrite Hc2, Hc1, <- !app_assoc. done.
    + apply Forall2_app; [done|]. constructor; [|done]. split; [|done].
      apply zip_with_mkValue_inv in Hz as [rest' ->].
      unfold cleanup_for. simpl. eauto.
Qed.


Lemma refers_spec f field :
  refers f field = true <->
  exists fentry, entry_of field = Some fentry /\ Instance_ fentry = f.
Proof.
  unfold refers. destruct (entry_of field) as [e|].
  - rewrite bool_decide_eq_true. naive_solver.
  - naive_solver.
Qed.

(** *** Sub-test scope: built at most once *)

Section SubTestScope.

Variable f : Instance.
Hypothesis f_subtest : forall name fentry,
  registeredFixtures !! name = Some fentry ->
  Instance_ fentry = f -> Scope fentry = ScopeSubTest.

Lemma entry_of_registered field fentry :
  entry_of field = Some fentry ->
  exists name, registeredFixtures !! name = Some fentry.
Proof.
  unfold entry_of. destruct (structtag_Parse _); [|done].
  destruct (Get _ _); [|done]. eauto.
Qed.

Lemma Resolving_subtest_once t fields fixturesVal st sv st' evs :
  Resolving t fields fixturesVal st sv st' evs ->
  match Resolved st !! f with
  | Some v => constructs f evs = 0%nat /\ Resolved st' !! f = Some v
  | None =>
      (constructs f evs = 0%nat /\ Resolved st' !! f = None)
      \/ (constructs f evs = 1%nat /\ is_Some (Resolved st' !! f))
  end.
Proof.
  induction 1 as [|fld fields fixturesVal st fentry' valVal sv st' evs Hentry Hs Hhit D IH
                  |fld fields fixturesVal st fentry' m ty fx st1 evs1 rets w
                    valVal ctxVal rest sv st' evs2 Hentry Hmiss Hm Hin2 D1 IH1 Hno
                    HC Hz D2 IH2].
  - destruct (Resolved st !! f); [done|by left].
  - done.
  - rewrite constructs_app, constructs_cons. simpl in *.
    destruct (decide (Instance_ fentry' = f)) as [Heq|Hne].
    + rewrite bool_decide_eq_true_2 by done.
      assert (Scope fentry' = ScopeSubTest) as Hs.
      { apply entry_of_registered in Hentry as [name Hreg]. eauto. }
      rewrite <- Heq in *. rewrite (Hmiss Hs) in *.
      rewrite decide_True in IH2 by done.
      rewrite lookup_insert_eq in IH2. destruct IH2 as [-> ->].
      right. split; [lia|eauto].
    + rewrite bool_decide_eq_false_2 by done.
      assert ((if decide (Scope fentry' = ScopeSubTest)
               then <[Instance_ fentry':=valVal]> (Resolved st1)
               else Resolved st1) !! f = Resolved st1 !! f) as Hst1.
      { destruct (decide _); [by rewrite lookup_insert_ne|done]. }
      rewrite Hst1 in IH2.
      destruct (Resolved st !! f) as [v|].
      * destruct IH1 as [-> Hv]. rewrite Hv in IH2. destruct IH2 as [-> ->]. done.
      * destruct IH1 as [[-> Hn]|[-> [v Hv]]].
        -- rewrite Hn in IH2. destruct IH2 as [[-> ?]|[-> ?]]; [by left|by right].
        -- rewrite Hv in IH2. destruct IH2 as [-> ->]. right. split; [lia|eauto].
Qed.

End SubTestScope.

(** *** Call scope: built at every reference *)

Section CallScope.

Variable f : Instance.
Hypothesis f_call : forall name fentry,
  registeredFixtures !! name = Some fentry ->
  Instance_ fentry = f -> Scope fentry <> ScopeSubTest.

Lemma nested_refs_app evs1 evs2 :
  nested_refs f (evs1 ++ evs2) = (nested_refs f evs1 + nested_refs f evs2)%nat.
Proof.
  induction evs1 as [|ev evs1 IH]; [done|].
  destruct ev; simpl; rewrite IH; lia.
Qed.

Lemma Resolving_call_every_reference t fields fixturesVal st sv st' evs :
  Resolving t fields fixturesVal st sv st' evs ->
  constructs f evs
  = (length (List.filter (refers f) fields) + nested_refs f evs)%nat.
Proof.
  induction 1 as [|fld fields fixturesVal st fentry' valVal sv st' evs Hentry Hs Hhit D IH
                  |fld fields fixturesVal st fentry' m ty fx st1 evs1 rets w
                    valVal ctxVal rest sv st' evs2 Hentry Hmiss Hm Hin2 D1 IH1 Hno
                    HC Hz D2 IH2].
  - done.
  - simpl. unfold refers at 1. rewrite Hentry.
    destruct (decide (Instance_ fentry' = f)) as [Heq|Hne].
    + apply entry_of_registered in Hentry as [name Hreg].
      by destruct (f_call _ _ Hreg Heq).
    + by rewrite bool_decide_eq_false_2.
  - rewrite constructs_app, constructs_cons, nested_refs_app. simpl.
    unfold refers at 1. rewrite Hentry.
    unfold Construct_fixtures at 1. rewrite Hm, Hin2.
    rewrite IH1, IH2. unfold refs.
    destruct (bool_decide (Instance_ fentry' = f)); simpl; lia.
Qed.

End CallScope.


(** *** Where values come from *)

Lemma built_mono evs1 evs2 evs3 g d :
  built evs2 g d -> built (evs1 ++ evs2 ++ evs3) g d.
Proof.
  intros (t & fx & rest & Hin). exists t, fx, rest.
  rewrite !in_app_iff. tauto.
Qed.










Lemma refs_pos f fixturesType :
  (0 < refs f fixturesType)%nat ->
  exists field, In field (reflect.Fields fixturesType) /\ refers f field = true.
Proof.
  unfold refs. destruct (List.filter _ _) as [|field l] eqn:Hf; simpl; [lia|].
  intros _. exists field. apply filter_In. rewrite Hf. by left.
Qed.


(** [Destruct] is called on the entries of the list in their order, until
    the list ends or a call does not return. *)
Lemma run_cleanUpCbs_in_order cbs st r st' devs :
  run_cleanUpCbs cbs st = (r, st', devs) ->
  exists rs : list (Result unit),
    devs = zip_with Destruct_event cbs rs
    /\ (length rs <= length cbs)%nat
    /\ (r = Ret tt <-> rs = replicate (length cbs) (Ret tt)).
Proof.
  revert st devs. induction cbs as [|cb cbs IH]; simpl; intros st devs Hrun.
  - unfold ret in Hrun. simplify_eq. exists []. done.
  - apply bind_inv in Hrun
      as [(a & st1 & evs1 & evs2 & Hcb & Hrest & ->)|(r0 & Hcb & Hr0 & ->)].
    + unfold run_cleanup in Hcb.
      destruct (reflect.MethodByName _ _); [|done].
      destruct (negb _); [done|].
      unfold call in Hcb. destruct (Destruct _ _ _ _) as [r1 w].
      simplify_eq.
      destruct (IH _ _ Hrest) as (rs & -> & Hlen & Hret).
      exists (Ret a :: rs). split_and!; [done|simpl; lia|].
      destruct a. rewrite Hret. split; [by intros ->|by intros [= ->]].
    + assert (abort (B := unit) r0 = Ret tt <-> False) as Hab.
      { destruct r0; simpl; try done. }
      unfold run_cleanup in Hcb.
      destruct (reflect.MethodByName _ _).
      2:{ unfold stop in Hcb. simplify_eq. exists [].
          split_and!; [done|simpl; lia|]. by rewrite Hab. }
      destruct (negb _).
      { unfold stop in Hcb. simplify_eq. exists [].
        split_and!; [done|simpl; lia|]. by rewrite Hab. }
      unfold call in Hcb. destruct (Destruct _ _ _ _) as [r1 w].
      injection Hcb as Hr1 Hst Hd. exists [r0]. subst.
      split_and!; [by destruct cbs|simpl; lia|].
      rewrite Hab. split; [done|]. intros [= -> _]. done.
Qed.






(** *** What [resolve] lets an observer see *)


Lemma resolve_field_events rec t fixturesType caller field sv st r st' evs :
  (forall t ty caller st r st' evs,
      rec t ty caller st = (r, st', evs) -> Forall (resolve_event t) evs) ->
  resolve_field rec t fixturesType caller field sv st = (r, st', evs) ->
  Forall (resolve_event t) evs.
Proof.
  intros IH. unfold resolve_field.
  destruct (structtag_Parse _) as [tags|];
    [|unfold Fatalf; intros [= <- <- <-]; by repeat constructor].
  destruct (Get tags "fixture") as [tg|];
    [|unfold Fatalf; intros [= <- <- <-]; by repeat constructor].
  destruct (registeredFixtures !! Name tg) as [fentry|];
    [|unfold Fatalf; intros [= <- <- <-]; by repeat constructor].
  intros Hb.
  assert (forall st r st' evs,
             construct rec t fentry st = (r, st', evs) ->
             Forall (resolve_event t) evs) as Hcons.
  { clear Hb. intros st2 r2 st2' evs2. unfold construct.
    destruct (reflect.MethodByName _ _) as [m|];
      [|unfold stop; intros [= <- <- <-]; constructor].
    destruct (reflect.In_ m 2) as [in2|];
      [|unfold stop; intros [= <- <- <-]; constructor].
    intros Hb.
    apply bind_inv in Hb as [(a & st3 & e1 & e2 & Hrec & Hk & ->)|(r0 & Hrec & _ & _)];
      [|by eapply IH].
    apply Forall_app. split; [by eapply IH|].
    destruct (negb _); [unfold stop in Hk; simplify_eq; constructor|].
    apply bind_inv in Hk as [(a1 & st4 & e3 & e4 & Hcall & Hk & ->)|(r0 & Hcall & _ & _)].
    2:{ unfold call in Hcall. destruct (Construct _ _ _ _).
        simplify_eq. by repeat constructor. }
    apply Forall_app. split.
    { unfold call in Hcall. destruct (Construct _ _ _ _).
      simplify_eq. by repeat constructor. }
    destruct (zip_with mkValue _ _) as [|valVal [|ctxVal rest]];
      try (unfold stop in Hk; simplify_eq; constructor).
    unfold append_cleanUpCbs in Hk.
    apply bind_inv in Hk as [(a2 & st5 & e5 & e6 & Hap & Hk & ->)|(r0 & Hap & _ & _)];
      [|simplify_eq; constructor].
    simplify_eq. simpl.
    apply bind_inv in Hk as [(a3 & st6 & e7 & e8 & Hset & Hk & ->)|(r0 & Hset & _ & _)].
    - unfold ret in Hk. simplify_eq. rewrite app_nil_r.
      destruct (decide _); unfold set_Resolved, ret in Hset; simplify_eq; constructor.
    - destruct (decide _); unfold set_Resolved, ret in Hset; simplify_eq; constructor. }
  apply bind_inv in Hb as [(a & st2 & e1 & e2 & Hget & Hk & ->)|(r0 & Hget & Hr0 & _)].
  2:{ destruct (decide _); unfold get_Resolved, ret in Hget; by simplify_eq. }
  assert (e1 = [] /\ st2 = st) as [-> ->].
  { destruct (decide _); unfold get_Resolved, ret in Hget; by simplify_eq. }
  simpl.
  apply bind_inv in Hk as [(valVal & st3 & e3 & e4 & Hval & Hk & ->)|(r0 & Hval & _ & _)].
  2:{ destruct a; [unfold ret in Hval; simplify_eq; constructor|by eapply Hcons]. }
  apply Forall_app. split.
  { destruct a; [unfold ret in Hval; simplify_eq; constructor|by eapply Hcons]. }
  destruct (reflect.FieldByName _ _) as [fld|];
    [|unfold Fatalf in Hk; simplify_eq; by repeat constructor].
  destruct (reflect.CanSet fld);
    [|unfold Fatalf in Hk; simplify_eq; by repeat constructor].
  destruct (AssignableTo _ _); unfold ret, stop in Hk; simplify_eq; constructor.
Qed.

Lemma for_each_events {A S : Type} (P : Event Instance V -> Prop)
    (body : A -> S -> M S) l s st r st' evs :
  (forall a s st r st' evs, body a s st = (r, st', evs) -> Forall P evs) ->
  for_each body l s st = (r, st', evs) -> Forall P evs.
Proof.
  intros Hbody. revert s st evs. induction l as [|a l IH]; intros s st evs; simpl.
  { unfold ret. intros [= <- <- <-]. constructor. }
  intros Hb.
  apply bind_inv in Hb as [(s1 & st1 & e1 & e2 & Hf & Hk & ->)|(r0 & Hf & _ & _)].
  - apply Forall_app. split; [by eapply Hbody|by eapply IH].
  - by eapply Hbody.
Qed.

Lemma resolve_events fuel t fixturesType caller st r st' evs :
  resolve fuel t fixturesType caller st = (r, st', evs) ->
  Forall (resolve_event t) evs.
Proof.
  revert t fixturesType caller st r st' evs.
  induction fuel as [|fuel IH]; intros t ty caller st r st' evs; simpl.
  { unfold stop. intros [= <- <- <-]. constructor. }
  destruct (negb _). { unfold Fatalf. intros [= <- <- <-]. by repeat constructor. }
  apply for_each_events. intros field sv st1 r1 st1' evs1.
  by apply resolve_field_events.
Qed.




(** *** Where a run can stop *)



Lemma stops_at_bind t {A B : Type} (m : M A) (k : A -> M B) :
  stops_at t m -> (forall a, stops_at t (k a)) -> stops_at t (bind m k).
Proof.
  intros Hm Hk st st' evs Hb.
  apply bind_inv in Hb as [(a & st1 & e1 & e2 & Hm1 & Hk1 & ->)|(r0 & Hm1 & _ & Hr)].
  - destruct (Hk a _ _ _ Hk1) as (evs' & ev & -> & Hev).
    exists (e1 ++ evs'), ev. by rewrite app_assoc.
  - destruct r0; try done. eauto.
Qed.

Lemma stops_at_ret t {A : Type} (a : A) : stops_at t (ret a).
Proof. intros st st' evs. by unfold ret. Qed.

Lemma stops_at_stop t {A : Type} (r : Result A) :
  r <> Goexit -> stops_at t (stop r).
Proof. intros Hr st st' evs. unfold stop. intros [= -> _ _]. done. Qed.

Lemma stops_at_Fatalf t {A : Type} msg : stops_at t (Fatalf (A := A) t msg).
Proof.
  intros st st' evs. unfold Fatalf. intros [= <- <-]. by exists [], (EvFatalf t msg).
Qed.

Lemma stops_at_call t {A : Type} (f : W -> Result A * W) mk :
  stop_event t (mk Goexit) -> stops_at t (call f mk).
Proof.
  intros Hev st st' evs. unfold call. destruct (f (world st)) as [r w].
  intros [= -> <- <-]. by exists [], (mk Goexit).
Qed.

Lemma resolve_stops_at fuel t fixturesType caller :
  stops_at t (resolve fuel t fixturesType caller).
Proof.
  revert t fixturesType caller.
  induction fuel as [|fuel IH]; intros t ty caller; simpl.
  { by apply stops_at_stop. }
  destruct (negb _); [apply stops_at_Fatalf|].
  generalize (∅ : gmap string V) as sv0.
  generalize (reflect.Fields ty) as fields.
  induction fields as [|field fields IHf]; intros sv0; simpl.
  { apply stops_at_ret. }
  apply stops_at_bind; [|done].
  unfold resolve_field.
  destruct (structtag_Parse _) as [tags|]; [|apply stops_at_Fatalf].
  destruct (Get tags "fixture") as [tg|]; [|apply stops_at_Fatalf].
  destruct (registeredFixtures !! Name tg) as [fentry|]; [|apply stops_at_Fatalf].
  apply stops_at_bind.
  { destruct (decide _); [|apply stops_at_ret]. intros st st' evs. by unfold get_Resolved. }
  intros cached. apply stops_at_bind.
  - destruct cached; [apply stops_at_ret|]. unfold construct.
    destruct (reflect.MethodByName _ _) as [m|]; [|by apply stops_at_stop].
    destruct (reflect.In_ m 2) as [in2|]; [|by apply stops_at_stop].
    apply stops_at_bind; [apply IH|]. intros fx.
    destruct (negb _); [by apply stops_at_stop|].
    apply stops_at_bind; [by apply stops_at_call|]. intros rets.
    destruct (zip_with mkValue _ _) as [|valVal [|ctxVal rest]];
      try by apply stops_at_stop.
    apply stops_at_bind; [intros st st' evs; by unfold append_cleanUpCbs|].
    intros _. apply stops_at_bind; [|intros _; apply stops_at_ret].
    destruct (decide _); [|apply stops_at_ret]. intros st st' evs. by unfold set_Resolved.
  - intros valVal.
    destruct (reflect.FieldByName _ _) as [fld|]; [|apply stops_at_Fatalf].
    destruct (reflect.CanSet fld); [|apply stops_at_Fatalf].
    destruct (AssignableTo _ _); [apply stops_at_ret|by apply stops_at_stop].
Qed.

Variable gt : GTest W V.




(** What happens inside a sub-unit, in order. *)
Lemma subtest_events method fixtures t' st r st' evs :
  subtest gt method fixtures t' st = (r, st', evs) ->
  exists r0 tail,
    evs = EvBeforeEach t' r0 :: tail
    /\ ((tail = [] /\ (returned r0 = false \/ r = Panic))
        \/ exists r1 tail2,
             r0 = Ret tt
             /\ tail = EvTest (reflect.MethodName method) t' fixtures r1 :: tail2
             /\ (r1 <> Ret tt -> tail2 = [] /\ r = abort r1)
             /\ (r1 = Ret tt ->
                 exists (rs : list (Result unit)) after,
                   tail2 = zip_with Destruct_event (cleanUpCbs st) rs ++ after
                   /\ (length rs <= length (cleanUpCbs st))%nat
                   /\ ((rs = replicate (length (cleanUpCbs st)) (Ret tt)
                        /\ after = [EvAfterEach t' r])
                       \/ (rs <> replicate (length (cleanUpCbs st)) (Ret tt)
                           /\ after = [] /\ returned r = false)))).
Proof.
  unfold subtest. intros Hb.
  apply bind_inv in Hb as [(a & st1 & e1 & e2 & Hbefore & Hk & ->)|(r0 & Hbefore & Hr0 & _)].
  2:{ unfold call in Hbefore. destruct (BeforeEach gt t' (world st)) as [rb w].
      simplify_eq. exists r0, []. split; [done|]. left. split; [done|by left]. }
  unfold call in Hbefore. destruct (BeforeEach gt t' (world st)) as [rb w].
  injection Hbefore as -> <- <-. destruct a.
  exists (Ret tt). eexists. split; [done|].
  apply bind_inv in Hk as [(a & st2 & e3 & e4 & Htest & Hk & ->)|(r1 & Htest & Hr1 & ->)].
  2:{ destruct (negb _); [unfold stop in Htest; simplify_eq; left; split; [done|by right]|].
      unfold call in Htest. simpl in Htest.
      destruct (TestMethod gt _ t' fixtures w) as [rt' w'].
      injection Htest as -> <- <-. right. exists r1, [].
      split_and!; [done|done|done|]. intros ->. done. }
  destruct (negb _); [done|].
  unfold call in Htest. simpl in Htest.
  destruct (TestMethod gt _ t' fixtures w) as [rt' w'].
  injection Htest as -> <- <-. destruct a.
  right. exists (Ret tt). eexists. split_and!; [done|done|done|]. intros _.
  apply bind_inv in Hk as [(cbs & st3 & e5 & e6 & Hget & Hk & ->)|(r2 & Hget & Hr2 & _)];
    [|unfold get_cleanUpCbs in Hget; by simplify_eq].
  unfold get_cleanUpCbs in Hget. simpl in Hget. injection Hget as <- <- <-. simpl.
  apply bind_inv in Hk as [(a & st4 & e7 & e8 & Hrun & Hk & ->)|(r3 & Hrun & Hr3 & ->)].
  - destruct (run_cleanUpCbs_in_order _ _ _ _ _ Hrun) as (rs & -> & Hlen & Hret).
    destruct a. exists rs. eexists. split_and!; [done|done|]. left.
    split; [by apply Hret|].
    unfold call in Hk. simpl in Hk. destruct (AfterEach gt t' _) as [ra w''].
    by simplify_eq.
  - destruct (run_cleanUpCbs_in_order _ _ _ _ _ Hrun) as (rs & -> & Hlen & Hret).
    exists rs, []. rewrite app_nil_r. split_and!; [done|done|]. right.
    split_and!; [|done|by destruct r3].
    intros Hrs. apply Hret in Hrs. by subst r3.
Qed.


Lemma not_Sub_self (t : testing.T) name : t <> testing.Sub t name.
Proof.
  revert name. induction t as [|p IH n]; intros name; [done|].
  intros [= Hp Hn]. by apply (IH n).
Qed.

(** A clean-up loop that ends in [runtime.Goexit] ends with the [Destruct]
    that gave up. *)
Lemma run_cleanUpCbs_Goexit cbs st st' devs :
  run_cleanUpCbs cbs st = (Goexit, st', devs) ->
  exists devs' cb, devs = devs' ++ [Destruct_event cb Goexit] /\ In cb cbs.
Proof.
  revert st devs. induction cbs as [|cb cbs IH]; intros st devs; simpl; [done|].
  intros Hb.
  apply bind_inv in Hb as [(u & st1 & e1 & e2 & Hcb & Hk & ->)|(r0 & Hcb & Hr0 & Hr)].
  - apply IH in Hk as (devs' & cb' & -> & Hin).
    exists (e1 ++ devs'), cb'. rewrite app_assoc. auto.
  - destruct r0; try done. revert Hcb. unfold run_cleanup.
    destruct (reflect.MethodByName _ _); [|done]. destruct (negb _); [done|].
    unfold call. destruct (Destruct _ _ _ _) as [rd w]. intros [= -> _ <-].
    exists [], cb. split; [done|by left].
Qed.

(** A sub-unit that ends in [runtime.Goexit] ends with the call that gave
    up: a hook or the test method, on the handle of the sub-unit, or the
    [Destruct] of a clean-up entry, on the handle the entry holds. *)
Lemma subtest_Goexit method fixtures t' st st' evs :
  subtest gt method fixtures t' st = (Goexit, st', evs) ->
  exists evs' ev,
    evs = evs' ++ [ev]
    /\ (gave_up_on ev = Some t'
        \/ exists cb, In cb (cleanUpCbs st) /\ ev = Destruct_event cb Goexit).
Proof.
  unfold subtest. intros Hb.
  apply bind_inv in Hb as [(u & st1 & e1 & e2 & Hbefore & Hk & ->)|(r0 & Hbefore & Hr0 & Hr)].
  2:{ destruct r0; try done. unfold call in Hbefore.
      destruct (BeforeEach gt t' (world st)) as [rb w]. injection Hbefore as -> _ <-.
      exists [], (EvBeforeEach t' Goexit). split; [done|by left]. }
  unfold call in Hbefore. destruct (BeforeEach gt t' (world st)) as [rb w].
  injection Hbefore as -> <- <-.
  apply bind_inv in Hk as [(u1 & st2 & e3 & e4 & Htest & Hk & ->)|(r1 & Htest & Hr1 & Hr)].
  2:{ destruct r1; try done. destruct (negb _); [done|].
      unfold call in Htest. simpl in Htest.
      destruct (TestMethod gt _ t' fixtures w) as [rt' w']. injection Htest as -> _ <-.
      exists [EvBeforeEach t' (Ret u)], (EvTest (reflect.MethodName method) t' fixtures Goexit).
      split; [done|by left]. }
  destruct (negb _); [done|].
  unfold call in Htest. simpl in Htest.
  destruct (TestMethod gt _ t' fixtures w) as [rt' w'].
  injection Htest as -> <- <-.
  apply bind_inv in Hk as [(cbs & st3 & e5 & e6 & Hget & Hk & ->)|(r2 & Hget & Hr2 & _)];
    [|unfold get_cleanUpCbs in Hget; by simplify_eq].
  unfold get_cleanUpCbs in Hget. simpl in Hget. injection Hget as <- <- <-.
  simpl in Hk.
  apply bind_inv in Hk as [(u2 & st4 & e7 & e8 & Hrun & Hk & ->)|(r3 & Hrun & Hr3 & Hr)].
  - unfold call in Hk. simpl in Hk. destruct (AfterEach gt t' _) as [ra w''].
    injection Hk as -> _ <-.
    exists ([EvBeforeEach t' (Ret u)]
            ++ [EvTest (reflect.MethodName method) t' fixtures (Ret u1)] ++ [] ++ e7),
      (EvAfterEach t' Goexit).
    split; [by rewrite <- !app_assoc|by left].
  - destruct r3; try done.
    apply run_cleanUpCbs_Goexit in Hrun as (devs' & cb & -> & Hin).
    exists ([EvBeforeEach t' (Ret u)]
            ++ [EvTest (reflect.MethodName method) t' fixtures (Ret u1)] ++ [] ++ devs'),
      (Destruct_event cb Goexit).
    split; [by rewrite <- !app_assoc|]. right. eauto.
Qed.

(** What [t.Run] makes of a sub-unit whose clean-up entries hold the
    handle of the group: it returns when the sub-unit returned or gave up
    on its own handle, and it ends its caller's goroutine when a
    [Destruct] gave up. *)
Lemma Run_subtest_inv t name method fixtures st r st' evs :
  Forall (fun cb => cb_t cb = t) (cleanUpCbs st) ->
  Run t name (subtest gt method fixtures) st = (r, st', evs) ->
  exists rsub inner,
    subtest gt method fixtures (testing.Sub t name) st = (rsub, st', inner)
    /\ ((r = Ret tt /\ (rsub = Ret tt \/ rsub = Goexit)
         /\ evs = EvRun t name :: inner ++ [EvRunEnd t name])
        \/ (r = rsub
            /\ (rsub = Panic \/ rsub = OutOfFuel
                \/ (rsub = Goexit
                    /\ exists inner' f ctx,
                         inner = inner' ++ [EvDestruct f t ctx Goexit]))
            /\ evs = EvRun t name :: inner)).
Proof.
  intros Hcbs. unfold Run.
  destruct (subtest gt method fixtures (testing.Sub t name) st)
    as [[rsub st1] inner] eqn:Hsub.
  destruct rsub as [[]| | |].
  - intros [= <- <- <-]. exists (Ret tt), inner. split; [done|]. left. auto.
  - destruct (subtest_Goexit _ _ _ _ _ _ Hsub) as (inner' & ev & -> & Hev).
    rewrite last_snoc. simpl.
    destruct Hev as [Hown|(cb & Hin & ->)].
    + rewrite Hown, bool_decide_eq_true_2 by done.
      intros [= <- <- <-]. exists Goexit, (inner' ++ [ev]). split; [done|]. left. auto.
    + rewrite List.Forall_forall in Hcbs. simpl. rewrite (Hcbs _ Hin).
      rewrite bool_decide_eq_false_2 by apply not_Sub_self.
      rewrite bool_decide_eq_true_2 by done. simpl.
      intros [= <- <- <-]. exists Goexit. eexists. split; [done|]. right.
      split_and!; [done| |done]. right. right. split; [done|].
      exists inner', (cb_fVal cb), (data (cb_ctxVal cb)).
      unfold Destruct_event. by rewrite (Hcbs _ Hin).
  - intros [= <- <- <-]. exists Panic, inner. split; [done|]. right. auto.
  - intros [= <- <- <-]. exists OutOfFuel, inner. split; [done|]. right. auto.
Qed.

(** One turn of the loop of [RunSubTests]: the method is skipped, or the
    turn stops on the group's goroutine before a sub-unit is started, or
    the sub-unit runs with the clean-up list the resolution left. *)
Lemma RunSubTests_method_inv fuel t method st r st' evs :
  RunSubTests_method gt fuel t method st = (r, st', evs) ->
  let methodName := reflect.MethodName method in
  let name := TrimPrefix methodName testMethodPrefix in
  (HasPrefix methodName testMethodPrefix = false /\ r = Ret tt /\ evs = [])
  \/ (HasPrefix methodName testMethodPrefix = true
      /\ ((returned r = false /\ Forall (resolve_event t) evs)
          \/ exists pre fixtures st1 rsub inner,
               Forall2 (fun ev cb => cleanup_for ev cb /\ cb_t cb = t)
                       pre (cleanUpCbs st1)
               /\ subtest gt method fixtures (testing.Sub t name) st1
                  = (rsub, st', inner)
               /\ ((r = Ret tt /\ (rsub = Ret tt \/ rsub = Goexit)
                    /\ evs = pre ++ EvRun t name :: inner ++ [EvRunEnd t name])
                   \/ (r = rsub
                       /\ (rsub = Panic \/ rsub = OutOfFuel
                           \/ (rsub = Goexit
                               /\ exists inner' f ctx,
                                    inner = inner' ++ [EvDestruct f t ctx Goexit]))
                       /\ evs = pre ++ EvRun t name :: inner)))).
Proof.
  unfold RunSubTests_method. intros Hb.
  set (methodName := reflect.MethodName method) in *.
  set (name := TrimPrefix methodName testMethodPrefix) in *.
  apply bind_inv in Hb as [(a & st1 & e1 & e2 & Hnew & Hk & ->)|(r0 & Hnew & Hr0 & _)];
    [|unfold newFixtureResolver in Hnew; by simplify_eq].
  unfold newFixtureResolver in Hnew. injection Hnew as <- <- <-. simpl.
  destruct (HasPrefix methodName testMethodPrefix) eqn:Hp; simpl in Hk.
  2:{ unfold ret in Hk. simplify_eq. by left. }
  right. split; [done|].
  apply bind_inv in Hk as [(a & st2 & e3 & e4 & Hnew & Hk & ->)|(r0 & Hnew & Hr0 & _)];
    [|unfold new_cleanUpCbs in Hnew; by simplify_eq].
  unfold new_cleanUpCbs in Hnew. simpl in Hnew. injection Hnew as <- <- <-. simpl.
  apply bind_inv in Hk as [(a & st3 & e5 & e6 & Hc1 & Hk & ->)|(r0 & Hc1 & Hr0 & ->)].
  2:{ left. split; [by destruct r0|].
      destruct (_ <? 1); unfold Fatalf, ret in Hc1; simplify_eq. by repeat constructor. }
  assert (e5 = [] /\ st3 = mkState (world st) ∅ []) as [-> ->].
  { destruct (_ <? 1); unfold Fatalf, ret in Hc1; by simplify_eq. }
  simpl. clear Hc1.
  destruct (reflect.In_ method 1) as [arg1|];
    [|unfold stop in Hk; simplify_eq; left; by split].
  apply bind_inv in Hk as [(a0 & st4 & e7 & e8 & Hc2 & Hk & ->)|(r0 & Hc2 & Hr0 & ->)].
  2:{ left. split; [by destruct r0|].
      destruct (negb _); unfold Fatalf, ret in Hc2; simplify_eq. by repeat constructor. }
  assert (e7 = [] /\ st4 = mkState (world st) ∅ []) as [-> ->].
  { destruct (negb _); unfold Fatalf, ret in Hc2; by simplify_eq. }
  simpl. clear Hc2.
  apply bind_inv in Hk as [(fixtures & st5 & pre & sub & Hfix & Hrun & ->)|(r0 & Hfix & Hr0 & ->)].
  2:{ left. split; [by destruct r0|].
      destruct (_ =? 2).
      - destruct (reflect.In_ method 2) as [ty|];
          [|unfold stop in Hfix; simplify_eq; constructor].
        apply bind_inv in Hfix as [(sv & st6 & e9 & e10 & Hres & Hret & ->)|(r1 & Hres & _ & _)].
        + unfold ret in Hret. simplify_eq.
        + by eapply resolve_events.
      - destruct (_ >? 2); unfold Fatalf, ret in Hfix; simplify_eq. by repeat constructor. }
  right. exists pre, fixtures, st5.
  assert (Forall2 (fun ev cb => cleanup_for ev cb /\ cb_t cb = t) pre (cleanUpCbs st5)) as HF.
  { destruct (_ =? 2).
    - destruct (reflect.In_ method 2) as [ty|]; [|done].
      apply bind_Ret_inv in Hfix as (sv & st6 & e9 & e10 & Hres & Hret & ->).
      unfold ret in Hret. injection Hret as <- <- <-. rewrite app_nil_r.
      apply resolve_Resolving in Hres as [_ D].
      destruct (Resolving_cleanUpCbs _ _ _ _ _ _ _ D) as (cbs & -> & HF). done.
    - destruct (_ >? 2); unfold Fatalf, ret in Hfix; simplify_eq. constructor. }
  assert (Forall (fun cb => cb_t cb = t) (cleanUpCbs st5)) as Hcbs.
  { clear -HF. induction HF as [|ev cb pre cbs [_ Ht] _ IH]; constructor; done. }
  apply (Run_subtest_inv _ _ _ _ _ _ _ _ Hcbs) in Hrun as (rsub & inner & Hsub & Hcases).
  exists rsub, inner. split; [done|]. split; [done|].
  destruct Hcases as [(-> & Hrsub & ->)|(-> & Hrsub & ->)]; [left|right]; done.
Qed.

(** *** Where a turn of the loop can stop *)

Lemma stops_or_runs_of_stops_at t name {A : Type} (m : M A) :
  stops_at t m -> stops_or_runs t name m.
Proof. intros Hm st st' evs Hgo. left. by eapply Hm. Qed.

Lemma stops_or_runs_bind t name {A B : Type} (m : M A) (k : A -> M B) :
  stops_or_runs t name m -> (forall a, stops_or_runs t name (k a)) ->
  stops_or_runs t name (bind m k).
Proof.
  intros Hm Hk st st' evs Hb.
  apply bind_inv in Hb as [(a & st1 & e1 & e2 & Hm1 & Hk1 & ->)|(r0 & Hm1 & _ & Hr)].
  - destruct (Hk a _ _ _ Hk1) as [(evs' & ev & -> & Hev)|Hin].
    + left. exists (e1 ++ evs'), ev. by rewrite app_assoc.
    + right. apply in_app_iff. by right.
  - destruct r0; try done. eauto.
Qed.

Lemma Run_stops_or_runs t name f : stops_or_runs t name (Run t name f).
Proof.
  intros st st' evs. unfold Run.
  destruct (f (testing.Sub t name) st) as [[[] st1] evs1]; repeat case_match;
    intros [= <- <-]; right; by left.
Qed.

Lemma RunSubTests_method_stops_or_runs fuel t method :
  stops_or_runs t (TrimPrefix (reflect.MethodName method) testMethodPrefix)
                (RunSubTests_method gt fuel t method).
Proof.
  unfold RunSubTests_method.
  apply stops_or_runs_bind; [intros st st' evs; by unfold newFixtureResolver|].
  intros _. destruct (negb _); [apply stops_or_runs_of_stops_at, stops_at_ret|].
  apply stops_or_runs_bind; [intros st st' evs; by unfold new_cleanUpCbs|].
  intros _. apply stops_or_runs_bind.
  { apply stops_or_runs_of_stops_at.
    destruct (_ <? 1); [apply stops_at_Fatalf|apply stops_at_ret]. }
  intros _. destruct (reflect.In_ method 1) as [arg1|];
    [|by apply stops_or_runs_of_stops_at, stops_at_stop].
  apply stops_or_runs_bind.
  { apply stops_or_runs_of_stops_at.
    destruct (negb _); [apply stops_at_Fatalf|apply stops_at_ret]. }
  intros _. apply stops_or_runs_bind; [|intros fx; apply Run_stops_or_runs].
  apply stops_or_runs_of_stops_at.
  destruct (_ =? 2).
  - destruct (reflect.In_ method 2); [|by apply stops_at_stop].
    apply stops_at_bind; [apply resolve_stops_at|intros ?; apply stops_at_ret].
  - destruct (_ >? 2); [apply stops_at_Fatalf|apply stops_at_ret].
Qed.

(** A turn of the loop that ends in [runtime.Goexit] ends with a fatal
    report or a [Construct] on the handle of the group, before the sub-unit
    is started, or with a [Destruct] that gave up in the sub-unit, which
    is called with the handle of the group. *)
Lemma RunSubTests_method_stops_at fuel t method :
  stops_at t (RunSubTests_method gt fuel t method).
Proof.
  intros st st' evs Hm.
  destruct (RunSubTests_method_stops_or_runs _ _ _ _ _ _ Hm) as [Hstop|Hin]; [done|].
  apply RunSubTests_method_inv in Hm
    as [(_ & _ & ->)|(_ & [[_ HF]|(pre & fx & st1 & rsub & inner & HF & Hsub & Hcases)])].
  - done.
  - rewrite List.Forall_forall in HF. by apply HF in Hin.
  - destruct Hcases as [(? & _)|(<- & [?|[?|(_ & inner' & f & ctx & ->)]] & ->)];
      [done|done|done|].
    exists (pre ++ EvRun t (TrimPrefix (reflect.MethodName method) testMethodPrefix)
                :: inner'), (EvDestruct f t ctx Goexit).
    split; [by rewrite <- app_assoc|done].
Qed.

Lemma RunSubTests_loop_stops_at fuel t methods :
  stops_at t (RunSubTests_loop gt fuel t methods).
Proof.
  induction methods as [|method methods IH]; simpl; [apply stops_at_ret|].
  apply stops_at_bind; [apply RunSubTests_method_stops_at|done].
Qed.

(** *** What follows an event the goroutine stops at *)

Lemma ends_on_stop_bind t {A B : Type} (m : M A) (k : A -> M B) :
  ends_on_stop t m -> (forall a, ends_on_stop t (k a)) -> ends_on_stop t (bind m k).
Proof.
  intros Hm Hk st r st' evs Hb.
  apply bind_inv in Hb as [(a & st1 & e1 & e2 & Hm1 & Hk1 & ->)|(r0 & Hm1 & _ & ->)].
  - destruct (Hm _ _ _ _ Hm1) as [Hq|(? & _)]; [|done].
    destruct (Hk a _ _ _ _ Hk1) as [Hq2|(-> & evs' & ev & -> & Hq2 & Hev)].
    + left. by apply Forall_app.
    + right. split; [done|]. exists (e1 ++ evs'), ev. rewrite app_assoc.
      split_and!; [done|by apply Forall_app|done].
  - destruct (Hm _ _ _ _ Hm1) as [Hq|(-> & Hlast)]; [by left|by right].
Qed.

Lemma ends_on_stop_quiet t {A : Type} (m : M A) :
  (forall st, (m st).2 = []) -> ends_on_stop t m.
Proof.
  intros Hq st r st' evs Hm. left. specialize (Hq st). rewrite Hm in Hq.
  simpl in Hq. subst evs. constructor.
Qed.

Lemma ends_on_stop_Fatalf t {A : Type} msg : ends_on_stop t (Fatalf (A := A) t msg).
Proof.
  intros st r st' evs. unfold Fatalf. intros [= <- _ <-]. right. split; [done|].
  exists [], (EvFatalf t msg). split_and!; [done|constructor|done].
Qed.

Lemma stop_event_dec t (ev : Event Instance V) : stop_event t ev \/ ~ stop_event t ev.
Proof.
  destruct ev as [t1 r|t1 r|t1 r|t1 r|f t1 fx r|f t1 c r|m t1 fx r|t1 n|t1 n|t1 msg];
    simpl; try (by right; intros []); try destruct r; try (by right; intros []);
    destruct (decide (t1 = t)); auto.
Qed.

Lemma ends_on_stop_call t {A : Type} (f : W -> Result A * W) mk :
  (forall r, stop_event t (mk r) -> r = Goexit) -> ends_on_stop t (call f mk).
Proof.
  intros Hev st r st' evs. unfold call. destruct (f (world st)) as [r1 w].
  intros [= <- _ <-].
  assert (r1 = Goexit \/ r1 <> Goexit) as [->|Hne] by (destruct r1; auto).
  - destruct (stop_event_dec t (mk Goexit)) as [Hs|Hs].
    + right. split; [done|]. exists [], (mk Goexit). split_and!; [done|constructor|done].
    + left. by repeat constructor.
  - left. repeat constructor. intros Hs. by apply Hev in Hs.
Qed.

Local Ltac no_events := apply ends_on_stop_quiet; by intros.

Lemma resolve_ends_on_stop fuel t fixturesType caller :
  ends_on_stop t (resolve fuel t fixturesType caller).
Proof.
  revert t fixturesType caller.
  induction fuel as [|fuel IH]; intros t ty caller; simpl.
  { no_events. }
  destruct (negb _); [apply ends_on_stop_Fatalf|].
  generalize (∅ : gmap string V) as sv0.
  generalize (reflect.Fields ty) as fields.
  induction fields as [|field fields IHf]; intros sv0; simpl.
  { no_events. }
  apply ends_on_stop_bind; [|done].
  unfold resolve_field.
  destruct (structtag_Parse _) as [tags|]; [|apply ends_on_stop_Fatalf].
  destruct (Get tags "fixture") as [tg|]; [|apply ends_on_stop_Fatalf].
  destruct (registeredFixtures !! Name tg) as [fentry|]; [|apply ends_on_stop_Fatalf].
  apply ends_on_stop_bind.
  { destruct (decide _); no_events. }
  intros cached. apply ends_on_stop_bind.
  - destruct cached; [no_events|]. unfold construct.
    destruct (reflect.MethodByName _ _) as [m|]; [|no_events].
    destruct (reflect.In_ m 2) as [in2|]; [|no_events].
    apply ends_on_stop_bind; [apply IH|]. intros fx.
    destruct (negb _); [no_events|].
    apply ends_on_stop_bind.
    { apply ends_on_stop_call. intros r. by destruct r. }
    intros rets.
    destruct (zip_with mkValue _ _) as [|valVal [|ctxVal rest]]; try no_events.
    apply ends_on_stop_bind; [no_events|].
    intros _. apply ends_on_stop_bind; [|intros _; no_events].
    destruct (decide _); no_events.
  - intros valVal.
    destruct (reflect.FieldByName _ _) as [fld|]; [|apply ends_on_stop_Fatalf].
    destruct (reflect.CanSet fld); [|apply ends_on_stop_Fatalf].
    destruct (AssignableTo _ _); no_events.
Qed.

Lemma run_cleanUpCbs_ends_on_stop t cbs : ends_on_stop t (run_cleanUpCbs cbs).
Proof.
  induction cbs as [|cb cbs IH]; simpl; [no_events|].
  apply ends_on_stop_bind; [|done]. unfold run_cleanup.
  destruct (reflect.MethodByName _ _); [|no_events]. destruct (negb _); [no_events|].
  apply ends_on_stop_call. intros r. by destruct r.
Qed.

Lemma subtest_ends_on_stop t method fixtures t' :
  ends_on_stop t (subtest gt method fixtures t').
Proof.
  unfold subtest.
  apply ends_on_stop_bind; [by apply ends_on_stop_call|]. intros _.
  apply ends_on_stop_bind.
  { destruct (negb _); [no_events|by apply ends_on_stop_call]. }
  intros _. apply ends_on_stop_bind; [no_events|]. intros cbs.
  apply ends_on_stop_bind; [apply run_cleanUpCbs_ends_on_stop|]. intros _.
  by apply ends_on_stop_call.
Qed.

Lemma stop_event_gave_up_on t (ev : Event Instance V) :
  stop_event t ev -> gave_up_on ev = Some t.
Proof.
  destruct ev as [t1 r|t1 r|t1 r|t1 r|f t1 fx r|f t1 c r|m t1 fx r|t1 n|t1 n|t1 msg];
    simpl; try done; try destruct r; simpl; try done; by intros ->.
Qed.

(** [t.Run] passes on what the sub-unit did to the handle of its caller:
    when the sub-unit gave up on it, [Run] does not return. *)
Lemma Run_ends_on_stop t name f :
  ends_on_stop t (f (testing.Sub t name)) -> ends_on_stop t (Run t name f).
Proof.
  intros Hf st r st' evs. unfold Run.
  destruct (f (testing.Sub t name) st) as [[rsub st1] inner] eqn:Hsub.
  assert (~ stop_event t (EvRun t name : Event Instance V)) as Hrun by (by intros []).
  assert (~ stop_event t (EvRunEnd t name : Event Instance V)) as Hend by (by intros []).
  destruct (Hf _ _ _ _ Hsub) as [Hq|(-> & inner' & ev & -> & Hq & Hev)].
  - destruct rsub; repeat case_match; intros [= <- <- <-]; left;
      repeat first [done | constructor | apply Forall_app; split].
  - rewrite last_snoc. simpl. rewrite (stop_event_gave_up_on _ _ Hev).
    rewrite bool_decide_eq_false_2 by apply not_Sub_self.
    simpl. rewrite bool_decide_eq_true_2 by done. simpl.
    intros [= <- <- <-]. right. split; [done|].
    exists (EvRun t name :: inner'), ev. split_and!; [done|by constructor|done].
Qed.

Lemma RunSubTests_method_ends_on_stop fuel t method :
  ends_on_stop t (RunSubTests_method gt fuel t method).
Proof.
  unfold RunSubTests_method.
  apply ends_on_stop_bind; [no_events|].
  intros _. destruct (negb _); [no_events|].
  apply ends_on_stop_bind; [no_events|].
  intros _. apply ends_on_stop_bind.
  { destruct (_ <? 1); [apply ends_on_stop_Fatalf|no_events]. }
  intros _. destruct (reflect.In_ method 1) as [arg1|]; [|no_events].
  apply ends_on_stop_bind.
  { destruct (negb _); [apply ends_on_stop_Fatalf|no_events]. }
  intros _. apply ends_on_stop_bind;
    [|intros fx; apply Run_ends_on_stop, subtest_ends_on_stop].
  destruct (_ =? 2).
  - destruct (reflect.In_ method 2); [|no_events].
    apply ends_on_stop_bind; [apply resolve_ends_on_stop|intros ?; no_events].
  - destruct (_ >? 2); [apply ends_on_stop_Fatalf|no_events].
Qed.

Lemma RunSubTests_loop_ends_on_stop fuel t methods :
  ends_on_stop t (RunSubTests_loop gt fuel t methods).
Proof.
  induction methods as [|method methods IH]; simpl; [no_events|].
  apply ends_on_stop_bind; [apply RunSubTests_method_ends_on_stop|done].
Qed.

Lemma RunSubTests_ends_on_stop fuel t : ends_on_stop t (RunSubTests gt fuel t).
Proof.
  unfold RunSubTests.
  apply ends_on_stop_bind; [apply ends_on_stop_call; intros r; by destruct r|].
  intros _. apply ends_on_stop_bind; [apply RunSubTests_loop_ends_on_stop|].
  intros _. apply ends_on_stop_call. intros r. by destruct r.
Qed.




Lemma Forall2_cleanup_for_events t pre (cbs : list (Cleanup Instance V)) :
  Forall2 (fun ev cb => cleanup_for ev cb /\ cb_t cb = t) pre cbs ->
  Forall (resolve_event t) pre /\ Forall (fun cb => cb_t cb = t) cbs.
Proof.
  induction 1 as [|ev cb pre cbs [(fx & d & rest & ->) Ht] _ [IH1 IH2]]; [done|].
  split; constructor; done.
Qed.

Lemma Destruct_events_handle t name methodName (cbs : list (Cleanup Instance V))
    (rs : list (Result unit)) :
  Forall (fun cb => cb_t cb = t) cbs ->
  Forall (subunit_event t name methodName) (zip_with Destruct_event cbs rs).
Proof.
  intros HF. revert rs. induction HF as [|cb cbs Ht _ IH]; intros [|r rs]; simpl;
    try constructor; auto.
Qed.

Lemma RunSubTests_method_shape fuel t method st r st' evs :
  RunSubTests_method gt fuel t method st = (r, st', evs) ->
  let methodName := reflect.MethodName method in
  let name := TrimPrefix methodName testMethodPrefix in
  exists pre sub,
    evs = pre ++ sub
    /\ Forall (resolve_event t) pre
    /\ (sub = []
        \/ exists r0 inner fin,
             sub = EvRun t name :: EvBeforeEach (testing.Sub t name) r0 :: inner ++ fin
             /\ (fin = [] \/ fin = [EvRunEnd t name])
             /\ Forall (subunit_event t name methodName) inner).
Proof.
  intros Hm methodName name.
  apply RunSubTests_method_inv in Hm
    as [(_ & _ & ->)|(_ & [[_ HF]|(pre & fx & st1 & rsub & inner & HF & Hsub & Hcases)])].
  - exists [], []. split_and!; [done|constructor|by left].
  - exists evs, []. rewrite app_nil_r. split_and!; [done|done|by left].
  - apply Forall2_cleanup_for_events in HF as [Hpre Hcbs].
    apply subtest_events in Hsub as (r0 & tail & -> & Htail).
    assert (Forall (subunit_event t name methodName) tail) as Hkinds.
    { destruct Htail as [[-> _]|(r1 & tail2 & -> & -> & Hfail & Hret)]; [constructor|].
      constructor; [done|].
      assert (r1 = Ret tt \/ r1 <> Ret tt) as [->|Hne]
        by (destruct r1 as [[]| | |]; auto).
      - destruct (Hret eq_refl) as (rs & after & -> & _ & Hafter).
        apply Forall_app. split; [by apply Destruct_events_handle|].
        destruct Hafter as [[_ ->]|(_ & -> & _)]; by repeat constructor.
      - destruct (Hfail Hne) as [-> _]. constructor. }
    fold name in Hcases.
    destruct Hcases as [(_ & _ & ->)|(_ & _ & ->)].
    + exists pre. eexists. split_and!; [done|done|]. right.
      exists r0, tail, [EvRunEnd t name]. split_and!; [done|by right|done].
    + exists pre. eexists. split_and!; [done|done|]. right.
      exists r0, tail, []. rewrite app_nil_r. split_and!; [done|by left|done].
Qed.

(** C10.  In one turn of the loop, whatever [resolve] does -- the
    [Construct] calls, all with the handle of the group, and its fatal
    reports -- comes before the sub-unit is started.  Inside the sub-unit
    [BeforeEach] runs first, on the sub-unit's handle; after it come only
    the test method and [AfterEach], on the sub-unit's handle, and the
    [Destruct] calls of the clean-up list, on the handle of the group.
    They come in this order: the test method, then the [Destruct] calls
    for the entries of the clean-up list that the [Construct] calls before
    the sub-unit left, from the first entry on, then [AfterEach]. *)
Theorem constructs_before_the_subunit fuel t method st r st' evs :
  RunSubTests_method gt fuel t method st = (r, st', evs) ->
  let methodName := reflect.MethodName method in
  let name := TrimPrefix methodName testMethodPrefix in
  exists pre sub,
    evs = pre ++ sub
    /\ Forall (resolve_event t) pre
    /\ (sub = []
        \/ exists r0 inner fin,
             sub = EvRun t name :: EvBeforeEach (testing.Sub t name) r0 :: inner ++ fin
             /\ (fin = [] \/ fin = [EvRunEnd t name])
             /\ Forall (subunit_event t name methodName) inner
             /\ (inner = []
                 \/ exists fixtures r1 cbs (rs : list (Result unit)) after,
                      inner = EvTest methodName (testing.Sub t name) fixtures r1
                              :: zip_with Destruct_event cbs rs ++ after
                      /\ Forall2 (fun ev cb => cleanup_for ev cb /\ cb_t cb = t) pre cbs
                      /\ (after = []
                          \/ exists r3, after = [EvAfterEach (testing.Sub t name) r3]))).
Proof.
  intros Hm methodName name.
  apply RunSubTests_method_inv in Hm
    as [(_ & _ & ->)|(_ & [[_ HF]|(pre & fx & st1 & rsub & inner & HF & Hsub & Hcases)])].
  - exists [], []. split_and!; [done|constructor|by left].
  - exists evs, []. rewrite app_nil_r. split_and!; [done|done|by left].
  - pose proof (Forall2_cleanup_for_events _ _ _ HF) as [Hpre Hcbs].
    apply subtest_events in Hsub as (r0 & tail & -> & Htail).
    fold name in Hcases. fold methodName in Htail.
    assert (Forall (subunit_event t name methodName) tail
            /\ (tail = []
                \/ exists fixtures r1 (rs : list (Result unit)) after,
                     tail = EvTest methodName (testing.Sub t name) fixtures r1
                            :: zip_with Destruct_event (cleanUpCbs st1) rs ++ after
                     /\ (after = []
                         \/ exists r3, after = [EvAfterEach (testing.Sub t name) r3])))
      as [Hkinds Horder].
    { destruct Htail as [[-> _]|(r1 & tail2 & -> & -> & Hfail & Hret)];
        [split; [constructor|by left]|].
      assert (r1 = Ret tt \/ r1 <> Ret tt) as [->|Hne]
        by (destruct r1 as [[]| | |]; auto).
      - destruct (Hret eq_refl) as (rs & after & -> & _ & Hafter). split.
        + constructor; [done|].
          apply Forall_app. split; [by apply Destruct_events_handle|].
          destruct Hafter as [[_ ->]|(_ & -> & _)]; by repeat constructor.
        + right. exists fx, (Ret tt), rs, after. split; [done|].
          destruct Hafter as [[_ ->]|(_ & -> & _)]; [right; eauto|by left].
      - destruct (Hfail Hne) as [-> _]. split; [by repeat constructor|].
        right. exists fx, r1, [], []. split; [|by left].
        by destruct (cleanUpCbs st1). }
    assert (tail = []
            \/ exists fixtures r1 cbs (rs : list (Result unit)) after,
                 tail = EvTest methodName (testing.Sub t name) fixtures r1
                        :: zip_with Destruct_event cbs rs ++ after
                 /\ Forall2 (fun ev cb => cleanup_for ev cb /\ cb_t cb = t) pre cbs
                 /\ (after = []
                     \/ exists r3, after = [EvAfterEach (testing.Sub t name) r3]))
      as Horder'.
    { destruct Horder as [->|(fixtures & r1 & rs & after & -> & Hafter)]; [by left|].
      right. exists fixtures, r1, (cleanUpCbs st1), rs, after. done. }
    destruct Hcases as [(_ & _ & ->)|(_ & _ & ->)].
    + exists pre. eexists. split_and!; [done|done|]. right.
      exists r0, tail, [EvRunEnd t name]. split_and!; [done|by right|done|done].
    + exists pre. eexists. split_and!; [done|done|]. right.
      exists r0, tail, []. rewrite app_nil_r. split_and!; [done|by left|done|done].
Qed.


Lemma not_In_Destruct_events m t' fx r0 (cbs : list (Cleanup Instance V))
    (rs : list (Result unit)) :
  ~ In (EvTest m t' fx r0) (zip_with Destruct_event cbs rs).
Proof.
  revert rs. induction cbs as [|cb cbs IH]; intros [|r rs]; simpl; try tauto.
  intros [Heq|Hin]; [done|by eapply IH].
Qed.



(** *** The loop over the methods *)



Lemma case_event_mono t methods1 methods2 ev :
  (forall m, In m methods1 -> In m methods2) ->
  case_event t methods1 ev -> case_event t methods2 ev.
Proof.
  intros Hsub. destruct ev; simpl; try done.
  intros (? & Hin & ?). split_and!; try done.
  apply in_map_iff in Hin as (method & <- & Hin). apply in_map. auto.
Qed.

Lemma subunits_app evs1 evs2 :
  subunits evs1 ++ subunits evs2 = subunits (V := V) (Instance := Instance) (evs1 ++ evs2).
Proof. unfold subunits. by rewrite omap_app. Qed.

Lemma subunits_resolve_events t evs :
  Forall (resolve_event t) evs -> subunits evs = [].
Proof.
  induction 1 as [|ev evs Hev _ IH]; [done|]. destruct ev; simpl in *; done.
Qed.

Lemma subunits_subunit_events t name methodName evs :
  Forall (subunit_event t name methodName) evs -> subunits evs = [].
Proof.
  induction 1 as [|ev evs Hev _ IH]; [done|]. destruct ev; simpl in *; done.
Qed.

Lemma RunSubTests_method_subunits fuel t method st r st' evs :
  RunSubTests_method gt fuel t method st = (r, st', evs) ->
  Forall (case_event t [method]) evs
  /\ (subunits evs `prefix_of` subtest_names [method])
  /\ (r = Ret tt -> subunits evs = subtest_names [method]).
Proof.
  intros Hm. pose proof (RunSubTests_method_shape _ _ _ _ _ _ _ Hm) as Hshape.
  simpl in Hshape. destruct Hshape as (pre & sub & -> & Hpre & Hsub).
  rewrite <- subunits_app, (subunits_resolve_events _ _ Hpre). simpl.
  unfold subtest_names. simpl.
  apply RunSubTests_method_inv in Hm
    as [(Hp & -> & Hevs)|(Hp & Hcases)]; rewrite Hp; simpl.
  { apply app_eq_nil in Hevs as [-> ->]. split_and!; [constructor|done|done]. }
  assert (Forall (case_event t [method]) pre) as Hpre'.
  { eapply Forall_impl; [exact Hpre|]. intros ev. by destruct ev. }
  destruct Hsub as [->|(r0 & inner & fin & -> & Hfin & Hinner)].
  - rewrite app_nil_r. split_and!; [done|apply prefix_nil|].
    intros ->. destruct Hcases as [[? _]|(pre' & fx & st1 & rsub & inner & HF & _ & Hc)];
      [done|].
    exfalso. destruct Hc as [(_ & _ & Heq)|(_ & _ & Heq)];
      rewrite app_nil_r in Heq; subst pre;
      apply (Forall_app (resolve_event t)) in Hpre as [_ Hpre];
      by apply Forall_cons in Hpre as [? _].
  - assert (subunits
              (EvRun t (TrimPrefix (reflect.MethodName method) testMethodPrefix)
               :: EvBeforeEach
                    (testing.Sub t
                       (TrimPrefix (reflect.MethodName method) testMethodPrefix)) r0
               :: inner ++ fin)
            = [TrimPrefix (reflect.MethodName method) testMethodPrefix]) as ->.
    { simpl. rewrite <- subunits_app, (subunits_subunit_events _ _ _ _ Hinner).
      by destruct Hfin as [-> | ->]. }
    split_and!; [|done|done].
    apply Forall_app. split; [done|].
    constructor; [done|]. constructor; [done|].
    apply Forall_app. split.
    + eapply Forall_impl; [exact Hinner|]. intros ev. destruct ev; simpl; try done.
      intros [-> ->]. split_and!; [done|by left|done].
    + destruct Hfin as [-> | ->]; by repeat constructor.
Qed.

Lemma subtest_names_cons method methods :
  subtest_names (method :: methods) = subtest_names [method] ++ subtest_names methods.
Proof.
  unfold subtest_names. simpl.
  by destruct (HasPrefix (reflect.MethodName method) testMethodPrefix).
Qed.

Lemma RunSubTests_loop_subunits fuel t methods st r st' evs :
  RunSubTests_loop gt fuel t methods st = (r, st', evs) ->
  Forall (case_event t methods) evs
  /\ (subunits evs `prefix_of` subtest_names methods)
  /\ (r = Ret tt -> subunits evs = subtest_names methods).
Proof.
  revert st evs. induction methods as [|method methods IH]; intros st evs; simpl.
  { unfold ret. intros [= <- <- <-]. split_and!; [constructor|done|done]. }
  intros Hb. rewrite subtest_names_cons.
  apply bind_inv in Hb as [(a & st1 & e1 & e2 & Hm & Hk & ->)|(r0 & Hm & Hr0 & ->)].
  - destruct (RunSubTests_method_subunits _ _ _ _ _ _ _ Hm) as (HF1 & _ & Heq1).
    destruct a. specialize (Heq1 eq_refl).
    destruct (IH _ _ Hk) as (HF2 & Hpre2 & Heq2).
    rewrite <- subunits_app, Heq1. split_and!.
    + apply Forall_app. split.
      * eapply Forall_impl; [exact HF1|]. intros ev. apply case_event_mono.
        intros m [<-|[]]. by left.
      * eapply Forall_impl; [exact HF2|]. intros ev. apply case_event_mono.
        intros m ?. by right.
    + by apply prefix_app.
    + intros Hr. by rewrite (Heq2 Hr).
  - destruct (RunSubTests_method_subunits _ _ _ _ _ _ _ Hm) as (HF1 & Hpre1 & _).
    split_and!.
    + eapply Forall_impl; [exact HF1|]. intros ev. apply case_event_mono.
      intros m [<-|[]]. by left.
    + by apply prefix_app_r.
    + by destruct r0.
Qed.







(** [Setup] comes first, [Teardown] last if at all, and a run that ends in
    [runtime.Goexit] ends on an event its goroutine stops at. *)
Lemma RunSubTests_Setup_Teardown fuel t st r st' evs :
  RunSubTests gt fuel t st = (r, st', evs) ->
  exists r0 mid fin,
    evs = EvSetup t r0 :: mid ++ fin
    /\ Forall (fun ev => is_Setup ev = false /\ is_Teardown ev = false) mid
    /\ (fin = [] \/ fin = [EvTeardown t r])
    /\ (r = Ret tt -> r0 = Ret tt /\ fin = [EvTeardown t (Ret tt)])
    /\ (r = Goexit -> exists evs' ev, evs = evs' ++ [ev] /\ stop_event t ev).
Proof.
  intros Hb.
  assert (r = Goexit -> exists evs' ev, evs = evs' ++ [ev] /\ stop_event t ev) as Hstop.
  { intros ->. revert Hb. unfold RunSubTests.
    apply stops_at_bind; [by apply stops_at_call|]. intros _.
    apply stops_at_bind; [apply RunSubTests_loop_stops_at|]. intros _.
    by apply stops_at_call. }
  unfold RunSubTests in Hb.
  apply bind_inv in Hb as [(a & st1 & e1 & e2 & Hsetup & Hk & ->)|(r0 & Hsetup & Hr0 & ->)].
  2:{ unfold call in Hsetup. destruct (Setup gt t (world st)) as [rs w].
      injection Hsetup as -> <- <-. exists r0, [], [].
      split_and!; [done|constructor|by left|by destruct r0|done]. }
  unfold call in Hsetup. destruct (Setup gt t (world st)) as [rs w].
  injection Hsetup as -> <- <-. destruct a.
  assert (forall methods evs,
             Forall (case_event t methods) evs ->
             Forall (fun ev : Event Instance V =>
                       is_Setup ev = false /\ is_Teardown ev = false) evs) as Hmid.
  { intros methods evs0 HF. eapply Forall_impl; [exact HF|].
    intros ev. by destruct ev. }
  apply bind_inv in Hk as [(a0 & st2 & e3 & e4 & Hloop & Hk & ->)|(r0 & Hloop & Hr0 & ->)].
  - destruct (RunSubTests_loop_subunits _ _ _ _ _ _ _ Hloop) as (HF & _ & _).
    unfold call in Hk. destruct (Teardown gt t (world st2)) as [rt' w'].
    injection Hk as -> <- <-.
    exists (Ret tt), e3, [EvTeardown t r].
    split_and!; [done|by eapply Hmid|by right| |done].
    intros ->. done.
  - destruct (RunSubTests_loop_subunits _ _ _ _ _ _ _ Hloop) as (HF & _ & _).
    exists (Ret tt), e2, []. rewrite app_nil_r.
    split_and!; [done|by eapply Hmid|by left|by destruct r0|done].
Qed.

(** C7.  [Setup] is the first thing a run does and is called once.
    [Teardown] is called at most once, as the last thing; it is called
    whenever [RunSubTests] gets to the end of its loop, which happens
    unless the goroutine of [RunSubTests] itself is stopped or the test
    binary panics.  Every run that ends in [runtime.Goexit] ends on a fatal
    report against the handle of the group or on a [Construct], [Destruct],
    [Setup] or [Teardown] that gave up on that handle; and whenever one of
    these is seen, the run ends there, so that [Teardown] is not called
    after it.  A case body or a hook that gives up does so on the handle of
    its sub-unit, and the run goes on to [Teardown]; a [Destruct] that
    gives up is called inside the sub-unit too, but with the handle of the
    group, and ends the run before [Teardown]. *)
Theorem Setup_first_Teardown_last fuel t st r st' evs :
  RunSubTests gt fuel t st = (r, st', evs) ->
  exists r0 mid fin,
    evs = EvSetup t r0 :: mid ++ fin
    /\ Forall (fun ev => is_Setup ev = false /\ is_Teardown ev = false) mid
    /\ (fin = [] \/ fin = [EvTeardown t r])
    /\ (r = Ret tt -> r0 = Ret tt /\ fin = [EvTeardown t (Ret tt)])
    /\ (r = Goexit -> exists evs' ev, evs = evs' ++ [ev] /\ stop_event t ev)
    /\ (forall ev, In ev evs -> stop_event t ev ->
        r = Goexit
        /\ exists evs', evs = evs' ++ [ev]
                        /\ Forall (fun ev' => ~ stop_event t ev') evs')
    /\ (Forall (fun ev => ~ stop_event t ev) evs -> r <> Panic -> r <> OutOfFuel ->
        fin = [EvTeardown t (Ret tt)]).
Proof.
  intros Hb.
  destruct (RunSubTests_Setup_Teardown _ _ _ _ _ _ Hb)
    as (r0 & mid & fin & Heq & Hmid & Hfin & Hret & Hstop).
  exists r0, mid, fin. split_and!; try done.
  - intros ev Hin Hev.
    destruct (RunSubTests_ends_on_stop _ _ _ _ _ _ Hb)
      as [Hq|(-> & evs' & ev0 & Hevs & Hq & Hev0)].
    + rewrite List.Forall_forall in Hq. by apply Hq in Hin.
    + split; [done|]. exists evs'. rewrite Hevs in Hin.
      apply in_app_iff in Hin as [Hin|[->|[]]]; [|done].
      rewrite List.Forall_forall in Hq. by apply Hq in Hin.
  - intros Hq Hp Ho. destruct r as [[]| | |]; [by apply Hret| |done|done].
    destruct (Hstop eq_refl) as (evs' & ev & Hevs & Hev).
    rewrite Hevs in Hq. apply Forall_app in Hq as [_ Hq].
    apply Forall_inv in Hq. done.
Qed.


(** *** An unregistered fixture *)

Lemma bind_Ret_eq {A B : Type} (m : M A) (k : A -> M B) st a st1 e1 r st2 e2 :
  m st = (Ret a, st1, e1) -> k a st1 = (r, st2, e2) ->
  bind m k st = (r, st2, e1 ++ e2).
Proof. intros Hm Hk. unfold bind. by rewrite Hm, Hk. Qed.

Lemma bind_quiet_eq {A B : Type} (m : M A) (k : A -> M B) st a st1 res :
  m st = (Ret a, st1, []) -> k a st1 = res -> bind m k st = res.
Proof. intros Hm Hk. unfold bind. rewrite Hm, Hk. by destruct res as [[? ?] ?]. Qed.

Lemma bind_Goexit_eq {A B : Type} (m : M A) (k : A -> M B) st st1 e1 :
  m st = (Goexit, st1, e1) -> bind m k st = (Goexit, st1, e1).
Proof. intros Hm. unfold bind. by rewrite Hm. Qed.

Lemma for_each_app_Ret {A S : Type} (body : A -> S -> M S) l1 l2 s st s1 st1 e1 :
  for_each body l1 s st = (Ret s1, st1, e1) ->
  for_each body (l1 ++ l2) s st
  = match for_each body l2 s1 st1 with (r, st2, e2) => (r, st2, e1 ++ e2) end.
Proof.
  revert s st e1. induction l1 as [|a l1 IH]; intros s st e1; simpl.
  - unfold ret. intros [= <- <- <-]. by destruct (for_each body l2 s st) as [[? ?] ?].
  - intros Hb. bind_Ret Hb. subst e1.
    unfold bind at 1. rewrite Hm, (IH _ _ _ Hk).
    destruct (for_each body l2 s1 st1) as [[? ?] ?]. by rewrite app_assoc.
Qed.

Lemma RunSubTests_loop_app_Ret fuel t methods1 methods2 st st1 e1 :
  RunSubTests_loop gt fuel t methods1 st = (Ret tt, st1, e1) ->
  RunSubTests_loop gt fuel t (methods1 ++ methods2) st
  = match RunSubTests_loop gt fuel t methods2 st1 with
    | (r, st2, e2) => (r, st2, e1 ++ e2)
    end.
Proof.
  revert st e1. induction methods1 as [|a l1 IH]; intros st e1; simpl.
  - unfold ret. intros [= <- <-].
    by destruct (RunSubTests_loop gt fuel t methods2 st) as [[? ?] ?].
  - intros Hb. bind_Ret Hb. subst e1.
    unfold bind at 1. rewrite Hm, (IH _ _ Hk).
    destruct (RunSubTests_loop gt fuel t methods2 st1) as [[? ?] ?].
    by rewrite app_assoc.
Qed.

(** C3.  When the fixtures struct of a test case has a field whose tag
    names a fixture that is not registered, and the fields before it
    resolve, the resolution reports [UnregisteredFixture] against the
    handle of the group and ends the goroutine of [RunSubTests] there: the
    run ends in [runtime.Goexit] with that report as its last event, the
    sub-units that were started are those of the methods before the case,
    and [Teardown] is not called. *)
Theorem unregistered_fixture_stops_the_run
    fuel t st w methods1 method methods2 st1 evs1 recv arg1 fixturesType
    fields1 field fields2 sv st2 evs2 tags fixgureTag :
  Setup gt t (world st) = (Ret tt, w) ->
  reflect.Methods (gtType gt) = methods1 ++ method :: methods2 ->
  RunSubTests_loop gt (S fuel) t methods1 (mkState w (Resolved st) (cleanUpCbs st))
    = (Ret tt, st1, evs1) ->
  HasPrefix (reflect.MethodName method) testMethodPrefix = true ->
  reflect.MethodIns method = [recv; arg1; fixturesType] ->
  reflect.TypeString arg1 = "*testing.T" ->
  reflect.TypeKind fixturesType = reflect.Struct ->
  reflect.Fields fixturesType = fields1 ++ field :: fields2 ->
  for_each (resolve_field (resolve fuel) t fixturesType (reflect.MethodName method))
           fields1 ∅ (mkState (world st1) ∅ [])
    = (Ret sv, st2, evs2) ->
  structtag_Parse (reflect.FieldTag field) = Some tags ->
  Get tags "fixture" = Some fixgureTag ->
  registeredFixtures !! Name fixgureTag = None ->
  let evs := EvSetup t (Ret tt) :: evs1 ++ evs2
             ++ [EvFatalf t (UnregisteredFixture (reflect.MethodName method) fixgureTag)] in
  RunSubTests gt (S fuel) t st = (Goexit, st2, evs)
  /\ subunits evs = subtest_names methods1
  /\ Forall (fun ev => is_Teardown ev = false) evs.
Proof.
  intros Hsetup Hmethods Hloop Hp Hins Harg1 Hkind Hfields Hfor Hparse Hget Hreg evs.
  assert (resolve (S fuel) t fixturesType (reflect.MethodName method)
                  (mkState (world st1) ∅ [])
          = (Goexit, st2,
             evs2 ++ [EvFatalf t (UnregisteredFixture (reflect.MethodName method)
                                    fixgureTag)])) as Hres.
  { simpl. rewrite Hkind, bool_decide_eq_true_2 by done. simpl.
    rewrite Hfields, (for_each_app_Ret _ _ _ _ _ _ _ _ Hfor). simpl.
    unfold bind, resolve_field. rewrite Hparse, Hget, Hreg. done. }
  assert (RunSubTests_method gt (S fuel) t method st1
          = (Goexit, st2,
             evs2 ++ [EvFatalf t (UnregisteredFixture (reflect.MethodName method)
                                    fixgureTag)])) as Hmethod.
  { unfold RunSubTests_method.
    eapply bind_quiet_eq; [reflexivity|]. rewrite Hp. simpl.
    eapply bind_quiet_eq; [reflexivity|]. simpl.
    unfold reflect.NumIn, reflect.In_. rewrite Hins. simpl.
    eapply bind_quiet_eq; [reflexivity|]. simpl.
    rewrite Harg1, bool_decide_eq_true_2 by done. simpl.
    eapply bind_quiet_eq; [reflexivity|]. simpl.
    apply bind_Goexit_eq. apply bind_Goexit_eq. exact Hres. }
  assert (RunSubTests_loop gt (S fuel) t (reflect.Methods (gtType gt))
                           (mkState w (Resolved st) (cleanUpCbs st))
          = (Goexit, st2,
             evs1 ++ evs2
             ++ [EvFatalf t (UnregisteredFixture (reflect.MethodName method)
                               fixgureTag)])) as Hwhole.
  { rewrite Hmethods, (RunSubTests_loop_app_Ret _ _ _ _ _ _ _ Hloop). simpl.
    by rewrite (bind_Goexit_eq _ _ _ _ _ Hmethod). }
  destruct (RunSubTests_loop_subunits _ _ _ _ _ _ _ Hloop) as (HF1 & _ & Hsub1).
  assert (Forall (resolve_event t) evs2) as HF2.
  { eapply for_each_events; [|exact Hfor]. intros fld sv0 st0 r0 st0' evs0.
    apply resolve_field_events. intros ? ? ? ? ? ? ?. apply resolve_events. }
  split_and!.
  - unfold RunSubTests.
    change evs with ([EvSetup (Instance := Instance) (V := V) t (Ret tt)]
                     ++ evs1 ++ evs2
                     ++ [EvFatalf t (UnregisteredFixture (reflect.MethodName method)
                                       fixgureTag)]).
    eapply bind_Ret_eq; [unfold call; by rewrite Hsetup|].
    apply bind_Goexit_eq. exact Hwhole.
  - unfold evs.
    change (EvSetup t (Ret tt) :: evs1 ++ evs2 ++ ?l)
      with ([EvSetup (Instance := Instance) (V := V) t (Ret tt)] ++ evs1 ++ evs2 ++ l).
    rewrite <- !subunits_app, (Hsub1 eq_refl), (subunits_resolve_events _ _ HF2).
    simpl. by rewrite app_nil_r.
  - unfold evs. constructor; [done|]. apply Forall_app. split.
    + eapply Forall_impl; [exact HF1|]. intros ev. by destruct ev.
    + apply Forall_app. split; [|by repeat constructor].
      eapply Forall_impl; [exact HF2|]. intros ev. by destruct ev.
Qed.

(** *** Fuel *)

Lemma extends_refl {A : Type} (m : M A) : extends m m.
Proof. by intros st r st' evs. Qed.

Lemma extends_bind {A B : Type} (m1 m2 : M A) (k1 k2 : A -> M B) :
  extends m1 m2 -> (forall a, extends (k1 a) (k2 a)) ->
  extends (bind m1 k1) (bind m2 k2).
Proof.
  intros Hm Hk st r st' evs Hb Hr.
  apply bind_inv in Hb as [(a & st1 & e1 & e2 & Hm1 & Hk1 & ->)|(r0 & Hm1 & Hr0 & ->)].
  - unfold bind. rewrite (Hm _ _ _ _ Hm1) by done. by rewrite (Hk _ _ _ _ _ Hk1).
  - unfold bind. rewrite (Hm _ _ _ _ Hm1) by (by destruct r0). by destruct r0.
Qed.

Lemma extends_for_each {A S : Type} (body1 body2 : A -> S -> M S) l s :
  (forall a s, extends (body1 a s) (body2 a s)) ->
  extends (for_each body1 l s) (for_each body2 l s).
Proof.
  intros Hbody. revert s. induction l as [|a l IH]; intros s; simpl.
  - apply extends_refl.
  - apply extends_bind; [apply Hbody|apply IH].
Qed.

(** With more fuel [resolve] does the same, wherever it did not run out. *)
Lemma resolve_more_fuel fuel t fixturesType caller :
  extends (resolve fuel t fixturesType caller) (resolve (S fuel) t fixturesType caller).
Proof.
  revert t fixturesType caller.
  induction fuel as [|fuel IH]; intros t ty caller.
  { intros st r st' evs. simpl. unfold stop. by intros [= <- _ _]. }
  change (resolve (S (S fuel)) t ty caller)
    with (let kind := reflect.TypeKind ty in
          if negb (bool_decide (kind = reflect.Struct))
          then Fatalf t (NotStruct (reflect.Kind_to_Z kind))
          else for_each (resolve_field (resolve (S fuel)) t ty caller)
                        (reflect.Fields ty) ∅).
  simpl. destruct (negb _); [apply extends_refl|].
  apply extends_for_each. intros field sv. unfold resolve_field.
  destruct (structtag_Parse _) as [tags|]; [|apply extends_refl].
  destruct (Get tags "fixture") as [tg|]; [|apply extends_refl].
  destruct (registeredFixtures !! Name tg) as [fentry|]; [|apply extends_refl].
  apply extends_bind; [apply extends_refl|]. intros cached.
  apply extends_bind; [|intros ?; apply extends_refl].
  destruct cached; [apply extends_refl|]. unfold construct.
  destruct (reflect.MethodByName _ _) as [m|]; [|apply extends_refl].
  destruct (reflect.In_ m 2) as [in2|]; [|apply extends_refl].
  apply extends_bind; [apply IH|intros ?; apply extends_refl].
Qed.

End Proofs.

(** ** Registration *)

Lemma validateFixtureDestructMethod_None fType :
  validateFixtureDestructMethod fType = None <->
  exists destructMethod recv arg1 arg2,
    reflect.MethodByName fType "Destruct" = Some destructMethod
    /\ reflect.MethodIns destructMethod = [recv; arg1; arg2]
    /\ reflect.TypeString arg1 = "*testing.T"
    /\ reflect.TypeString arg2 = "interface {}".
Proof.
  unfold validateFixtureDestructMethod, reflect.NumIn, reflect.In_.
  destruct (reflect.MethodByName fType "Destruct") as [m|];
    [|split; [done|by intros (? & ? & ? & ? & ? & _)]].
  destruct (Z.of_nat (length (reflect.MethodIns m)) =? 3) eqn:Hn; simpl.
  2:{ split; [done|]. intros (? & ? & ? & ? & ? & Hins & _). simplify_eq.
      by rewrite Hins in Hn. }
  apply Z.eqb_eq in Hn.
  destruct (reflect.MethodIns m) as [|recv [|arg1 [|arg2 [|x ins]]]] eqn:Hins;
    simpl in Hn; try lia. simpl.
  destruct (decide (reflect.TypeString arg1 = "*testing.T")) as [H1|H1];
    [rewrite (bool_decide_eq_true_2 _ H1)|rewrite (bool_decide_eq_false_2 _ H1)];
    simpl.
  2:{ split; [done|]. intros (? & ? & ? & ? & ? & ? & ? & ?). exfalso. congruence. }
  destruct (decide (reflect.TypeString arg2 = "interface {}")) as [H2|H2];
    [rewrite (bool_decide_eq_true_2 _ H2)|rewrite (bool_decide_eq_false_2 _ H2)];
    simpl.
  2:{ split; [done|]. intros (? & ? & ? & ? & ? & ? & ? & ?). exfalso. congruence. }
  split; [intros _; by exists m, recv, arg1, arg2|by intros _].
Qed.

(** Whatever the specification asks of [Destruct] about its presence and
    its parameters is checked: a type that fails it in one of these is
    turned away with an error of the [InvalidContract] kind. *)
Lemma validateFixtureDestructMethod_rejects fType :
  (forall destructMethod,
      reflect.MethodByName fType "Destruct" = Some destructMethod ->
      reflect.MethodOuts destructMethod = []) ->
  destruct_contract_of_spec fType = false ->
  exists err, validateFixtureDestructMethod fType = Some err
              /\ classify err = InvalidContract.
Proof.
  intros Houts Hspec.
  destruct (validateFixtureDestructMethod fType) as [err|] eqn:Hv.
  - exists err. split; [done|].
    unfold validateFixtureDestructMethod in Hv.
    repeat (match type of Hv with
            | context [match ?x with _ => _ end] => destruct x
            end; simplify_eq; try done).
  - apply validateFixtureDestructMethod_None in Hv
      as (m & recv & arg1 & arg2 & Hm & Hins & H1 & H2).
    unfold destruct_contract_of_spec in Hspec.
    rewrite Hm, Hins, (Houts _ Hm) in Hspec.
    by rewrite !bool_decide_eq_true_2 in Hspec.
Qed.

(** C4.  A fixture type whose [Destruct] takes the execution handle and an
    opaque context and returns an [error] does not have the shape the
    specification asks for, and still passes [validateFixtureDestructMethod]
    and is registered: the number of results of [Destruct] is never looked
    at, while [validateFixtureConstructMethod] does look at that of
    [Construct]. *)
Theorem RegisterFixture_accepts_Destruct_with_result :
  destruct_contract_of_spec Demo.FixtureDestructReturnsError = false
  /\ validateFixtureDestructMethod Demo.FixtureDestructReturnsError = None
  /\ RegisterFixture Demo.TypeOf "Foo" 7%nat ScopeCall ∅
     = (None, {["Foo" := mkFixtureEntry ScopeCall 7%nat]}).
Proof. split_and!; vm_compute; reflexivity. Qed.

(** C6.  Registering under a name that is taken fails with an error of the
    [DuplicateName] kind and leaves the registry as it was; the entry
    under that name, with its scope and its instance, is still the first
    one. *)
Theorem RegisterFixture_duplicate_name
    {Instance : Type} `{Countable Instance} (TypeOf : Instance -> Type_)
    (registeredFixtures : gmap string (FixtureEntry Instance))
    (name : string) (f : Instance) (scope : FixtureScope) (entry : FixtureEntry Instance) :
  registeredFixtures !! name = Some entry ->
  exists err,
    RegisterFixture TypeOf name f scope registeredFixtures
      = (Some err, registeredFixtures)
    /\ classify err = DuplicateName
    /\ GetFixture name (RegisterFixture TypeOf name f scope registeredFixtures).2
       = Some entry.
Proof.
  intros Hreg. exists (AlreadyRegistered name (Scope entry)).
  unfold RegisterFixture, GetFixture. rewrite Hreg. done.
Qed.

Lemma RegisterFixture_duplicate_name_witness :
  exists err,
    RegisterFixture Demo.TypeOf "UserId" 1%nat ScopeSubTest Demo.registry
      = (Some err, Demo.registry)
    /\ classify err = DuplicateName
    /\ GetFixture "UserId"
         (RegisterFixture Demo.TypeOf "UserId" 1%nat ScopeSubTest Demo.registry).2
       = Some (mkFixtureEntry ScopeCall 1%nat).
Proof.
  apply (RegisterFixture_duplicate_name Demo.TypeOf Demo.registry "UserId" 1%nat
           ScopeSubTest (mkFixtureEntry ScopeCall 1%nat)).
  vm_compute. reflexivity.
Defined.

(** ** The theorems at work on the package's own tests *)

Ltac by_computation := apply (bool_decide_unpack _); vm_compute; exact I.





Lemma unregistered_fixture_stops_the_run_witness :
  (RunSubTests (rt := Demo.rt) Demo.MissingFixtureTests 2 testing.Main Demo.st0).1.1
  = Goexit.
Proof.
  destruct (for_each
              (resolve_field (rt := Demo.rt) (resolve (rt := Demo.rt) 1) testing.Main
                             Demo.missing "SubTestApi")
              [MkField "Dir" "" Demo.stringT (Demo.fixture_tag "TmpDir")] ∅
              (mkState (Demo.mkWorld 0 0 0) ∅ [])) as [[r st2] evs2] eqn:E.
  pose proof E as E0. vm_compute in E0.
  destruct r as [sv| | |]; try discriminate E0. clear E0.
  destruct (unregistered_fixture_stops_the_run (rt := Demo.rt) Demo.MissingFixtureTests
              1 testing.Main Demo.st0 (Demo.mkWorld 0 0 0) Demo.hooks
              (Demo.groupMethod "SubTestApi" [testing_T; Demo.missing])
              [Demo.groupMethod "SubTestRunTest" [testing_T];
               Demo.groupMethod "Teardown" [testing_T]]
              (mkState (Demo.mkWorld 0 0 0) ∅ []) []
              Demo.groupRecv testing_T Demo.missing
              [MkField "Dir" "" Demo.stringT (Demo.fixture_tag "TmpDir")]
              (MkField "Srv" "" Demo.stringT (Demo.fixture_tag "MockApiServer")) []
              sv st2 evs2 [mkTag "fixture" "MockApiServer" []]
              (mkTag "fixture" "MockApiServer" [])) as (Hrun & _).
  - reflexivity.
  - reflexivity.
  - vm_compute. reflexivity.
  - vm_compute. reflexivity.
  - reflexivity.
  - reflexivity.
  - reflexivity.
  - reflexivity.
  - exact E.
  - vm_compute. reflexivity.
  - vm_compute. reflexivity.
  - vm_compute. reflexivity.
  - by rewrite Hrun.
Defined.

(** The case of [MissingFixtureTests] that asks for a fixture nobody
    registered is reported against the handle of the group, and that is
    the end of the run: no sub-unit is started, neither for that case nor
    for [SubTestRunTest] after it, and [Teardown] is not called. *)
Lemma unregistered_fixture_ends_the_group :
  (RunSubTests (rt := Demo.rt) Demo.MissingFixtureTests 2 testing.Main Demo.st0).1.1
  = Goexit
  /\ map label
         (RunSubTests (rt := Demo.rt) Demo.MissingFixtureTests 2 testing.Main Demo.st0).2
     = ["Setup"; "Construct"; "Fatalf"]
  /\ last (RunSubTests (rt := Demo.rt) Demo.MissingFixtureTests 2 testing.Main Demo.st0).2
     = Some (EvFatalf testing.Main
               (UnregisteredFixture "SubTestApi" (mkTag "fixture" "MockApiServer" [])))
  /\ subtest_names (reflect.Methods (gtType Demo.MissingFixtureTests))
     = ["Api"; "RunTest"].
Proof. split_and!; vm_compute; reflexivity. Qed.



Lemma Setup_first_Teardown_last_witness :
  exists mid,
    (RunSubTests (rt := Demo.rt) Demo.FailingTests 2 testing.Main Demo.st0).2
    = EvSetup testing.Main (Ret tt) :: mid ++ [EvTeardown testing.Main (Ret tt)]
    /\ Forall (fun ev => is_Setup ev = false /\ is_Teardown ev = false) mid.
Proof.
  destruct (RunSubTests (rt := Demo.rt) Demo.FailingTests 2 testing.Main Demo.st0)
    as [[r st'] evs] eqn:E.
  pose proof E as E0. vm_compute in E0. injection E0 as Hr Hst Hevs. clear Hst Hevs.
  destruct (Setup_first_Teardown_last (rt := Demo.rt) Demo.FailingTests 2 testing.Main
              Demo.st0 r st' evs E) as (r0 & mid & fin & Heq & HF & _ & Hret & _).
  destruct (Hret (eq_sym Hr)) as [-> ->].
  exists mid. split; [exact Heq|exact HF].
Defined.

(** The first case of [BrokenFixtureTests] needs a fixture whose
    [Construct] gives up with [t.Fatal] on the handle it is given, the
    handle of the group: the run ends there, [Teardown] is not called, and
    the second case is not run. *)
Lemma failed_Construct_skips_Teardown :
  (RunSubTests (rt := Demo.rt) Demo.BrokenFixtureTests 2 testing.Main Demo.st0).1.1
  = Goexit
  /\ (RunSubTests (rt := Demo.rt) Demo.BrokenFixtureTests 2 testing.Main Demo.st0).2
     = [EvSetup testing.Main (Ret tt); EvConstruct 8%nat testing.Main ∅ Goexit]
  /\ length (List.filter is_Teardown
               (RunSubTests (rt := Demo.rt) Demo.BrokenFixtureTests 2 testing.Main
                            Demo.st0).2) = 0%nat
  /\ subtest_names (reflect.Methods (gtType Demo.BrokenFixtureTests))
     = ["Broken"; "RunTest"].
Proof. split_and!; vm_compute; reflexivity. Qed.

(** The first case of [DirTests] takes a temporary directory, and here the
    [Destruct] of that fixture gives up with [t.Fatal] on the handle it is
    given, the handle of the group.  It is called inside the sub-unit,
    after the case body: the sub-unit ends there, [t.Run] does not return,
    [AfterEach] and [Teardown] are not called and the second case is not
    run.  With a [Destruct] that returns, the same group runs on to its
    [Teardown]. *)
Lemma failed_Destruct_skips_Teardown :
  (RunSubTests (rt := Cases.rt_Destruct_gives_up) Cases.DirTests 2 testing.Main
               Demo.st0).1.1
  = Goexit
  /\ map label
         (RunSubTests (rt := Cases.rt_Destruct_gives_up) Cases.DirTests 2 testing.Main
                      Demo.st0).2
     = ["Setup"; "Construct"; "Run"; "BeforeEach"; "Test"; "Destruct"]
  /\ last (RunSubTests (rt := Cases.rt_Destruct_gives_up) Cases.DirTests 2 testing.Main
                       Demo.st0).2
     = Some (EvDestruct 4%nat testing.Main (Demo.Str "/tmp/gtest" 1) Goexit)
  /\ length (List.filter is_Teardown
               (RunSubTests (rt := Cases.rt_Destruct_gives_up) Cases.DirTests 2
                            testing.Main Demo.st0).2) = 0%nat
  /\ subtest_names (reflect.Methods (gtType Cases.DirTests)) = ["Dir"; "RunTest"]
  /\ (RunSubTests (rt := Demo.rt) Cases.DirTests 2 testing.Main Demo.st0).1.1 = Ret tt
  /\ last (RunSubTests (rt := Demo.rt) Cases.DirTests 2 testing.Main Demo.st0).2
     = Some (EvTeardown testing.Main (Ret tt)).
Proof. split_and!; vm_compute; reflexivity. Qed.


Lemma constructs_before_the_subunit_witness :
  exists pre r0 inner fin,
    (RunSubTests_method (rt := Demo.rt) Demo.GTestTests 2 testing.Main
       (Demo.groupMethod "SubTestSubTestScopedFixture" [testing_T; Demo.threeDirs])
       Demo.st0).2
    = pre ++ EvRun testing.Main "SubTestScopedFixture"
          :: EvBeforeEach (testing.Sub testing.Main "SubTestScopedFixture") r0
          :: inner ++ fin
    /\ Forall (resolve_event testing.Main) pre
    /\ Forall (subunit_event testing.Main "SubTestScopedFixture"
                             "SubTestSubTestScopedFixture") inner.
Proof.
  destruct (RunSubTests_method (rt := Demo.rt) Demo.GTestTests 2 testing.Main
              (Demo.groupMethod "SubTestSubTestScopedFixture" [testing_T; Demo.threeDirs])
              Demo.st0) as [[r st'] evs] eqn:E.
  pose proof E as E0. vm_compute in E0. injection E0 as Hr Hst Hevs.
  destruct (constructs_before_the_subunit (rt := Demo.rt) Demo.GTestTests 2 testing.Main
              (Demo.groupMethod "SubTestSubTestScopedFixture" [testing_T; Demo.threeDirs])
              Demo.st0 r st' evs E) as (pre & sub & Heq & Hpre & Hsub).
  destruct Hsub as [->|(r0 & inner & fin & -> & Hfin & Hinner & _)].
  { exfalso. rewrite app_nil_r in Heq. subst pre. rewrite <- Hevs in Hpre.
    apply Forall_cons in Hpre as [_ Hpre]. by apply Forall_cons in Hpre as [? _]. }
  exists pre, r0, inner, fin. simpl. done.
Defined.

(** In the sub-unit of [SubTestSubTestScopedFixture] the first thing to run
    is [BeforeEach], which is neither the case body nor a clean-up action
    nor [AfterEach]. *)
Lemma BeforeEach_runs_inside_the_subunit :
  exists pre inner,
    (RunSubTests_method (rt := Demo.rt) Demo.GTestTests 2 testing.Main
       (Demo.groupMethod "SubTestSubTestScopedFixture" [testing_T; Demo.threeDirs])
       Demo.st0).2
    = pre ++ EvRun testing.Main "SubTestScopedFixture"
          :: inner ++ [EvRunEnd testing.Main "SubTestScopedFixture"]
    /\ head inner
       = Some (EvBeforeEach (testing.Sub testing.Main "SubTestScopedFixture") (Ret tt))
    /\ forallb body_cleanup_or_AfterEach inner = false
    /\ map label inner = ["BeforeEach"; "Test"; "Destruct"; "AfterEach"].
Proof.
  destruct (RunSubTests_method (rt := Demo.rt) Demo.GTestTests 2 testing.Main
              (Demo.groupMethod "SubTestSubTestScopedFixture" [testing_T; Demo.threeDirs])
              Demo.st0) as [[r st'] evs] eqn:E.
  vm_compute in E. injection E as Hr Hst Hevs.
  match type of Hevs with
  | [?e1; _; ?e3; ?e4; ?e5; ?e6; _] = _ => exists [e1], [e3; e4; e5; e6]
  end.
  rewrite <- Hevs. split_and!; reflexivity.
Qed.

(** ** Further properties: the registry *)

Section RegistryProperties.

Context {Instance : Type} `{Countable Instance}.
Variable TypeOf : Instance -> Type_.

Implicit Types (reg : gmap string (FixtureEntry Instance)).

Lemma RegisterFixture_cases name f scope reg :
  (exists err, RegisterFixture TypeOf name f scope reg = (Some err, reg)
               /\ (is_Some (reg !! name) \/ valid_fixture (TypeOf f) = false))
  \/ (RegisterFixture TypeOf name f scope reg
        = (None, <[name := mkFixtureEntry scope f]> reg)
      /\ reg !! name = None /\ valid_fixture (TypeOf f) = true).
Proof.
  unfold RegisterFixture, valid_fixture.
  destruct (reg !! name) as [entry|]; [left; eauto|].
  destruct (validateFixtureConstructMethod (TypeOf f)) as [err|]; [left; eauto|].
  destruct (validateFixtureDestructMethod (TypeOf f)) as [err|]; [left; eauto|].
  by right.
Qed.

(** X1.  A registration that succeeds can be read back: [GetFixture] gives the
    scope and the instance registered, the name was free before, and no
    other name is touched. *)
Theorem RegisterFixture_then_GetFixture name f scope reg reg' :
  RegisterFixture TypeOf name f scope reg = (None, reg') ->
  GetFixture name reg' = Some (mkFixtureEntry scope f)
  /\ GetFixture name reg = None
  /\ (forall name', name' <> name -> GetFixture name' reg' = GetFixture name' reg).
Proof.
  intros Hreg. unfold GetFixture.
  destruct (RegisterFixture_cases name f scope reg) as [(err & Heq & _)|(Heq & Hfree & _)];
    rewrite Heq in Hreg; [done|].
  injection Hreg as <-. split_and!.
  - by rewrite lookup_insert_eq.
  - done.
  - intros name' Hne. by rewrite lookup_insert_ne.
Qed.

(** X2.  [RegisterFixture] returns [nil] exactly when the name is free and the
    type passes both validators; whenever it returns an error the registry
    is the one it was given, and in every case what was registered before
    stays registered as it was. *)
Theorem RegisterFixture_accepts_iff name f scope reg :
  ((RegisterFixture TypeOf name f scope reg).1 = None
   <-> reg !! name = None
       /\ validateFixtureConstructMethod (TypeOf f) = None
       /\ validateFixtureDestructMethod (TypeOf f) = None)
  /\ ((RegisterFixture TypeOf name f scope reg).1 <> None ->
      (RegisterFixture TypeOf name f scope reg).2 = reg)
  /\ reg ⊆ (RegisterFixture TypeOf name f scope reg).2.
Proof.
  unfold RegisterFixture.
  destruct (reg !! name) as [entry|] eqn:Hname; simpl.
  { split_and!; [split; [done|by intros [? _]]|done|done]. }
  destruct (validateFixtureConstructMethod (TypeOf f)) as [err|]; simpl.
  { split_and!; [split; [done|by intros (_ & ? & _)]|done|done]. }
  destruct (validateFixtureDestructMethod (TypeOf f)) as [err|]; simpl.
  { split_and!; [split; [done|by intros (_ & _ & ?)]|done|done]. }
  split_and!; [done|done|]. by apply insert_subseteq.
Qed.

(** X3.  [validateFixtureConstructMethod] returns [nil] exactly for a type with
    a method [Construct] that has two parameters after the receiver, the
    first printing as [*testing.T] and the second of kind struct, and two
    results. *)
Theorem validateFixtureConstructMethod_accepts_iff fType :
  validateFixtureConstructMethod fType = None <->
  exists constructMethod recv arg1 arg2 out1 out2,
    reflect.MethodByName fType "Construct" = Some constructMethod
    /\ reflect.MethodIns constructMethod = [recv; arg1; arg2]
    /\ reflect.MethodOuts constructMethod = [out1; out2]
    /\ reflect.TypeString arg1 = "*testing.T"
    /\ reflect.TypeKind arg2 = reflect.Struct.
Proof.
  unfold validateFixtureConstructMethod, reflect.NumIn, reflect.NumOut, reflect.In_.
  destruct (reflect.MethodByName fType "Construct") as [m|];
    [|split; [done|by intros (? & ? & ? & ? & ? & ? & ? & _)]].
  destruct (Z.of_nat (length (reflect.MethodIns m)) =? 3) eqn:Hn; simpl.
  2:{ split; [done|]. intros (? & ? & ? & ? & ? & ? & ? & Hins & _). simplify_eq.
      by rewrite Hins in Hn. }
  destruct (Z.of_nat (length (reflect.MethodOuts m)) =? 2) eqn:Hno; simpl.
  2:{ split; [done|]. intros (? & ? & ? & ? & ? & ? & ? & _ & Houts & _). simplify_eq.
      by rewrite Houts in Hno. }
  apply Z.eqb_eq in Hn. apply Z.eqb_eq in Hno.
  destruct (reflect.MethodIns m) as [|recv [|arg1 [|arg2 [|x ins]]]] eqn:Hins;
    simpl in Hn; try lia.
  destruct (reflect.MethodOuts m) as [|out1 [|out2 [|y outs]]] eqn:Houts;
    simpl in Hno; try lia. simpl.
  destruct (decide (reflect.TypeString arg1 = "*testing.T")) as [H1|H1];
    [rewrite (bool_decide_eq_true_2 _ H1)|rewrite (bool_decide_eq_false_2 _ H1)];
    simpl.
  2:{ split; [done|]. intros (? & ? & ? & ? & ? & ? & ? & ? & ? & ? & ?).
      exfalso. congruence. }
  destruct (decide (reflect.TypeKind arg2 = reflect.Struct)) as [H2|H2];
    [rewrite (bool_decide_eq_true_2 _ H2)|rewrite (bool_decide_eq_false_2 _ H2)];
    simpl.
  2:{ split; [done|]. intros (? & ? & ? & ? & ? & ? & ? & ? & ? & ? & ?).
      exfalso. congruence. }
  split; [intros _; by exists m, recv, arg1, arg2, out1, out2|by intros _].
Qed.

(** X4.  The registry keeps an invariant under [RegisterFixture], whatever the
    call returns: every registered instance has a type that passes both
    validators. *)
Theorem RegisterFixture_keeps_valid name f scope reg :
  map_Forall (fun _ entry => valid_fixture (TypeOf (Instance_ entry)) = true) reg ->
  map_Forall (fun _ entry => valid_fixture (TypeOf (Instance_ entry)) = true)
             (RegisterFixture TypeOf name f scope reg).2.
Proof.
  intros Hreg.
  destruct (RegisterFixture_cases name f scope reg) as [(err & -> & _)|(-> & _ & Hvalid)];
    [done|].
  simpl. by apply map_Forall_insert_2.
Qed.

Lemma init_inv calls reg r reg' :
  init TypeOf calls reg = (r, reg') ->
  reg ⊆ reg'
  /\ (map_Forall (fun _ entry => valid_fixture (TypeOf (Instance_ entry)) = true) reg ->
      map_Forall (fun _ entry => valid_fixture (TypeOf (Instance_ entry)) = true) reg')
  /\ (r = Registered ->
      NoDup (map (fun c => c.1.1) calls)
      /\ Forall (fun c => reg !! c.1.1 = None
                          /\ valid_fixture (TypeOf c.1.2) = true
                          /\ reg' !! c.1.1 = Some (mkFixtureEntry c.2 c.1.2)) calls).
Proof.
  revert reg. induction calls as [|[[name f] scope] calls IH]; intros reg; simpl.
  { intros [= <- <-]. split_and!; [done|done|]. intros _. split; constructor. }
  unfold MustRegisterFixture.
  destruct (RegisterFixture_cases name f scope reg) as [(err & -> & _)|(-> & Hfree & Hvalid)].
  { intros [= <- <-]. split_and!; done. }
  intros Hinit. apply IH in Hinit as (Hsub & Hinv & Hok).
  assert (reg ⊆ <[name:=mkFixtureEntry scope f]> reg) as Hins by by apply insert_subseteq.
  split_and!.
  - by etrans.
  - intros Hreg. apply Hinv. by apply map_Forall_insert_2.
  - intros Hr. destruct (Hok Hr) as [Hnd HF]. split.
    + constructor; [|done]. intros Hin. apply list_elem_of_In in Hin.
      rewrite List.Forall_forall in HF.
      apply in_map_iff in Hin as (c & Hc & Hin). apply HF in Hin as (Hnone & _).
      simpl in Hc. subst name. by simplify_map_eq.
    + constructor; simpl.
      * split_and!; [done|done|].
        eapply lookup_weaken; [|exact Hsub]. by rewrite lookup_insert_eq.
      * eapply Forall_impl; [exact HF|]. intros c (Hnone & ? & ?). split_and!; [|done|done].
        destruct (decide (c.1.1 = name)) as [Heq|Hne].
        -- rewrite Heq in Hnone. by simplify_map_eq.
        -- by rewrite lookup_insert_ne in Hnone.
Qed.

(** X5.  [MustRegisterFixture] returns exactly when [RegisterFixture] returns
    [nil], and then leaves the same registry; it panics with the error of
    [RegisterFixture] otherwise, and the registry is as before.  So after a
    [MustRegisterFixture] that returned, a second one under the same name
    panics, whatever it is given, and the first entry stays. *)
Theorem MustRegisterFixture_twice name f scope f2 scope2 reg reg' :
  MustRegisterFixture TypeOf name f scope reg = (Registered, reg') ->
  RegisterFixture TypeOf name f scope reg = (None, reg')
  /\ MustRegisterFixture TypeOf name f2 scope2 reg'
     = (PanicFailedToRegister (AlreadyRegistered name scope), reg')
  /\ GetFixture name reg' = Some (mkFixtureEntry scope f).
Proof.
  unfold MustRegisterFixture at 1.
  destruct (RegisterFixture_cases name f scope reg) as [(err & -> & _)|(Heq & _ & _)];
    [done|].
  rewrite Heq. intros [= <-]. split; [done|].
  unfold MustRegisterFixture, RegisterFixture, GetFixture.
  by rewrite lookup_insert_eq.
Qed.

(** X6.  An [init] made of [MustRegisterFixture] calls that returns has
    registered every one of its fixtures: the names were free and pairwise
    distinct, every type passed both validators, and every name leads to
    the scope and the instance it was registered with.  What was
    registered before the [init] is still there. *)
Theorem init_registers_all calls reg reg' :
  init TypeOf calls reg = (Registered, reg') ->
  NoDup (map (fun c => c.1.1) calls)
  /\ Forall (fun c => GetFixture c.1.1 reg = None
                      /\ valid_fixture (TypeOf c.1.2) = true
                      /\ GetFixture c.1.1 reg' = Some (mkFixtureEntry c.2 c.1.2)) calls
  /\ reg ⊆ reg'.
Proof.
  intros Hinit. apply init_inv in Hinit as (Hsub & _ & Hok).
  destruct (Hok eq_refl) as [Hnd HF]. done.
Qed.

End RegistryProperties.
(** ** Further properties: the resolver *)

Section ResolverProperties.

Context {Instance : Type} `{Countable Instance} {W V : Type}.
Context {rt : Runtime Instance W V}.

Implicit Types (st : State (Instance := Instance) (W := W) (V := V)).
Implicit Types (evs : list (Event Instance V)) (ev : Event Instance V).

Local Abbreviation finishes := (@finishes Instance _ _ W V).

Ltac bind_Ret H :=
  let a := fresh "a" in let st1 := fresh "st1" in
  let evs1 := fresh "evs1" in let evs2 := fresh "evs2" in
  let H1 := fresh "Hm" in let H2 := fresh "Hk" in let He := fresh "Hevs" in
  apply bind_Ret_inv in H as (a & st1 & evs1 & evs2 & H1 & H2 & He).

Lemma resolve_field_Ret_field rec t fixturesType caller field fixturesVal st sv st' evs :
  resolve_field rec t fixturesType caller field fixturesVal st = (Ret sv, st', evs) ->
  exists fentry fld d,
    entry_of field = Some fentry
    /\ reflect.FieldByName fixturesType (reflect.FieldName field) = Some fld
    /\ reflect.CanSet fld = true
    /\ sv = <[reflect.FieldName field := d]> fixturesVal.
Proof.
  unfold resolve_field, entry_of.
  destruct (structtag_Parse _) as [tags|]; [|done].
  destruct (Get tags "fixture") as [tg|]; [|done].
  destruct (registeredFixtures !! Name tg) as [fentry|]; [|done].
  intros Hb. bind_Ret Hb. bind_Ret Hk.
  destruct (reflect.FieldByName _ _) as [fld|]; [|done].
  destruct (reflect.CanSet fld) eqn:Hset; [|done].
  destruct (AssignableTo _ _); [|done].
  unfold ret in Hk0. simplify_eq. eauto 10.
Qed.

Lemma for_each_fields rec t fixturesType caller fields sv0 st sv st' evs :
  for_each (resolve_field rec t fixturesType caller) fields sv0 st = (Ret sv, st', evs) ->
  (forall name,
      is_Some (sv !! name)
      <-> is_Some (sv0 !! name) \/ In name (map reflect.FieldName fields))
  /\ Forall (fun field =>
               exists fentry fld,
                 entry_of field = Some fentry
                 /\ reflect.FieldByName fixturesType (reflect.FieldName field) = Some fld
                 /\ reflect.CanSet fld = true) fields.
Proof.
  revert sv0 st evs. induction fields as [|field fields IH]; intros sv0 st evs; simpl.
  { unfold ret. intros [= <- <- <-]. split; [|constructor]. intros name.
    split; [auto|by intros [?|[]]]. }
  intros Hb. bind_Ret Hb.
  apply resolve_field_Ret_field in Hm as (fentry & fld & d & Hentry & Hfld & Hset & ->).
  apply IH in Hk as [Hdom HF]. split.
  - intros name. rewrite Hdom.
    destruct (decide (name = reflect.FieldName field)) as [->|Hne].
    + rewrite lookup_insert_eq. split; [auto|eauto].
    + rewrite lookup_insert_ne by done. split; [tauto|]. intros [?|[?|?]]; auto. done.
  - constructor; eauto.
Qed.

Lemma FieldByName_distinct fixturesType field :
  distinct_fields fixturesType ->
  In field (reflect.Fields fixturesType) ->
  reflect.FieldByName fixturesType (reflect.FieldName field) = Some field.
Proof.
  unfold distinct_fields, reflect.FieldByName.
  induction (reflect.Fields fixturesType) as [|fld flds IH]; simpl; [done|].
  intros Hnd [->|Hin].
  - by rewrite bool_decide_eq_true_2.
  - apply NoDup_cons in Hnd as [Hnot Hnd].
    rewrite bool_decide_eq_false_2; [by apply IH|].
    intros Heq. apply Hnot. rewrite Heq. apply list_elem_of_In. by apply in_map.
Qed.

Lemma resolve_Ret_fields fuel t fixturesType caller st sv st' evs :
  resolve fuel t fixturesType caller st = (Ret sv, st', evs) ->
  reflect.TypeKind fixturesType = reflect.Struct
  /\ (forall name,
         is_Some (sv !! name)
         <-> In name (map reflect.FieldName (reflect.Fields fixturesType)))
  /\ Forall (fun field =>
               is_Some (entry_of field)
               /\ (exists fld,
                      reflect.FieldByName fixturesType (reflect.FieldName field) = Some fld
                      /\ reflect.CanSet fld = true)
               /\ (distinct_fields fixturesType -> reflect.CanSet field = true))
            (reflect.Fields fixturesType).
Proof.
  destruct fuel as [|fuel]; simpl; [done|].
  destruct (bool_decide (reflect.TypeKind fixturesType = reflect.Struct)) eqn:Hkind;
    simpl; [|done].
  apply bool_decide_eq_true in Hkind. intros Hfor.
  apply for_each_fields in Hfor as [Hdom HF]. split_and!; [done| |].
  - intros name. rewrite Hdom, lookup_empty. split; [intros [[? ?]|?]; done|auto].
  - rewrite List.Forall_forall in HF. apply List.Forall_forall. intros field Hin.
    destruct (HF _ Hin) as (fentry & fld & Hentry & Hfld & Hset).
    split_and!; [eauto|eauto|]. intros Hnd.
    rewrite (FieldByName_distinct _ _ Hnd Hin) in Hfld. by simplify_eq.
Qed.

(** X7.  A resolution that returns has filled the whole struct and nothing
    else: the value has a field for every field of the struct type and for
    no other name.  Every field is bound by its tag to a registered
    fixture, and can be set -- with field names pairwise distinct, as Go
    has them, every field is exported. *)
Theorem resolve_fills_every_field fuel t fixturesType caller st sv st' evs :
  resolve fuel t fixturesType caller st = (Ret sv, st', evs) ->
  reflect.TypeKind fixturesType = reflect.Struct
  /\ (forall name,
         is_Some (sv !! name)
         <-> In name (map reflect.FieldName (reflect.Fields fixturesType)))
  /\ Forall (fun field =>
               is_Some (entry_of field)
               /\ (exists fld,
                      reflect.FieldByName fixturesType (reflect.FieldName field) = Some fld
                      /\ reflect.CanSet fld = true)
               /\ (distinct_fields fixturesType -> reflect.CanSet field = true))
            (reflect.Fields fixturesType).
Proof. apply resolve_Ret_fields. Qed.

(** X8.  Whatever way it ends, [resolve] forgets nothing: a value in the
    resolver's map is still there, unchanged, and the clean-up list it was
    given is the beginning of the list it leaves. *)
Theorem resolve_never_forgets fuel t fixturesType caller st r st' evs :
  resolve fuel t fixturesType caller st = (r, st', evs) ->
  Resolved st ⊆ Resolved st' /\ cleanUpCbs st `prefix_of` cleanUpCbs st'.
Proof.
  revert t fixturesType caller st r st' evs.
  induction fuel as [|fuel IH]; intros t ty caller st r st' evs; simpl.
  { unfold stop. by intros [= <- <- <-]. }
  destruct (negb _). { unfold Fatalf. by intros [= <- <- <-]. }
  generalize (∅ : gmap string V) as sv0. revert st evs.
  induction (reflect.Fields ty) as [|field fields IHf]; intros st evs sv0; simpl.
  { unfold ret. by intros [= <- <- <-]. }
  assert (forall fentry st r st' evs,
             (Scope fentry = ScopeSubTest -> Resolved st !! Instance_ fentry = None) ->
             construct (resolve fuel) t fentry st = (r, st', evs) ->
             Resolved st ⊆ Resolved st' /\ cleanUpCbs st `prefix_of` cleanUpCbs st')
    as Hcons.
  { clear IHf. intros fentry st2 r2 st2' evs2 Hmiss. unfold construct.
    destruct (reflect.MethodByName _ _) as [m|] eqn:Hmeth;
      [|unfold stop; by intros [= <- <- <-]].
    destruct (reflect.In_ m 2) as [in2|] eqn:Hin2;
      [|unfold stop; by intros [= <- <- <-]].
    intros Hb.
    apply bind_inv in Hb as [(fx & st3 & e1 & e2 & Hrec & Hk & ->)|(r0 & Hrec & _ & _)];
      [|by eapply IH].
    assert (Scope fentry = ScopeSubTest -> Resolved st3 !! Instance_ fentry = None)
      as Hmiss3.
    { intros Hs. apply resolve_Resolving in Hrec as [_ D].
      apply eq_None_not_Some. intros Hsome.
      destruct (Resolving_grows _ _ _ _ _ _ _ _ D Hsome) as [Hold|Hpos].
      - rewrite (Hmiss Hs) in Hold. by destruct Hold.
      - assert (constructs (Instance_ fentry) e1 = 0%nat); [|lia].
        eapply Resolving_not_reentered; [|exact D|done].
        unfold Construct_fixtures. by rewrite Hmeth. }
    apply IH in Hrec as [Hsub Hpre].
    destruct (negb _); [unfold stop in Hk; by simplify_eq|].
    apply bind_inv in Hk as [(rets & st4 & e3 & e4 & Hcall & Hk & ->)|(r0 & Hcall & _ & _)].
    2:{ unfold call in Hcall. destruct (Construct _ _ _ _). by simplify_eq. }
    unfold call in Hcall. destruct (Construct _ _ _ _) as [rc w].
    injection Hcall as -> <- <-.
    destruct (zip_with mkValue _ _) as [|valVal [|ctxVal rest]];
      try (unfold stop in Hk; by simplify_eq).
    unfold append_cleanUpCbs in Hk.
    apply bind_inv in Hk as [(a2 & st5 & e5 & e6 & Hap & Hk & ->)|(r0 & Hap & Hr0 & _)];
      [|simpl in Hap; by simplify_eq].
    injection Hap as <- <- <-. simpl in Hk.
    assert (st2' = mkState w
                     (if decide (Scope fentry = ScopeSubTest)
                      then <[Instance_ fentry := valVal]> (Resolved st3)
                      else Resolved st3)
                     (cleanUpCbs st3 ++ [mkCleanup (Instance_ fentry) t ctxVal]))
      as ->.
    { apply bind_inv in Hk as [(a3 & st6 & e7 & e8 & Hset & Hk & ->)|(r0 & Hset & _ & _)].
      - unfold ret in Hk.
        destruct (decide _); unfold set_Resolved, ret in Hset; by simplify_eq.
      - destruct (decide _); unfold set_Resolved, ret in Hset; by simplify_eq. }
    simpl. split.
    - etrans; [exact Hsub|]. destruct (decide _) as [Hs|]; [|done].
      apply insert_subseteq. auto.
    - etrans; [exact Hpre|]. by apply prefix_app_r. }
  assert (forall sv0 st r st' evs,
             resolve_field (resolve fuel) t ty caller field sv0 st = (r, st', evs) ->
             Resolved st ⊆ Resolved st' /\ cleanUpCbs st `prefix_of` cleanUpCbs st')
    as Hfield.
  { clear IHf. intros sv1 st2 r2 st2' evs2. unfold resolve_field.
    destruct (structtag_Parse _) as [tags|]; [|unfold Fatalf; by intros [= <- <- <-]].
    destruct (Get tags "fixture") as [tg|]; [|unfold Fatalf; by intros [= <- <- <-]].
    destruct (registeredFixtures !! Name tg) as [fentry|];
      [|unfold Fatalf; by intros [= <- <- <-]].
    intros Hb.
    apply bind_inv in Hb as [(cached & st3 & e1 & e2 & Hget & Hk & ->)|(r0 & Hget & Hr0 & _)].
    2:{ destruct (decide _); unfold get_Resolved, ret in Hget; by simplify_eq. }
    assert (st3 = st2
            /\ (cached = None ->
                Scope fentry = ScopeSubTest -> Resolved st2 !! Instance_ fentry = None))
      as [-> Hmiss].
    { destruct (decide _); unfold get_Resolved, ret in Hget; simplify_eq; [|done].
      split; [done|]. by intros ->. }
    apply bind_inv in Hk as [(valVal & st4 & e3 & e4 & Hval & Hk & ->)|(r0 & Hval & _ & _)].
    2:{ destruct cached; [unfold ret in Hval; by simplify_eq|].
        eapply Hcons; [|exact Hval]. by apply Hmiss. }
    assert (st2' = st4) as ->.
    { destruct (reflect.FieldByName _ _) as [fld|];
        [|unfold Fatalf in Hk; by simplify_eq].
      destruct (reflect.CanSet fld); [|unfold Fatalf in Hk; by simplify_eq].
      destruct (AssignableTo _ _); unfold ret, stop in Hk; by simplify_eq. }
    destruct cached; [unfold ret in Hval; by simplify_eq|].
    eapply Hcons; [|exact Hval]. by apply Hmiss. }
  intros Hb.
  apply bind_inv in Hb as [(sv1 & st1 & e1 & e2 & Hf & Hk & ->)|(r0 & Hf & _ & _)].
  - apply Hfield in Hf as [Hs Hp]. apply IHf in Hk as [Hs2 Hp2]. split; by etrans.
  - by eapply Hfield.
Qed.


(** A fixture no name registers with sub-test scope does not enter the
    resolver's map. *)
Lemma Resolving_not_cached f t fields fixturesVal st sv st' evs :
  (forall name fentry,
      registeredFixtures !! name = Some fentry ->
      Instance_ fentry = f -> Scope fentry <> ScopeSubTest) ->
  Resolving t fields fixturesVal st sv st' evs ->
  Resolved st' !! f = Resolved st !! f.
Proof.
  intros Hscope.
  induction 1 as [|fld fields fixturesVal st fentry' valVal sv st' evs Hentry Hs Hhit D IH
                  |fld fields fixturesVal st fentry' m ty fx st1 evs1 rets w
                    valVal ctxVal rest sv st' evs2 Hentry Hmiss Hm Hin2 D1 IH1 Hno
                    HC Hz D2 IH2]; [done|done|].
  rewrite IH2. simpl. rewrite <- IH1.
  destruct (decide (Scope fentry' = ScopeSubTest)) as [Hs|Hs]; [|done].
  apply lookup_insert_ne. intros Heq.
  apply entry_of_registered in Hentry as [name Hreg]. by eapply Hscope.
Qed.

(** X9.  [RegisterFixture] takes any string for a scope, and [resolve] treats
    every scope other than [ScopeSubTest] as it treats [ScopeCall]: the
    fixture is built once for every reference met, and the resolver's map
    is left as it was for it. *)
Theorem resolve_other_scopes_as_call_scope
    f fuel t fixturesType caller st sv st' evs :
  (forall name fentry,
      registeredFixtures !! name = Some fentry ->
      Instance_ fentry = f -> Scope fentry <> ScopeSubTest) ->
  resolve fuel t fixturesType caller st = (Ret sv, st', evs) ->
  constructs f evs = (refs f fixturesType + nested_refs f evs)%nat
  /\ Resolved st' !! f = Resolved st !! f.
Proof.
  intros Hscope Hres. apply resolve_Resolving in Hres as [_ D]. split.
  - by apply (Resolving_call_every_reference f Hscope) in D.
  - by eapply Resolving_not_cached.
Qed.

(** With no value for [f] in the resolver's map and a [Construct] of [f]
    that asks for [f], no resolution that returns has built [f]. *)
Lemma Resolving_self f shape fieldS t fields fixturesVal st sv st' evs :
  Construct_fixtures f = Some shape ->
  In fieldS (reflect.Fields shape) -> refers f fieldS = true ->
  Resolving t fields fixturesVal st sv st' evs ->
  Resolved st !! f = None ->
  constructs f evs = 0%nat /\ Resolved st' !! f = None.
Proof.
  intros Hshape HinS HrefS.
  induction 1 as [|fld fields fixturesVal st fentry' valVal sv st' evs Hentry Hs Hhit D IH
                  |fld fields fixturesVal st fentry' m ty fx st1 evs1 rets w
                    valVal ctxVal rest sv st' evs2 Hentry Hmiss Hm Hin2 D1 IH1 Hno
                    HC Hz D2 IH2]; intros Hnone.
  - done.
  - by apply IH.
  - destruct (decide (Instance_ fentry' = f)) as [Heq|Hne].
    + exfalso. subst f.
      assert (shape = ty) as ->.
      { unfold Construct_fixtures in Hshape. rewrite Hm in Hshape. congruence. }
      apply refers_spec in HrefS as (fe & HentryS & HfS).
      destruct (Resolving_served _ _ _ _ _ _ _ _ _ D1 HinS HentryS) as [Hpos|[_ Hsome]].
      * rewrite HfS in Hpos. lia.
      * rewrite HfS, Hnone in Hsome. by destruct Hsome.
    + destruct (IH1 Hnone) as [Hc1 Hn1].
      destruct IH2 as [Hc2 Hn2].
      { simpl. destruct (decide _); [by rewrite lookup_insert_ne|done]. }
      split; [|done]. rewrite constructs_app, constructs_cons. simpl.
      rewrite bool_decide_eq_false_2 by done. lia.
Qed.

(** X10.  [resolve] does not look for cycles.  A fixture whose [Construct] asks
    for the fixture itself cannot be resolved: a resolution that meets a
    reference to it, with no value for it in the resolver's map, does not
    return, whatever the depth allowed to the recursion. *)
Theorem resolve_self_dependent_fixture
    f shape fieldS field fuel t fixturesType caller st r st' evs :
  Construct_fixtures f = Some shape ->
  In fieldS (reflect.Fields shape) -> refers f fieldS = true ->
  In field (reflect.Fields fixturesType) -> refers f field = true ->
  Resolved st !! f = None ->
  resolve fuel t fixturesType caller st = (r, st', evs) ->
  returned r = false.
Proof.
  intros Hshape HinS HrefS Hin Href Hnone Hres.
  destruct r as [sv| | |]; [exfalso|done|done|done].
  apply resolve_Resolving in Hres as [_ D].
  destruct (Resolving_self _ _ _ _ _ _ _ _ _ _ Hshape HinS HrefS D Hnone) as [Hzero _].
  apply refers_spec in Href as (fe & Hentry & Hf).
  destruct (Resolving_served _ _ _ _ _ _ _ _ _ D Hin Hentry) as [Hpos|[_ Hsome]].
  - rewrite Hf in Hpos. lia.
  - rewrite Hf, Hnone in Hsome. by destruct Hsome.
Qed.

(** *** The recursion of [resolve] comes to an end *)

Lemma finishes_bind {A B : Type} (m : M A) (k : A -> M B) :
  finishes m -> (forall a, finishes (k a)) -> finishes (bind m k).
Proof.
  intros Hm Hk st r st' evs Hb.
  apply bind_inv in Hb as [(a & st1 & e1 & e2 & Hm1 & Hk1 & ->)|(r0 & Hm1 & _ & ->)].
  - by eapply Hk.
  - apply Hm in Hm1. by destruct r0.
Qed.

Lemma finishes_ret {A : Type} (a : A) : finishes (ret a).
Proof. intros st r st' evs. unfold ret. by intros [= <- _ _]. Qed.

Lemma finishes_stop {A : Type} (r : Result A) : r <> OutOfFuel -> finishes (stop r).
Proof. intros Hr st r' st' evs. unfold stop. by intros [= <- _ _]. Qed.

Lemma finishes_Fatalf {A : Type} t msg : finishes (Fatalf (A := A) t msg).
Proof. intros st r st' evs. unfold Fatalf. by intros [= <- _ _]. Qed.

Lemma finishes_call {A : Type} (f : W -> Result A * W) mk :
  (forall w, (f w).1 <> OutOfFuel) -> finishes (call f mk).
Proof.
  intros Hf st r st' evs. unfold call. specialize (Hf (world st)).
  destruct (f (world st)) as [r0 w]. by intros [= <- _ _].
Qed.

Lemma resolve_finishes n t fixturesType caller :
  (forall f t fixtures w, (Construct f t fixtures w).1 <> OutOfFuel) ->
  bounded n fixturesType = true ->
  finishes (resolve n t fixturesType caller).
Proof.
  intros Huser. revert t fixturesType caller.
  induction n as [|n IH]; intros t ty caller; simpl; [done|].
  intros Hb. destruct (negb _); [apply finishes_Fatalf|].
  generalize (∅ : gmap string V) as sv0.
  induction (reflect.Fields ty) as [|field fields IHf]; intros sv0; simpl.
  { apply finishes_ret. }
  simpl in Hb. apply andb_true_iff in Hb as [Hfield Hb].
  apply finishes_bind; [|intros sv1; by apply IHf].
  clear IHf Hb. unfold resolve_field. unfold entry_of in Hfield.
  destruct (structtag_Parse _) as [tags|]; [|apply finishes_Fatalf].
  destruct (Get tags "fixture") as [tg|]; [|apply finishes_Fatalf].
  destruct (registeredFixtures !! Name tg) as [fentry|]; [|apply finishes_Fatalf].
  apply finishes_bind.
  { destruct (decide _); [|apply finishes_ret].
    intros st r st' evs. unfold get_Resolved. by intros [= <- _ _]. }
  intros cached. apply finishes_bind.
  - destruct cached; [apply finishes_ret|]. unfold construct.
    unfold Construct_fixtures in Hfield.
    destruct (reflect.MethodByName _ _) as [m|]; [|by apply finishes_stop].
    destruct (reflect.In_ m 2) as [in2|]; [|by apply finishes_stop].
    apply finishes_bind; [by apply IH|]. intros fx.
    destruct (negb _); [by apply finishes_stop|].
    apply finishes_bind; [apply finishes_call; intros w; apply Huser|]. intros rets.
    destruct (zip_with mkValue _ _) as [|valVal [|ctxVal rest]];
      try by apply finishes_stop.
    apply finishes_bind.
    { intros st r st' evs. unfold append_cleanUpCbs. by intros [= <- _ _]. }
    intros _. apply finishes_bind; [|intros _; apply finishes_ret].
    destruct (decide _); [|apply finishes_ret].
    intros st r st' evs. unfold set_Resolved. by intros [= <- _ _].
  - intros valVal.
    destruct (reflect.FieldByName _ _) as [fld|]; [|apply finishes_Fatalf].
    destruct (reflect.CanSet fld); [|apply finishes_Fatalf].
    destruct (AssignableTo _ _); [apply finishes_ret|by apply finishes_stop].
Qed.

(** X11.  When the fixtures below a fixtures struct depend on each other at most
    [n] levels deep, the recursion of [resolve] ends within [n] levels: the
    model does not run out of depth, and allowing more changes nothing.
    ([Construct], user code, is taken not to fail for lack of depth,
    which is the model's business.) *)
Theorem resolve_enough_fuel n m t fixturesType caller st r st' evs :
  (forall f t fixtures w, (Construct f t fixtures w).1 <> OutOfFuel) ->
  bounded n fixturesType = true ->
  resolve n t fixturesType caller st = (r, st', evs) ->
  (n <= m)%nat ->
  r <> OutOfFuel /\ resolve m t fixturesType caller st = (r, st', evs).
Proof.
  intros Huser Hb Hres Hle.
  assert (r <> OutOfFuel) as Hr by by eapply resolve_finishes.
  split; [done|].
  induction Hle as [|m Hle IH]; [done|]. by apply resolve_more_fuel.
Qed.


(** X12.  [resolve] finds out that a field is not exported only when it comes to
    set it: the fixture of the field has been built by then, and its
    clean-up entry appended.  The failure is reported after that, and the
    resolution ends there. *)
Theorem resolve_builds_before_it_rejects_the_field
    fuel t fixturesType caller fields1 field fields2 fentry fld
    st sv st1 evs1 valVal st2 evs2 :
  reflect.TypeKind fixturesType = reflect.Struct ->
  reflect.Fields fixturesType = fields1 ++ field :: fields2 ->
  for_each (resolve_field (resolve fuel) t fixturesType caller) fields1 ∅ st
    = (Ret sv, st1, evs1) ->
  entry_of field = Some fentry ->
  (Scope fentry = ScopeSubTest -> Resolved st1 !! Instance_ fentry = None) ->
  construct (resolve fuel) t fentry st1 = (Ret valVal, st2, evs2) ->
  reflect.FieldByName fixturesType (reflect.FieldName field) = Some fld ->
  reflect.CanSet fld = false ->
  resolve (S fuel) t fixturesType caller st
  = (Goexit, st2,
     evs1 ++ evs2 ++ [EvFatalf t (NotExported caller (reflect.FieldName field))])
  /\ exists fixtures rets ctxVal pre cbs,
       evs2 = pre ++ [EvConstruct (Instance_ fentry) t fixtures (Ret rets)]
       /\ cleanUpCbs st2 = cbs ++ [mkCleanup (Instance_ fentry) t ctxVal].
Proof.
  intros Hkind Hfields Hfor Hentry Hmiss Hcons Hfld Hset. split.
  - simpl. rewrite Hkind, bool_decide_eq_true_2 by done. simpl.
    rewrite Hfields, (for_each_app_Ret _ _ _ _ _ _ _ _ Hfor). simpl.
    assert (resolve_field (resolve fuel) t fixturesType caller field sv st1
            = (Goexit, st2,
               evs2 ++ [EvFatalf t (NotExported caller (reflect.FieldName field))]))
      as Hfield.
    { unfold resolve_field. unfold entry_of in Hentry.
      destruct (structtag_Parse _) as [tags|]; [|done].
      destruct (Get tags "fixture") as [tg|]; [|done]. rewrite Hentry.
      eapply bind_quiet_eq with (a := None).
      { destruct (decide _) as [Hs|]; [|done].
        unfold get_Resolved. by rewrite (Hmiss Hs). }
      eapply bind_Ret_eq; [exact Hcons|]. by rewrite Hfld, Hset. }
    unfold bind at 1. by rewrite Hfield.
  - apply construct_Ret_inv in Hcons
      as (m & in2 & fx & st3 & e3 & rets & w & ctxVal & rest & _ & _ & _ & _ & _ & -> & ->).
    simpl. eauto 10.
Qed.

End ResolverProperties.
(** ** Further properties: the orchestrator *)

Section OrchestratorProperties.

Context {Instance : Type} `{Countable Instance} {W V : Type}.
Context {rt : Runtime Instance W V}.
Variable gt : GTest W V.

Implicit Types (st : State (Instance := Instance) (W := W) (V := V)).
Implicit Types (evs : list (Event Instance V)) (ev : Event Instance V).

Ltac bind_Ret H :=
  let a := fresh "a" in let st1 := fresh "st1" in
  let evs1 := fresh "evs1" in let evs2 := fresh "evs2" in
  let H1 := fresh "Hm" in let H2 := fresh "Hk" in let He := fresh "Hevs" in
  apply bind_Ret_inv in H as (a & st1 & evs1 & evs2 & H1 & H2 & He).

Lemma RunSubTests_loop_skips fuel t methods st :
  Forall (fun method => HasPrefix (reflect.MethodName method) testMethodPrefix = false)
         methods ->
  exists st', RunSubTests_loop gt fuel t methods st = (Ret tt, st', [])
              /\ world st' = world st.
Proof.
  intros HF. revert st. induction HF as [|method methods Hp _ IH]; intros st; simpl.
  { by exists st. }
  destruct (IH (mkState (world st) ∅ (cleanUpCbs st))) as (st' & Hloop & Hw).
  exists st'. split; [|done].
  eapply bind_quiet_eq; [|exact Hloop].
  unfold RunSubTests_method. eapply bind_quiet_eq; [done|]. by rewrite Hp.
Qed.

(** X13.  A group without test methods -- no method of it has the prefix -- gets
    its [Setup] and its [Teardown] and nothing else. *)
Theorem RunSubTests_without_test_methods fuel t st w r w' :
  Forall (fun method => HasPrefix (reflect.MethodName method) testMethodPrefix = false)
         (reflect.Methods (gtType gt)) ->
  Setup gt t (world st) = (Ret tt, w) ->
  Teardown gt t w = (r, w') ->
  exists st',
    RunSubTests gt fuel t st = (r, st', [EvSetup t (Ret tt); EvTeardown t r])
    /\ world st' = w'.
Proof.
  intros HF Hsetup Hteardown. unfold RunSubTests.
  destruct (RunSubTests_loop_skips fuel t _ (mkState w (Resolved st) (cleanUpCbs st)) HF)
    as (st1 & Hloop & Hw). simpl in Hw.
  exists (mkState w' (Resolved st1) (cleanUpCbs st1)). split; [|done].
  change [EvSetup t (Ret tt); EvTeardown t r]
    with ([EvSetup (Instance := Instance) (V := V) t (Ret tt)] ++ [EvTeardown t r]).
  eapply bind_Ret_eq; [unfold call; by rewrite Hsetup|].
  eapply bind_quiet_eq; [exact Hloop|].
  unfold call. by rewrite Hw, Hteardown.
Qed.

(** X14.  A method with the prefix whose signature is not one [RunSubTests]
    takes is reported on the handle of the group, and the turn ends there:
    no fixture is built, no sub-unit is started, the method is not
    called. *)
Theorem RunSubTests_method_rejects_signature fuel t method recv params st :
  HasPrefix (reflect.MethodName method) testMethodPrefix = true ->
  reflect.MethodIns method = recv :: params ->
  valid_signature method = false ->
  RunSubTests_method gt (S fuel) t method st
  = (Goexit, mkState (world st) ∅ [],
     [EvFatalf t
        match params with
        | [] => NoParameter (reflect.MethodName method)
        | arg1 :: rest =>
            if bool_decide (reflect.TypeString arg1 = "*testing.T") then
              match rest with
              | [fixturesType] =>
                  NotStruct (reflect.Kind_to_Z (reflect.TypeKind fixturesType))
              | _ => TooManyParameters (reflect.MethodName method)
                                       (Z.of_nat (length params))
              end
            else FirstParameter (reflect.MethodName method) (reflect.TypeString arg1)
        end]).
Proof.
  intros Hp Hins Hvalid. unfold valid_signature in Hvalid. rewrite Hins in Hvalid.
  unfold RunSubTests_method. cbv zeta.
  eapply bind_quiet_eq; [done|]. rewrite Hp. simpl negb. cbv iota.
  eapply bind_quiet_eq; [done|].
  unfold reflect.NumIn, reflect.In_. rewrite Hins.
  destruct params as [|arg1 rest].
  { apply bind_Goexit_eq. reflexivity. }
  eapply bind_quiet_eq.
  { destruct (_ <? 1) eqn:E; [|done]. apply Z.ltb_lt in E. simpl length in E. lia. }
  cbv beta. change ((recv :: arg1 :: rest) !! 1%nat) with (Some arg1). cbv iota.
  destruct (bool_decide (reflect.TypeString arg1 = "*testing.T")) eqn:Harg1; simpl negb.
  2:{ apply bind_Goexit_eq. reflexivity. }
  eapply bind_quiet_eq; [reflexivity|]. cbv beta.
  apply bind_Goexit_eq.
  destruct rest as [|fixturesType [|x rest]]; [simpl in Hvalid; done| |].
  - simpl in Hvalid. simpl.
    apply bind_Goexit_eq. simpl. rewrite bool_decide_eq_false_2; [reflexivity|].
    intros Hk. by rewrite bool_decide_eq_true_2 in Hvalid.
  - assert (Z.of_nat (length (recv :: arg1 :: fixturesType :: x :: rest)) - 1
            = Z.of_nat (length (arg1 :: fixturesType :: x :: rest))) as ->
      by (simpl length; lia).
    destruct (_ =? 2) eqn:E; [apply Z.eqb_eq in E; simpl length in E; lia|].
    destruct (_ >? 2) eqn:E2; [reflexivity|].
    rewrite Z.gtb_ltb in E2. apply Z.ltb_ge in E2. simpl length in E2. lia.
Qed.


(** *** Fixtures across the turns of the loop *)

Lemma not_In_resolve_events t name evs :
  Forall (resolve_event t) evs -> ~ In (EvRun t name) evs.
Proof.
  rewrite List.Forall_forall. intros HF Hin. by apply HF in Hin.
Qed.

(** A turn that starts the sub-unit of a method with a fixtures struct has
    resolved the struct with a new resolver and a new clean-up list. *)
Lemma RunSubTests_method_resolved fuel t method recv arg1 fixturesType st r st' evs :
  reflect.MethodIns method = [recv; arg1; fixturesType] ->
  RunSubTests_method gt fuel t method st = (r, st', evs) ->
  In (EvRun t (TrimPrefix (reflect.MethodName method) testMethodPrefix)) evs ->
  exists sv st1 pre sub,
    resolve fuel t fixturesType (reflect.MethodName method) (mkState (world st) ∅ [])
    = (Ret sv, st1, pre)
    /\ Run t (TrimPrefix (reflect.MethodName method) testMethodPrefix)
           (subtest gt method (Some sv)) st1 = (r, st', sub)
    /\ evs = pre ++ sub.
Proof.
  intros Hins. unfold RunSubTests_method, reflect.NumIn, reflect.In_. rewrite Hins.
  cbv zeta. intros Hb Hin.
  apply bind_inv in Hb as [(a & st1 & e1 & e2 & Hnew & Hk & ->)|(r0 & Hnew & Hr0 & _)];
    [|unfold newFixtureResolver in Hnew; by simplify_eq].
  unfold newFixtureResolver in Hnew. injection Hnew as <- <- <-.
  destruct (HasPrefix _ _); simpl in Hk, Hin; [|unfold ret in Hk; by simplify_eq].
  apply bind_inv in Hk as [(a & st2 & e3 & e4 & Hnew & Hk & ->)|(r0 & Hnew & Hr0 & _)];
    [|unfold new_cleanUpCbs in Hnew; by simplify_eq].
  unfold new_cleanUpCbs in Hnew. simpl in Hnew. injection Hnew as <- <- <-.
  simpl in Hk, Hin.
  apply bind_inv in Hk as [(a & st3 & e5 & e6 & Hc1 & Hk & ->)|(r0 & Hc1 & Hr0 & _)];
    [|unfold ret in Hc1; by simplify_eq].
  unfold ret in Hc1. injection Hc1 as <- <- <-. simpl in Hk, Hin.
  apply bind_inv in Hk as [(a0 & st4 & e7 & e8 & Hc2 & Hk & ->)|(r0 & Hc2 & Hr0 & ->)].
  2:{ destruct (negb _); unfold Fatalf, ret in Hc2; simplify_eq.
      by destruct Hin as [?|[]]. }
  assert (e7 = [] /\ st4 = mkState (world st) ∅ []) as [-> ->].
  { destruct (negb _); unfold Fatalf, ret in Hc2; by simplify_eq. }
  simpl in Hk, Hin. clear Hc2.
  apply bind_inv in Hk as [(fixtures & st5 & pre & sub & Hfix & Hrun & ->)|(r0 & Hfix & Hr0 & ->)].
  - apply bind_Ret_inv in Hfix as (sv & st6 & e9 & e10 & Hres & Hret & ->).
    unfold ret in Hret. injection Hret as <- <- <-. rewrite app_nil_r.
    by exists sv, st6, e9, sub.
  - apply bind_inv in Hfix as [(sv & st6 & e9 & e10 & Hres & Hret & ->)|(r1 & Hres & _ & _)].
    + unfold ret in Hret. by simplify_eq.
    + apply resolve_events in Hres. by apply not_In_resolve_events in Hin.
Qed.

Lemma constructs_Destruct_events f (cbs : list (Cleanup Instance V))
    (rs : list (Result unit)) :
  constructs f (zip_with Destruct_event cbs rs) = 0%nat.
Proof.
  revert rs. induction cbs as [|cb cbs IH]; intros [|r rs]; simpl; [done..|].
  rewrite constructs_cons. simpl. apply IH.
Qed.

Lemma constructs_subtest f method fixtures t' st r st' evs :
  subtest gt method fixtures t' st = (r, st', evs) -> constructs f evs = 0%nat.
Proof.
  intros Hsub. apply subtest_events in Hsub as (r0 & tail & -> & Htail).
  rewrite constructs_cons. simpl.
  destruct Htail as [[-> _]|(r1 & tail2 & _ & -> & Hfail & Hret)]; [done|].
  rewrite constructs_cons. simpl.
  assert (r1 = Ret tt \/ r1 <> Ret tt) as [->|Hne]
    by (destruct r1 as [[]| | |]; auto).
  - destruct (Hret eq_refl) as (rs & after & -> & _ & Hafter).
    rewrite constructs_app, constructs_Destruct_events.
    by destruct Hafter as [[_ ->]|(_ & -> & _)].
  - by destruct (Hfail Hne) as [-> _].
Qed.

Lemma constructs_Run f t name method fixtures st r st' evs :
  Run t name (subtest gt method fixtures) st = (r, st', evs) -> constructs f evs = 0%nat.
Proof.
  unfold Run.
  destruct (subtest gt method fixtures (testing.Sub t name) st) as [[rsub st1] inner] eqn:Hsub.
  apply (constructs_subtest f) in Hsub.
  destruct rsub; repeat case_match; intros [= <- <- <-]; rewrite constructs_cons; simpl;
    rewrite ?constructs_app, Hsub; done.
Qed.

(** X15.  Sub-test scope is per sub-test.  Every turn of the loop starts with a
    resolver of its own: whatever an earlier turn left in the resolver's
    map, a turn that comes to start its sub-unit has built a fixture of
    sub-test scope that the method's fixtures struct refers to, exactly
    once. *)
Theorem subtest_scope_is_per_sub_test
    f fuel t method recv arg1 fixturesType st r st' evs :
  (forall name fentry,
      registeredFixtures !! name = Some fentry ->
      Instance_ fentry = f -> Scope fentry = ScopeSubTest) ->
  reflect.MethodIns method = [recv; arg1; fixturesType] ->
  (0 < refs f fixturesType)%nat ->
  RunSubTests_method gt fuel t method st = (r, st', evs) ->
  In (EvRun t (TrimPrefix (reflect.MethodName method) testMethodPrefix)) evs ->
  constructs f evs = 1%nat.
Proof.
  intros Hscope Hins Hrefs Hm Hin.
  destruct (RunSubTests_method_resolved _ _ _ _ _ _ _ _ _ _ Hins Hm Hin)
    as (sv & st1 & pre & sub & Hres & Hrun & ->).
  rewrite constructs_app, (constructs_Run f _ _ _ _ _ _ _ _ Hrun), Nat.add_0_r.
  apply resolve_Resolving in Hres as [_ D].
  pose proof (Resolving_subtest_once f Hscope _ _ _ _ _ _ _ D) as Honce.
  simpl in Honce. rewrite lookup_empty in Honce.
  destruct Honce as [[Hzero _]|[Hone _]]; [|done].
  apply refs_pos in Hrefs as (field & Hfield & Href).
  apply refers_spec in Href as (fentry & Hentry & Hf).
  destruct (Resolving_served _ _ _ _ _ _ _ _ _ D Hfield Hentry) as [Hpos|[_ Hsome]].
  - rewrite Hf in Hpos. lia.
  - simpl in Hsome. rewrite lookup_empty in Hsome. by destruct Hsome.
Qed.

(** *** What is built is torn down *)

Lemma construct_log_app evs1 evs2 :
  construct_log (evs1 ++ evs2) = construct_log evs1 ++ construct_log evs2.
Proof. unfold construct_log. by rewrite omap_app. Qed.

Lemma destruct_log_app evs1 evs2 :
  destruct_log (evs1 ++ evs2) = destruct_log evs1 ++ destruct_log evs2.
Proof. unfold destruct_log. by rewrite omap_app. Qed.

Lemma construct_log_cleanups t pre (cbs : list (Cleanup Instance V)) :
  Forall2 (fun ev cb => cleanup_for ev cb /\ cb_t cb = t) pre cbs ->
  construct_log pre = map (fun cb => (cb_fVal cb, data (cb_ctxVal cb))) cbs
  /\ destruct_log pre = [].
Proof.
  induction 1 as [|ev cb pre cbs [(fx & d & rest & ->) Ht] _ [IH1 IH2]]; [done|].
  simpl. by rewrite IH1, IH2.
Qed.

Lemma logs_Destruct_events (cbs : list (Cleanup Instance V)) (rs : list (Result unit)) :
  construct_log (zip_with Destruct_event cbs rs) = []
  /\ destruct_log (zip_with Destruct_event cbs rs)
     = map (fun cb => (cb_fVal cb, data (cb_ctxVal cb))) (take (length rs) cbs).
Proof.
  revert rs. induction cbs as [|cb cbs IH]; intros [|r rs]; simpl; [done..|].
  destruct (IH rs) as [-> ->]. done.
Qed.

(** The events of a sub-unit: no [Construct], and the [Destruct] calls are
    for the first entries of the clean-up list, in order, and come only
    after the test method returned. *)
Lemma subtest_logs method fixtures t' st r st' evs :
  subtest gt method fixtures t' st = (r, st', evs) ->
  construct_log evs = []
  /\ (exists n, destruct_log evs
                = map (fun cb => (cb_fVal cb, data (cb_ctxVal cb)))
                      (take n (cleanUpCbs st)))
  /\ (destruct_log evs <> [] ->
      In (EvTest (reflect.MethodName method) t' fixtures (Ret tt)) evs).
Proof.
  intros Hsub. apply subtest_events in Hsub as (r0 & tail & -> & Htail).
  destruct Htail as [[-> _]|(r1 & tail2 & _ & -> & Hfail & Hret)].
  { split_and!; [done|by exists 0%nat|done]. }
  assert (r1 = Ret tt \/ r1 <> Ret tt) as [->|Hne]
    by (destruct r1 as [[]| | |]; auto).
  - destruct (Hret eq_refl) as (rs & after & -> & _ & Hafter).
    destruct (logs_Destruct_events (cleanUpCbs st) rs) as [Hc Hd].
    assert (construct_log after = [] /\ destruct_log after = []) as [Hca Hda]
      by by destruct Hafter as [[_ ->]|(_ & -> & _)].
    simpl. rewrite construct_log_app, destruct_log_app, Hc, Hd, Hca, Hda, !app_nil_r.
    split_and!; [done|by eexists|]. intros _. right. by left.
  - destruct (Hfail Hne) as [-> _]. split_and!; [done|by exists 0%nat|done].
Qed.

Lemma destruct_log_In f t0 ctx r0 evs :
  In (EvDestruct f t0 ctx r0) evs -> destruct_log evs <> [].
Proof.
  induction evs as [|ev evs IH]; [done|]. intros [->|Hin]; [done|].
  simpl. destruct ev; auto.
Qed.

(** X16.  In a turn of the loop [Destruct] is called only after the test method
    returned, and only on what the turn built: the contexts handed to
    [Destruct], with their instances, are the first of the contexts the
    [Construct] calls of the turn returned, in the same order.  So a
    fixture value is never destructed twice, and none is destructed when
    the turn stops before the test method has returned. *)
Theorem Destruct_only_after_the_body_returned fuel t method st r st' evs :
  RunSubTests_method gt fuel t method st = (r, st', evs) ->
  destruct_log evs `prefix_of` construct_log evs
  /\ (forall f t0 ctx r0,
         In (EvDestruct f t0 ctx r0) evs ->
         exists fixtures,
           In (EvTest (reflect.MethodName method)
                      (testing.Sub t (TrimPrefix (reflect.MethodName method)
                                                 testMethodPrefix))
                      fixtures (Ret tt)) evs).
Proof.
  intros Hm.
  apply RunSubTests_method_inv in Hm
    as [(_ & _ & ->)|(_ & [[_ HF]|(pre & fx & st1 & rsub & inner & HF & Hsub & Hcases)])].
  - split; [done|]. by intros f t0 ctx r0 [].
  - assert (destruct_log evs = []) as Hd.
    { clear -HF. induction HF as [|ev evs Hev _ IH]; [done|]. by destruct ev. }
    split; [rewrite Hd; apply prefix_nil|].
    intros f t0 ctx r0 Hin. by apply destruct_log_In in Hin.
  - destruct (construct_log_cleanups _ _ _ HF) as [Hcp Hdp].
    destruct (subtest_logs _ _ _ _ _ _ _ Hsub) as (Hci & [n Hdi] & Hbody).
    assert (exists fin, evs = pre ++ EvRun t (TrimPrefix (reflect.MethodName method)
                                                 testMethodPrefix) :: inner ++ fin
                        /\ construct_log fin = [] /\ destruct_log fin = [])
      as (fin & -> & Hcf & Hdf).
    { destruct Hcases as [(_ & _ & ->)|(_ & _ & ->)]; [by eexists|].
      exists []. by rewrite app_nil_r. }
    assert (destruct_log (pre ++ EvRun t (TrimPrefix (reflect.MethodName method)
                                            testMethodPrefix) :: inner ++ fin)
            = destruct_log inner) as Hd.
    { rewrite destruct_log_app. simpl. by rewrite destruct_log_app, Hdp, Hdf, app_nil_r. }
    split.
    + rewrite Hd, construct_log_app. simpl.
      rewrite construct_log_app, Hcp, Hci, Hcf, !app_nil_r, Hdi.
      exists (map (fun cb => (cb_fVal cb, data (cb_ctxVal cb))) (drop n (cleanUpCbs st1))).
      by rewrite <- map_app, take_drop.
    + intros f t0 ctx r0 Hin. apply destruct_log_In in Hin. rewrite Hd in Hin.
      exists fx. apply in_app_iff. right. right. apply in_app_iff. left. auto.
Qed.


Lemma run_cleanUpCbs_all_returned cbs st r st' devs :
  run_cleanUpCbs cbs st = (r, st', devs) ->
  Forall (fun ev => inside_returned ev = true) devs ->
  (r = Ret tt
   /\ devs = zip_with Destruct_event cbs (replicate (length cbs) (Ret tt)))
  \/ r = Panic.
Proof.
  revert st devs. induction cbs as [|cb cbs IH]; intros st devs; simpl.
  { unfold ret. intros [= <- <- <-] _. by left. }
  intros Hb Hall.
  apply bind_inv in Hb as [(u & st1 & e1 & e2 & Hcb & Hk & ->)|(r0 & Hcb & Hr0 & ->)].
  - destruct u. apply Forall_app in Hall as [_ Hall].
    destruct (IH _ _ Hk Hall) as [[-> ->]| ->]; [left|by right].
    split; [done|]. f_equal. revert Hcb. unfold run_cleanup.
    destruct (reflect.MethodByName _ _); [|done]. destruct (negb _); [done|].
    unfold call. destruct (Destruct _ _ _ _) as [rd w]. by intros [= -> _ <-].
  - right. revert Hcb. unfold run_cleanup.
    destruct (reflect.MethodByName _ _); [|unfold stop; by intros [= <- _ _]].
    destruct (negb _); [unfold stop; by intros [= <- _ _]|].
    unfold call. destruct (Destruct _ _ _ _) as [rd w]. intros [= -> _ <-].
    apply Forall_inv in Hall. simpl in Hall. congruence.
Qed.

(** A sub-unit in which [BeforeEach], the test method and every [Destruct]
    returned has gone through the whole clean-up list, unless [reflect]
    panicked on a call. *)
Lemma subtest_all_returned method fixtures t' st r st' evs :
  subtest gt method fixtures t' st = (r, st', evs) ->
  Forall (fun ev => inside_returned ev = true) evs ->
  r = Panic
  \/ evs = EvBeforeEach t' (Ret tt)
           :: EvTest (reflect.MethodName method) t' fixtures (Ret tt)
           :: zip_with Destruct_event (cleanUpCbs st)
                       (replicate (length (cleanUpCbs st)) (Ret tt))
           ++ [EvAfterEach t' r].
Proof.
  unfold subtest. intros Hb Hall.
  apply bind_inv in Hb as [(u & st1 & e1 & e2 & Hbefore & Hk & ->)|(r0 & Hbefore & Hr0 & _)].
  2:{ unfold call in Hbefore. destruct (BeforeEach gt t' (world st)) as [rb w].
      simplify_eq. apply Forall_inv in Hall. simpl in Hall. congruence. }
  unfold call in Hbefore. destruct (BeforeEach gt t' (world st)) as [rb w].
  injection Hbefore as -> <- <-. destruct u. apply Forall_inv_tail in Hall.
  apply bind_inv in Hk as [(u & st2 & e3 & e4 & Htest & Hk & ->)|(r1 & Htest & Hr1 & ->)].
  2:{ destruct (negb _); [unfold stop in Htest; simplify_eq; by left|].
      unfold call in Htest. simpl in Htest.
      destruct (TestMethod gt _ t' fixtures w) as [rt' w'].
      simplify_eq. apply Forall_inv in Hall. simpl in Hall. congruence. }
  destruct (negb _); [done|].
  unfold call in Htest. simpl in Htest.
  destruct (TestMethod gt _ t' fixtures w) as [rt' w'].
  injection Htest as -> <- <-. destruct u. apply Forall_inv_tail in Hall.
  apply bind_inv in Hk as [(cbs & st3 & e5 & e6 & Hget & Hk & ->)|(r2 & Hget & Hr2 & _)];
    [|unfold get_cleanUpCbs in Hget; by simplify_eq].
  unfold get_cleanUpCbs in Hget. simpl in Hget. injection Hget as <- <- <-.
  simpl in Hk, Hall.
  apply bind_inv in Hk as [(u & st4 & e7 & e8 & Hrun & Hk & ->)|(r3 & Hrun & Hr3 & ->)].
  - destruct u. apply Forall_app in Hall as [Hall _].
    destruct (run_cleanUpCbs_all_returned _ _ _ _ _ Hrun Hall) as [[_ ->]|?]; [|done].
    right. unfold call in Hk. simpl in Hk. destruct (AfterEach gt t' _) as [ra w''].
    by simplify_eq.
  - destruct (run_cleanUpCbs_all_returned _ _ _ _ _ Hrun Hall) as [[-> _]| ->];
      [done|by left].
Qed.

Lemma RunSubTests_method_balanced fuel t method st st' evs :
  RunSubTests_method gt fuel t method st = (Ret tt, st', evs) ->
  Forall (fun ev => inside_returned ev = true) evs ->
  destruct_log evs = construct_log evs.
Proof.
  intros Hm Hall.
  apply RunSubTests_method_inv in Hm
    as [(_ & _ & ->)|(_ & [[? _]|(pre & fx & st1 & rsub & inner & HF & Hsub & Hcases)])];
    [done|done|].
  destruct Hcases as [(_ & Hrsub & ->)|(<- & [?|[?|[? _]]] & _)]; [|done|done|done].
  apply Forall_app in Hall as [_ Hall]. apply Forall_inv_tail in Hall.
  apply Forall_app in Hall as [Hall _].
  destruct (subtest_all_returned _ _ _ _ _ _ _ Hsub Hall) as [->| ->];
    [by destruct Hrsub|].
  destruct (construct_log_cleanups _ _ _ HF) as [Hcp Hdp].
  destruct (logs_Destruct_events (cleanUpCbs st1)
              (replicate (length (cleanUpCbs st1)) (Ret tt))) as [Hc Hd].
  rewrite length_replicate, firstn_all in Hd.
  rewrite construct_log_app, destruct_log_app, Hcp, Hdp. simpl.
  rewrite !construct_log_app, !destruct_log_app, Hc, Hd. simpl.
  by rewrite !app_nil_r.
Qed.

Lemma RunSubTests_loop_balanced fuel t methods st st' evs :
  RunSubTests_loop gt fuel t methods st = (Ret tt, st', evs) ->
  Forall (fun ev => inside_returned ev = true) evs ->
  destruct_log evs = construct_log evs.
Proof.
  revert st evs. induction methods as [|method methods IH]; intros st evs; simpl.
  { unfold ret. by intros [= <- <-]. }
  intros Hb Hall. bind_Ret Hb. subst evs. destruct a.
  apply Forall_app in Hall as [Hall1 Hall2].
  rewrite construct_log_app, destruct_log_app.
  by rewrite (RunSubTests_method_balanced _ _ _ _ _ _ Hm Hall1), (IH _ _ Hk Hall2).
Qed.

(** X17.  What the test of the package checks of its fixtures after
    [RunSubTests]: nothing built is left behind.  When [RunSubTests]
    returns and every [BeforeEach], test method and [Destruct] it called
    returned, the [Destruct] calls match the [Construct] calls one for
    one: same instances, each with the context its [Construct] returned,
    in the order of construction. *)
Theorem RunSubTests_destructs_what_it_constructs fuel t st st' evs :
  RunSubTests gt fuel t st = (Ret tt, st', evs) ->
  Forall (fun ev => inside_returned ev = true) evs ->
  destruct_log evs = construct_log evs.
Proof.
  unfold RunSubTests. intros Hb Hall.
  bind_Ret Hb. bind_Ret Hk. subst.
  unfold call in Hm, Hk0.
  destruct (Setup gt t (world st)) as [rs w]. injection Hm as -> <- <-.
  destruct (Teardown gt t (world st0)) as [rt' w']. injection Hk0 as -> <- <-.
  destruct a0. apply Forall_inv_tail in Hall. apply Forall_app in Hall as [Hall _].
  simpl. rewrite construct_log_app, destruct_log_app. simpl. rewrite !app_nil_r.
  by eapply RunSubTests_loop_balanced.
Qed.

(** *** Names of sub-units *)

Lemma substring_0_length s : String.substring 0 (String.length s) s = s.
Proof. induction s as [|a s IH]; simpl; [done|by rewrite IH]. Qed.

Lemma prefix_substring prefix s :
  String.prefix prefix s = true ->
  (prefix ++ String.substring (String.length prefix)
                              (String.length s - String.length prefix) s)%string = s.
Proof.
  revert prefix. induction s as [|b s IH]; intros [|a prefix]; simpl; try done.
  - intros _. by rewrite substring_0_length.
  - destruct (Ascii.ascii_dec a b) as [->|]; [|done]. intros Hp.
    pose proof (IH _ Hp) as E. apply (f_equal (String b)) in E. exact E.
Qed.

(** [strings.TrimPrefix] undone: the prefix put back gives the string. *)
Lemma TrimPrefix_HasPrefix s prefix :
  HasPrefix s prefix = true -> (prefix ++ TrimPrefix s prefix)%string = s.
Proof.
  unfold TrimPrefix. intros Hp. rewrite Hp. by apply prefix_substring.
Qed.

Lemma NoDup_subtest_names methods :
  NoDup (map reflect.MethodName methods) -> NoDup (subtest_names methods).
Proof.
  unfold subtest_names. intros Hnd.
  induction methods as [|method methods IH]; simpl; [constructor|].
  simpl in Hnd. apply NoDup_cons in Hnd as [Hnot Hnd].
  destruct (HasPrefix (reflect.MethodName method) testMethodPrefix) eqn:Hp;
    [|by apply IH].
  simpl. apply NoDup_cons. split; [|by apply IH].
  intros Hin. apply Hnot. apply list_elem_of_In in Hin. apply list_elem_of_In.
  apply in_map_iff in Hin as (method' & Heq & Hin).
  apply filter_In in Hin as [Hin Hp'].
  apply in_map_iff. exists method'. split; [|done].
  rewrite <- (TrimPrefix_HasPrefix _ _ Hp), <- (TrimPrefix_HasPrefix _ _ Hp').
  by rewrite Heq.
Qed.

Lemma RunSubTests_subunits_prefix fuel t st r st' evs :
  RunSubTests gt fuel t st = (r, st', evs) ->
  subunits evs `prefix_of` subtest_names (reflect.Methods (gtType gt)).
Proof.
  unfold RunSubTests. intros Hb.
  apply bind_inv in Hb as [(a & st1 & e1 & e2 & Hsetup & Hk & ->)|(r0 & Hsetup & Hr0 & ->)].
  2:{ unfold call in Hsetup. destruct (Setup gt t (world st)) as [rs w].
      injection Hsetup as -> <- <-. apply prefix_nil. }
  unfold call in Hsetup. destruct (Setup gt t (world st)) as [rs w].
  injection Hsetup as -> <- <-.
  apply bind_inv in Hk as [(a0 & st2 & e3 & e4 & Hloop & Hk & ->)|(r0 & Hloop & Hr0 & ->)].
  - destruct (RunSubTests_loop_subunits _ _ _ _ _ _ _ _ Hloop) as (_ & _ & Heq).
    destruct a0. specialize (Heq eq_refl).
    unfold call in Hk. destruct (Teardown gt t (world st2)) as [rt' w'].
    injection Hk as -> <- <-.
    rewrite <- !subunits_app. simpl. by rewrite app_nil_r, Heq.
  - destruct (RunSubTests_loop_subunits _ _ _ _ _ _ _ _ Hloop) as (_ & Hpre & _).
    by rewrite <- !subunits_app.
Qed.

(** X18.  The name of a sub-unit with the prefix put back is the name of the
    method it runs.  So the sub-units of a group have pairwise distinct
    names, the methods of a type having pairwise distinct names. *)
Theorem subunit_names_distinct fuel t st r st' evs :
  NoDup (map reflect.MethodName (reflect.Methods (gtType gt))) ->
  RunSubTests gt fuel t st = (r, st', evs) ->
  NoDup (subunits evs)
  /\ (forall name,
         In name (subunits evs) ->
         In (testMethodPrefix ++ name)%string
            (map reflect.MethodName (reflect.Methods (gtType gt)))).
Proof.
  intros Hnd Hrun. apply RunSubTests_subunits_prefix in Hrun as [rest Hrest].
  assert (forall name,
             In name (subtest_names (reflect.Methods (gtType gt))) ->
             In (testMethodPrefix ++ name)%string
                (map reflect.MethodName (reflect.Methods (gtType gt)))) as Hback.
  { intros name Hin. unfold subtest_names in Hin.
    apply in_map_iff in Hin as (method & <- & Hin).
    apply filter_In in Hin as [Hin Hp].
    rewrite (TrimPrefix_HasPrefix _ _ Hp). by apply in_map. }
  split.
  - pose proof (NoDup_subtest_names _ Hnd) as Hnames.
    rewrite Hrest in Hnames. by apply NoDup_app in Hnames as [? _].
  - intros name Hin. apply Hback. rewrite Hrest. apply in_app_iff. by left.
Qed.


(** *** What a test method is given *)

Lemma In_EvTest_EvRun fuel t method st r st' evs m t' fixtures r' :
  RunSubTests_method gt fuel t method st = (r, st', evs) ->
  In (EvTest m t' fixtures r') evs ->
  In (EvRun t (TrimPrefix (reflect.MethodName method) testMethodPrefix)) evs.
Proof.
  intros Hm Hin.
  destruct (RunSubTests_method_shape _ _ _ _ _ _ _ _ Hm) as (pre & sub & -> & Hpre & Hsub).
  apply in_app_iff in Hin as [Hin|Hin].
  { rewrite List.Forall_forall in Hpre. by apply Hpre in Hin. }
  destruct Hsub as [->|(r0 & inner & fin & -> & _ & _)]; [done|].
  apply in_app_iff. right. by left.
Qed.

Lemma In_EvTest_subtest method fixtures t0 st r st' evs m t' fx r' :
  subtest gt method fixtures t0 st = (r, st', evs) ->
  In (EvTest m t' fx r') evs -> fx = fixtures.
Proof.
  intros Hsub Hin. apply subtest_events in Hsub as (r0 & tail & -> & Htail).
  destruct Hin as [?|Hin]; [done|].
  destruct Htail as [[-> _]|(r1 & tail2 & _ & -> & Hfail & Hret)]; [done|].
  destruct Hin as [Heq|Hin]; [by simplify_eq|].
  assert (r1 = Ret tt \/ r1 <> Ret tt) as [->|Hne]
    by (destruct r1 as [[]| | |]; auto).
  - destruct (Hret eq_refl) as (rs & after & -> & _ & Hafter).
    apply in_app_iff in Hin as [Hin|Hin].
    + by apply not_In_Destruct_events in Hin.
    + destruct Hafter as [[_ ->]|(_ & -> & _)]; [by destruct Hin as [?|[]]|done].
  - destruct (Hfail Hne) as [-> _]. done.
Qed.

(** X19.  A test method that takes a fixtures struct is called with the struct
    [resolve] filled: it has a value for every field of the struct type
    and for nothing else, every field being bound by its tag to a
    registered fixture. *)
Theorem test_method_gets_every_fixture
    fuel t method recv arg1 fixturesType st r st' evs m t' fixtures r' :
  reflect.MethodIns method = [recv; arg1; fixturesType] ->
  RunSubTests_method gt fuel t method st = (r, st', evs) ->
  In (EvTest m t' fixtures r') evs ->
  exists sv,
    fixtures = Some sv
    /\ (forall name,
           is_Some (sv !! name)
           <-> In name (map reflect.FieldName (reflect.Fields fixturesType)))
    /\ Forall (fun field => is_Some (entry_of field)) (reflect.Fields fixturesType).
Proof.
  intros Hins Hm Hin.
  pose proof (In_EvTest_EvRun _ _ _ _ _ _ _ _ _ _ _ Hm Hin) as Hrun.
  destruct (RunSubTests_method_resolved _ _ _ _ _ _ _ _ _ _ Hins Hm Hrun)
    as (sv & st1 & pre & sub & Hres & HRun & ->).
  exists sv.
  apply in_app_iff in Hin as [Hin|Hin].
  { apply resolve_events in Hres. rewrite List.Forall_forall in Hres.
    by apply Hres in Hin. }
  apply resolve_Ret_fields in Hres as (_ & Hdom & HF).
  split_and!; [|done|].
  - unfold Run in HRun.
    destruct (subtest gt method (Some sv) _ st1) as [[rsub st2] inner] eqn:Hsub.
    assert (In (EvTest m t' fixtures r') inner) as Hin'.
    { destruct rsub; repeat case_match; simplify_eq; destruct Hin as [?|Hin]; try done;
        apply in_app_iff in Hin as [?|[?|[]]]; done. }
    by eapply In_EvTest_subtest.
  - eapply Forall_impl; [exact HF|]. by intros field (? & _).
Qed.


(** *** A case that stops *)

(** X20.  A test method that stops with [t.FailNow] or [t.Fatal] ends its
    sub-unit and nothing more: no [Destruct] and no [AfterEach] follow it,
    the sub-unit is closed, and the turn of the loop returns, so that the
    loop goes on with the next method. *)
Theorem failing_case_ends_only_its_sub_unit fuel t method st r st' evs m t' fixtures :
  RunSubTests_method gt fuel t method st = (r, st', evs) ->
  In (EvTest m t' fixtures Goexit) evs ->
  r = Ret tt
  /\ exists evs',
       evs = evs' ++ [EvTest m t' fixtures Goexit;
                      EvRunEnd t (TrimPrefix (reflect.MethodName method)
                                             testMethodPrefix)]
       /\ ~ In (EvTest m t' fixtures Goexit) evs'.
Proof.
  intros Hm Hin.
  apply RunSubTests_method_inv in Hm
    as [(_ & _ & ->)|(_ & [[_ HF]|(pre & fx & st1 & rsub & inner & HF & Hsub & Hcases)])].
  - done.
  - rewrite List.Forall_forall in HF. by apply HF in Hin.
  - apply Forall2_cleanup_for_events in HF as [Hpre _].
    assert (~ In (EvTest m t' fixtures Goexit) pre) as Hnot.
    { intros Hp. rewrite List.Forall_forall in Hpre. by apply Hpre in Hp. }
    apply subtest_events in Hsub as (r0 & tail & -> & Htail).
    assert (In (EvTest m t' fixtures Goexit) tail) as Hin'.
    { destruct Hcases as [(_ & _ & ->)|(_ & _ & ->)];
        apply in_app_iff in Hin as [?|[?|Hin]]; try done.
      - destruct Hin as [?|Hin]; [done|].
        apply in_app_iff in Hin as [?|[?|[]]]; done.
      - by destruct Hin as [?|Hin]. }
    destruct Htail as [[-> _]|(r1 & tail2 & -> & -> & Hfail & Hret)]; [done|].
    assert (r1 = Goexit /\ m = reflect.MethodName method
            /\ t' = testing.Sub t (TrimPrefix (reflect.MethodName method) testMethodPrefix)
            /\ fixtures = fx) as (-> & -> & -> & ->).
    { destruct Hin' as [Heq|Hin']; [by simplify_eq|]. exfalso.
      assert (r1 = Ret tt \/ r1 <> Ret tt) as [->|Hne]
        by (destruct r1 as [[]| | |]; auto).
      - destruct (Hret eq_refl) as (rs & after & -> & _ & Hafter).
        apply in_app_iff in Hin' as [Hin'|Hin'].
        + by apply not_In_Destruct_events in Hin'.
        + destruct Hafter as [[_ ->]|(_ & -> & _)]; [by destruct Hin' as [?|[]]|done].
      - by destruct (Hfail Hne) as [-> _]. }
    destruct (Hfail ltac:(done)) as [-> Hrsub]. simpl in Hrsub. subst rsub.
    destruct Hcases as [(-> & _ & ->)|(_ & [?|[?|(_ & inner' & f & ctx & Heq)]] & _)];
      [|done|done|].
    2:{ apply (f_equal last) in Heq. rewrite last_snoc in Heq. done. }
    split; [done|].
    exists (pre ++ [EvRun t (TrimPrefix (reflect.MethodName method) testMethodPrefix);
                    EvBeforeEach (testing.Sub t (TrimPrefix (reflect.MethodName method)
                                                            testMethodPrefix)) (Ret tt)]).
    split; [by rewrite <- app_assoc|].
    intros Hp. apply in_app_iff in Hp as [?|[?|[?|[]]]]; done.
Qed.

End OrchestratorProperties.
(** ** The further properties at work *)

Lemma surjective_triple {A B C : Type} (p : A * B * C) : p = (p.1.1, p.1.2, p.2).
Proof. by destruct p as [[? ?] ?]. Qed.

Lemma RegisterFixture_then_GetFixture_witness :
  GetFixture "UserId" (RegisterFixture Demo.TypeOf "UserId" 1%nat ScopeCall ∅).2
  = Some (mkFixtureEntry ScopeCall 1%nat)
  /\ GetFixture "TmpDir" (RegisterFixture Demo.TypeOf "UserId" 1%nat ScopeCall ∅).2
     = None.
Proof.
  destruct (RegisterFixture_then_GetFixture Demo.TypeOf "UserId" 1%nat ScopeCall ∅
              (RegisterFixture Demo.TypeOf "UserId" 1%nat ScopeCall ∅).2)
    as (Hget & _ & Hother).
  { vm_compute. reflexivity. }
  split; [exact Hget|]. rewrite Hother by done. reflexivity.
Defined.

Lemma RegisterFixture_keeps_valid_witness :
  map_Forall (fun _ entry => valid_fixture (Demo.TypeOf (Instance_ entry)) = true)
             (RegisterFixture Demo.TypeOf "Foo" 7%nat ScopeCall Demo.registry).2.
Proof.
  apply (RegisterFixture_keeps_valid Demo.TypeOf "Foo" 7%nat ScopeCall Demo.registry).
  by_computation.
Defined.

Lemma MustRegisterFixture_twice_witness :
  MustRegisterFixture Demo.TypeOf "UserId" 4%nat ScopeSubTest
    (MustRegisterFixture Demo.TypeOf "UserId" 1%nat ScopeCall ∅).2
  = (PanicFailedToRegister (AlreadyRegistered "UserId" ScopeCall),
     (MustRegisterFixture Demo.TypeOf "UserId" 1%nat ScopeCall ∅).2).
Proof.
  refine (proj1 (proj2 (MustRegisterFixture_twice Demo.TypeOf "UserId" 1%nat ScopeCall
                          4%nat ScopeSubTest ∅ _ _))).
  vm_compute. reflexivity.
Defined.

Lemma init_registers_all_witness :
  NoDup (map (fun c : string * Demo.Instance * FixtureScope => c.1.1) Cases.calls)
  /\ GetFixture "UserId" Cases.registry = Some (mkFixtureEntry "session" 1%nat).
Proof.
  destruct (init_registers_all Cases.TypeOf Cases.calls ∅ Cases.registry)
    as (Hnd & HF & _).
  { vm_compute. reflexivity. }
  split; [exact Hnd|]. unfold Cases.calls in HF. apply Forall_inv in HF.
  destruct HF as (_ & _ & HF). exact HF.
Defined.

Lemma resolve_fills_every_field_witness :
  exists sv,
    (resolve (rt := Demo.rt) 2 testing.Main Demo.threeDirs
             "SubTestSubTestScopedFixture" Demo.st0).1.1 = Ret sv
    /\ is_Some (sv !! "Dir2") /\ ~ is_Some (sv !! "Dir4").
Proof.
  destruct (resolve (rt := Demo.rt) 2 testing.Main Demo.threeDirs
              "SubTestSubTestScopedFixture" Demo.st0) as [[r st'] evs] eqn:E.
  destruct r as [sv| | |]; try (vm_compute in E; discriminate E).
  destruct (resolve_fills_every_field (rt := Demo.rt) 2 testing.Main Demo.threeDirs
              "SubTestSubTestScopedFixture" Demo.st0 sv st' evs E) as (_ & Hdom & _).
  exists sv. split; [reflexivity|]. split.
  - apply Hdom. simpl. right. left. reflexivity.
  - intros Hsome. apply Hdom in Hsome. simpl in Hsome.
    destruct Hsome as [?|[?|[?|[]]]]; discriminate.
Defined.

Lemma resolve_never_forgets_witness :
  Resolved Cases.st_cached
    ⊆ Resolved (resolve (rt := Cases.rt) 2 testing.Main Cases.unexported
                        "SubTestX" Cases.st_cached).1.2
  /\ cleanUpCbs Cases.st_cached
       `prefix_of` cleanUpCbs (resolve (rt := Cases.rt) 2 testing.Main Cases.unexported
                                       "SubTestX" Cases.st_cached).1.2.
Proof.
  set (res := resolve (rt := Cases.rt) 2 testing.Main Cases.unexported
                      "SubTestX" Cases.st_cached).
  apply (resolve_never_forgets (rt := Cases.rt) 2 testing.Main Cases.unexported
           "SubTestX" Cases.st_cached res.1.1 res.1.2 res.2).
  apply surjective_triple.
Defined.

Lemma resolve_other_scopes_as_call_scope_witness :
  constructs (Instance := Demo.Instance) (V := Demo.Val) 1%nat
    (resolve (rt := Cases.rt) 2 testing.Main Cases.twoUserIds "SubTestX" Demo.st0).2
  = 2%nat
  /\ Resolved (resolve (rt := Cases.rt) 2 testing.Main Cases.twoUserIds
                       "SubTestX" Demo.st0).1.2 !! 1%nat = None.
Proof.
  destruct (resolve (rt := Cases.rt) 2 testing.Main Cases.twoUserIds "SubTestX" Demo.st0)
    as [[r st'] evs] eqn:E.
  destruct r as [sv| | |]; try (vm_compute in E; discriminate E).
  assert (forall name fentry,
             Cases.registry !! name = Some fentry ->
             Instance_ fentry = 1%nat -> Scope fentry <> ScopeSubTest) as Hscope.
  { refine (bool_decide_unpack
              (map_Forall (fun _ fentry =>
                             Instance_ fentry = 1%nat -> Scope fentry <> ScopeSubTest)
                          Cases.registry) _).
    vm_compute. exact I. }
  destruct (resolve_other_scopes_as_call_scope (rt := Cases.rt) 1%nat 2 testing.Main
              Cases.twoUserIds "SubTestX" Demo.st0 sv st' evs Hscope E) as [Hc Hr].
  split.
  - change (constructs 1%nat evs = 2%nat).
    pose proof E as E0. vm_compute in E0. injection E0 as _ _ Hevs.
    etrans; [exact Hc|]. subst evs. vm_compute. reflexivity.
  - etrans; [exact Hr|]. vm_compute. reflexivity.
Defined.

Lemma resolve_self_dependent_fixture_witness :
  returned (resolve (rt := Cases.rt) 5 testing.Main Cases.needsSelf
                    "SubTestX" Demo.st0).1.1 = false.
Proof.
  set (res := resolve (rt := Cases.rt) 5 testing.Main Cases.needsSelf "SubTestX" Demo.st0).
  apply (resolve_self_dependent_fixture (rt := Cases.rt) 9%nat Cases.needsSelf
           (MkField "Me" "" Demo.stringT (Demo.fixture_tag "Self"))
           (MkField "Me" "" Demo.stringT (Demo.fixture_tag "Self"))
           5 testing.Main Cases.needsSelf "SubTestX" Demo.st0 res.1.1 res.1.2 res.2).
  - vm_compute. reflexivity.
  - left. reflexivity.
  - vm_compute. reflexivity.
  - left. reflexivity.
  - vm_compute. reflexivity.
  - vm_compute. reflexivity.
  - apply surjective_triple.
Defined.

Lemma resolve_enough_fuel_witness :
  (resolve (rt := Demo.rt) 4 testing.Main Demo.oneComment
           "SubTestNestedFixture" Demo.st0).1.1 <> OutOfFuel
  /\ resolve (rt := Demo.rt) 10 testing.Main Demo.oneComment
             "SubTestNestedFixture" Demo.st0
     = resolve (rt := Demo.rt) 4 testing.Main Demo.oneComment
               "SubTestNestedFixture" Demo.st0.
Proof.
  destruct (resolve (rt := Demo.rt) 4 testing.Main Demo.oneComment
              "SubTestNestedFixture" Demo.st0) as [[r st'] evs] eqn:E.
  apply (resolve_enough_fuel (rt := Demo.rt) 4 10 testing.Main Demo.oneComment
           "SubTestNestedFixture" Demo.st0 r st' evs); [| |exact E|lia].
  - intros f t fx w. simpl.
    do 9 (destruct f as [|f]; [discriminate|]). discriminate.
  - vm_compute. reflexivity.
Defined.

Lemma resolve_builds_before_it_rejects_the_field_witness :
  exists st2 evs,
    resolve (rt := Cases.rt) 2 testing.Main Cases.unexported "SubTestX" Demo.st0
    = (Goexit, st2, evs ++ [EvFatalf testing.Main (NotExported "SubTestX" "id")])
    /\ constructs 1%nat evs = 1%nat
    /\ length (cleanUpCbs st2) = 2%nat.
Proof.
  set (Dir := MkField "Dir" "" Demo.stringT (Demo.fixture_tag "TmpDir")).
  set (id := MkField "id" "gtest_test" Demo.stringT (Demo.fixture_tag "UserId")).
  set (fentry := mkFixtureEntry (Instance := Demo.Instance) "session" 1%nat).
  set (F := for_each (resolve_field (rt := Cases.rt) (resolve (rt := Cases.rt) 1)
                        testing.Main Cases.unexported "SubTestX") [Dir] ∅ Demo.st0).
  set (C := construct (rt := Cases.rt) (resolve (rt := Cases.rt) 1)
                      testing.Main fentry F.1.2).
  destruct (resolve_builds_before_it_rejects_the_field (rt := Cases.rt)
              1 testing.Main Cases.unexported "SubTestX" [Dir] id [] fentry id
              Demo.st0
              (match F.1.1 with Ret sv => sv | _ => ∅ end) F.1.2 F.2
              (match C.1.1 with Ret v => v | _ => mkValue Demo.stringT Demo.Nil end)
              C.1.2 C.2) as [Hres _].
  - reflexivity.
  - reflexivity.
  - vm_compute. reflexivity.
  - vm_compute. reflexivity.
  - intros Hs. vm_compute in Hs. discriminate Hs.
  - vm_compute. reflexivity.
  - vm_compute. reflexivity.
  - reflexivity.
  - exists C.1.2, (F.2 ++ C.2). rewrite <- app_assoc. split; [exact Hres|].
    split; vm_compute; reflexivity.
Defined.

Lemma RunSubTests_without_test_methods_witness :
  exists st',
    RunSubTests (rt := Demo.rt) Cases.NoTests 1 testing.Main Demo.st0
    = (Ret tt, st',
       [EvSetup testing.Main (Ret tt); EvTeardown testing.Main (Ret tt)])
    /\ world st' = world Demo.st0.
Proof.
  apply (RunSubTests_without_test_methods (rt := Demo.rt) Cases.NoTests 1 testing.Main
           Demo.st0 (world Demo.st0) (Ret tt) (world Demo.st0)).
  - repeat constructor.
  - reflexivity.
  - reflexivity.
Defined.

Lemma RunSubTests_method_rejects_signature_witness :
  RunSubTests_method (rt := Demo.rt) Cases.NoTests 1 testing.Main Cases.notStruct Demo.st0
  = (Goexit, Demo.st0, [EvFatalf testing.Main (NotStruct 2)]).
Proof.
  apply (RunSubTests_method_rejects_signature (rt := Demo.rt) Cases.NoTests 0
           testing.Main Cases.notStruct Demo.groupRecv [testing_T; Demo.intT] Demo.st0);
    reflexivity.
Defined.

Lemma subtest_scope_is_per_sub_test_witness :
  constructs (Instance := Demo.Instance) (V := Demo.Val) 4%nat
    (RunSubTests_method (rt := Demo.rt) Demo.GTestTests 2 testing.Main
       (Demo.groupMethod "SubTestSubTestScopedFixture" [testing_T; Demo.threeDirs])
       Cases.st_cached).2 = 1%nat
  /\ is_Some (Resolved Cases.st_cached !! 4%nat).
Proof.
  split; [|by eexists].
  set (res := RunSubTests_method (rt := Demo.rt) Demo.GTestTests 2 testing.Main
                (Demo.groupMethod "SubTestSubTestScopedFixture"
                                  [testing_T; Demo.threeDirs]) Cases.st_cached).
  apply (subtest_scope_is_per_sub_test (rt := Demo.rt) Demo.GTestTests 4%nat 2
           testing.Main
           (Demo.groupMethod "SubTestSubTestScopedFixture" [testing_T; Demo.threeDirs])
           Demo.groupRecv testing_T Demo.threeDirs Cases.st_cached
           res.1.1 res.1.2 res.2).
  - refine (bool_decide_unpack
              (map_Forall (fun _ fentry =>
                             Instance_ fentry = 4%nat -> Scope fentry = ScopeSubTest)
                          Demo.registry) _).
    vm_compute. exact I.
  - reflexivity.
  - vm_compute. lia.
  - apply surjective_triple.
  - vm_compute. right. left. reflexivity.
Defined.

Lemma RunSubTests_destructs_what_it_constructs_witness :
  destruct_log (RunSubTests (rt := Demo.rt) Demo.GTestTests 4 testing.Main Demo.st0).2
  = construct_log (RunSubTests (rt := Demo.rt) Demo.GTestTests 4 testing.Main Demo.st0).2
  /\ length (construct_log
               (RunSubTests (rt := Demo.rt) Demo.GTestTests 4 testing.Main Demo.st0).2)
     = 7%nat.
Proof.
  set (res := RunSubTests (rt := Demo.rt) Demo.GTestTests 4 testing.Main Demo.st0).
  split; [|vm_compute; reflexivity].
  apply (RunSubTests_destructs_what_it_constructs (rt := Demo.rt) Demo.GTestTests 4
           testing.Main Demo.st0 res.1.2 res.2).
  - vm_compute. reflexivity.
  - apply List.Forall_forall, forallb_forall. vm_compute. reflexivity.
Defined.

Lemma Destruct_only_after_the_body_returned_witness :
  destruct_log
    (RunSubTests_method (rt := Demo.rt) Demo.FailingTests 2 testing.Main
       (Demo.groupMethod "SubTestFailNow" [testing_T; Demo.dirAndUser]) Demo.st0).2
  `prefix_of`
  construct_log
    (RunSubTests_method (rt := Demo.rt) Demo.FailingTests 2 testing.Main
       (Demo.groupMethod "SubTestFailNow" [testing_T; Demo.dirAndUser]) Demo.st0).2
  /\ destruct_log
       (RunSubTests_method (rt := Demo.rt) Demo.FailingTests 2 testing.Main
          (Demo.groupMethod "SubTestFailNow" [testing_T; Demo.dirAndUser]) Demo.st0).2
     = []
  /\ length (construct_log
       (RunSubTests_method (rt := Demo.rt) Demo.FailingTests 2 testing.Main
          (Demo.groupMethod "SubTestFailNow" [testing_T; Demo.dirAndUser]) Demo.st0).2)
     = 2%nat.
Proof.
  set (res := RunSubTests_method (rt := Demo.rt) Demo.FailingTests 2 testing.Main
                (Demo.groupMethod "SubTestFailNow" [testing_T; Demo.dirAndUser])
                Demo.st0).
  split; [|split; vm_compute; reflexivity].
  apply (Destruct_only_after_the_body_returned (rt := Demo.rt) Demo.FailingTests 2
           testing.Main
           (Demo.groupMethod "SubTestFailNow" [testing_T; Demo.dirAndUser])
           Demo.st0 res.1.1 res.1.2 res.2).
  apply surjective_triple.
Defined.

Lemma subunit_names_distinct_witness :
  NoDup (subunits
           (RunSubTests (rt := Demo.rt) Demo.GTestTests 4 testing.Main Demo.st0).2).
Proof.
  set (res := RunSubTests (rt := Demo.rt) Demo.GTestTests 4 testing.Main Demo.st0).
  refine (proj1 (subunit_names_distinct (rt := Demo.rt) Demo.GTestTests 4 testing.Main
                   Demo.st0 res.1.1 res.1.2 res.2 _ _)).
  - by_computation.
  - apply surjective_triple.
Defined.

Lemma test_method_gets_every_fixture_witness :
  exists sv,
    In (EvTest "SubTestCallScopedStringFixture"
               (testing.Sub testing.Main "CallScopedStringFixture") (Some sv) (Ret tt))
       (RunSubTests_method (rt := Demo.rt) Demo.GTestTests 2 testing.Main
          (Demo.groupMethod "SubTestCallScopedStringFixture"
                            [testing_T; Demo.threeUserIds]) Demo.st0).2
    /\ is_Some (sv !! "UserId2") /\ ~ is_Some (sv !! "UserId4").
Proof.
  set (res := RunSubTests_method (rt := Demo.rt) Demo.GTestTests 2 testing.Main
                (Demo.groupMethod "SubTestCallScopedStringFixture"
                                  [testing_T; Demo.threeUserIds]) Demo.st0).
  set (sv := match nth 5 res.2 (EvRun testing.Main "") with
             | EvTest _ _ (Some sv) _ => sv
             | _ => ∅
             end).
  assert (In (EvTest "SubTestCallScopedStringFixture"
                     (testing.Sub testing.Main "CallScopedStringFixture")
                     (Some sv) (Ret tt)) res.2) as Hin.
  { vm_compute. do 5 right. left. reflexivity. }
  destruct (test_method_gets_every_fixture (rt := Demo.rt) Demo.GTestTests 2
              testing.Main
              (Demo.groupMethod "SubTestCallScopedStringFixture"
                                [testing_T; Demo.threeUserIds])
              Demo.groupRecv testing_T Demo.threeUserIds Demo.st0
              res.1.1 res.1.2 res.2 _ _ _ _ eq_refl
              (surjective_triple res) Hin) as (sv' & Heq & Hdom & _).
  exists sv'. split; [by rewrite <- Heq|]. split.
  - apply Hdom. simpl. right. left. reflexivity.
  - intros Hsome. apply Hdom in Hsome. simpl in Hsome.
    destruct Hsome as [?|[?|[?|[]]]]; discriminate.
Defined.

Lemma failing_case_ends_only_its_sub_unit_witness :
  (RunSubTests_method (rt := Demo.rt) Demo.FailingTests 2 testing.Main
     (Demo.groupMethod "SubTestFailNow" [testing_T; Demo.dirAndUser]) Demo.st0).1.1
  = Ret tt
  /\ last (RunSubTests_method (rt := Demo.rt) Demo.FailingTests 2 testing.Main
             (Demo.groupMethod "SubTestFailNow" [testing_T; Demo.dirAndUser])
             Demo.st0).2
     = Some (EvRunEnd testing.Main "FailNow").
Proof.
  set (res := RunSubTests_method (rt := Demo.rt) Demo.FailingTests 2 testing.Main
                (Demo.groupMethod "SubTestFailNow" [testing_T; Demo.dirAndUser])
                Demo.st0).
  set (fx := match nth 4 res.2 (EvRun testing.Main "") with
             | EvTest _ _ fx _ => fx
             | _ => None
             end).
  assert (In (EvTest "SubTestFailNow" (testing.Sub testing.Main "FailNow") fx Goexit)
             res.2) as Hin.
  { vm_compute. do 4 right. left. reflexivity. }
  destruct (failing_case_ends_only_its_sub_unit (rt := Demo.rt) Demo.FailingTests 2
              testing.Main
              (Demo.groupMethod "SubTestFailNow" [testing_T; Demo.dirAndUser])
              Demo.st0 res.1.1 res.1.2 res.2 _ _ _ (surjective_triple res) Hin)
    as (Hr & evs' & Hevs & _).
  split; [exact Hr|]. rewrite Hevs.
  rewrite (last_app evs' _). reflexivity.
Defined.
